(** * OCR refresh orchestration of the KPIs app (apps/kpis)

    A shallow embedding of the OCR-refresh subsystem:
    - [ensureInvoiceAttachmentLinkage], [resetExtractErrorState],
      [refreshOcrDataForInvoices] and [getAllInvoices] of
      [apps/kpis/src/lib/odoo/utils.ts];
    - the notification part of [pollStatus] and [needsOcrProcessing] of the
      [useOcrStatus] hook;
    - the zero-value test of [getInvoice];
    - further on, [getInvoice] itself with its auto-fix, the five tab
      listings and [validateInvoiceAccess] of the same file.

    The Odoo RPC client ([odooApi]) is an opaque collaborator: it is a record
    of operations over an abstract world [W]; each operation may change the
    world and either fulfils or rejects.  Every remote call of the
    orchestrator and of the listing, and every call on the notification
    service, is appended to a trace, so that statements such as "no write is
    issued" or "updateProgress is called n times" are statements about the
    trace.  The reads of the detail view, of the tab listings and of the
    access check change the world only; of these functions the trace keeps
    the writes and the extraction requests. *)

From Stdlib Require Import ZArith QArith.
From stdpp Require Import base option list strings gmap.

Local Open Scope Z_scope.
Local Open Scope string_scope.
Local Open Scope list_scope.

(** ** JavaScript values that reach the code *)

Module Js.

Local Unset Elimination Schemes.

(** The values a many2one field read over JSON-RPC can take ([false], an id,
    a pair [[id, display_name]]) and the values of the object literals the
    code writes back. *)
Inductive val : Type :=
| Undefined
| Null
| Bool (b : bool)
| Num (n : Z)
| Str (s : string)
| Arr (items : list val).

Local Set Elimination Schemes.

(** ToBoolean. *)
Definition truthy (v : val) : bool :=
  match v with
  | Undefined | Null => false
  | Bool b => b
  | Num n => negb (n =? 0)%Z
  | Str s => negb (String.eqb s EmptyString)
  | Arr _ => true
  end.

(** [a && b] *)
Definition and (a b : val) : val := if truthy a then b else a.

(** [Array.isArray(v)] *)
Definition isArray (v : val) : bool :=
  match v with Arr _ => true | _ => false end.

(** [v[0]]: reading index 0 of a non-array number or boolean is
    [undefined], as is reading past the end of an array. *)
Definition index0 (v : val) : val :=
  match v with
  | Arr (x :: _) => x
  | _ => Undefined
  end.

(** An object literal, as the ordered list of its properties. *)
Definition object : Type := list (string * val).

Fixpoint has_key (k : string) (o : object) : bool :=
  match o with
  | [] => false
  | (k', _) :: o' => String.eqb k k' || has_key k o'
  end.

(** A thrown value: an [Error] instance carrying its [message], or
    anything else. *)
Inductive thrown : Type :=
| ErrorObj (message : string)
| NonError.

(** [error instanceof Error ? error.message : 'Unknown error'] *)
Definition error_message (error : thrown) : string :=
  match error with
  | ErrorObj message => message
  | NonError => "Unknown error"
  end.

End Js.

(** ** Outcomes of asynchronous calls *)

Inductive Outcome (A : Type) : Type :=
| Fulfilled (a : A)
| Rejected (error : Js.thrown).
Arguments Fulfilled {A} a.
Arguments Rejected {A} error.

(** ** Records exchanged with Odoo *)

Definition INVOICE_MODEL : string := "account.move".
Definition ATTACHMENT_MODEL : string := "ir.attachment".

(** Row of [searchRead(INVOICE_MODEL, [["id","=",invoiceId]],
    {fields: ["id","message_main_attachment_id"]})]. *)
Record InvoiceData : Type := mkInvoiceData {
  invoice_id : Z;
  message_main_attachment_id : Js.val
}.

(** Row of a [searchRead] on [ATTACHMENT_MODEL] with
    [fields: ["id","name","mimetype"]]. *)
Record AttachmentData : Type := mkAttachmentData {
  attachment_id : Z;
  attachment_name : string;
  attachment_mimetype : string
}.

(** ** Results of a batch *)

Inductive Linkage : Type := no_attachment | linked | unknown.

Global Instance Linkage_eq_dec : EqDecision Linkage.
Proof. solve_decision. Defined.

(** One element of the [results] array of [refreshOcrDataForInvoices]. *)
Record ItemResult : Type := mkItemResult {
  invoiceId : Z;
  success : bool;
  error : option string;
  attachmentLinkage : Linkage
}.

(** The object returned by [refreshOcrDataForInvoices]. *)
Record BatchResult : Type := mkBatchResult {
  totalInvoices : nat;
  successful : nat;
  failed : nat;
  duration : Z;
  results : list ItemResult;
  completedAt : string
}.

(** ** The trace of observable calls *)

(** Calls on [odooApi], named after the shape of the call at its call site. *)
Inductive RpcCall : Type :=
| ReadLinkage (invoiceId : Z)
    (* searchRead(INVOICE_MODEL, [["id","=",invoiceId]],
                  {fields: ["id","message_main_attachment_id"]}) *)
| FindAttachment (invoiceId : Z)
    (* searchRead(ATTACHMENT_MODEL, [["res_model","=",INVOICE_MODEL],
                  ["res_id","=",invoiceId]],
                  {fields: ["id","name","mimetype"], limit: 1}) *)
| WriteFields (model : string) (ids : list Z) (values : Js.object)
    (* write(model, ids, values) *)
| ExecuteKw (model method : string) (args : list (list Z))
    (* executeKw(model, method, args) *)
| ListInvoices (alias : option string) (limit offset : option Z)
    (* searchRead(INVOICE_MODEL, domain, searchOptions) of getAllInvoices *)
| ListAttachments (invoiceIds : list Z) (includeAttachmentData : bool).
    (* searchRead(ATTACHMENT_MODEL, [["res_model","=",INVOICE_MODEL],
                  ["res_id","in",invoiceIds]], {fields, limit: 0}) *)

(** Calls on [ocrNotificationService]. *)
Inductive StoreCall : Type :=
| StartRefresh (invoiceIds : list Z)
| UpdateProgress (completed total : nat)
| CompleteRefresh (result : BatchResult)
| FailRefresh (message : string).

Inductive Event : Type :=
| Rpc (c : RpcCall)
| Notify (c : StoreCall).

(** ** The task monad: state passing with rejection *)

Record St (W : Type) : Type := mkSt {
  world : W;
  trace : list Event
}.
Arguments mkSt {W} world trace.
Arguments world {W} s.
Arguments trace {W} s.

(** An asynchronous computation run to completion: it transforms the state
    and fulfils or rejects.  Effects made before a rejection stay. *)
Definition Task (W A : Type) : Type := St W → St W * Outcome A.

Global Instance Task_ret {W} : MRet (Task W) :=
  λ A a s, (s, Fulfilled a).

Global Instance Task_bind {W} : MBind (Task W) :=
  λ A B f m s,
    match m s with
    | (s', Fulfilled a) => f a s'
    | (s', Rejected e) => (s', Rejected e)
    end.

(** [try { body } catch (error) { handler }] *)
Definition try_catch {W A} (body : Task W A) (handler : Js.thrown → Task W A)
  : Task W A :=
  λ s,
    match body s with
    | (s', Rejected e) => handler e s'
    | r => r
    end.

(** Appending one event to the trace. *)
Definition emit {W} (e : Event) : Task W unit :=
  λ s, (mkSt (world s) (trace s ++ [e]), Fulfilled tt).

(** A call on [ocrNotificationService].  The service keeps a status in
    memory (see [NotificationStore] below); its methods return normally. *)
Definition notify {W} (c : StoreCall) : Task W unit := emit (Notify c).

(** The state after a call on the notification service. *)
Definition notified {W} (c : StoreCall) (s : St W) : St W :=
  mkSt (world s) (trace s ++ [Notify c]).

(** The state after a remote call that left the world as [w']. *)
Definition called {W} (c : RpcCall) (w' : W) (s : St W) : St W :=
  mkSt w' (trace s ++ [Rpc c]).

(** A remote call: logged, then answered by the world. *)
Definition remote {W A} (c : RpcCall) (op : W → W * Outcome A) : Task W A :=
  λ s,
    let '(w', r) := op (world s) in
    (mkSt w' (trace s ++ [Rpc c]), r).

(** ** Invoices and attachments of the list view ([@isleno/types/odoo]) *)

(** [amount_untaxed?: number], which the hook also tests against [null].
    The number is decoded from JSON, so it is a finite number; it is kept as
    a rational ([12.5] is [25 # 2]). *)
Inductive Amount : Type :=
| AmountUndefined
| AmountNull
| AmountNum (q : Q).

(** [OdooInvoiceAttachment] *)
Record OdooInvoiceAttachment : Type := mkOdooInvoiceAttachment {
  ia_id : Z;
  ia_name : string;
  ia_mimetype : string;
  ia_datas : option string
}.

(** [OdooAttachment]; [res_id] is optional. *)
Record OdooAttachment : Type := mkOdooAttachment {
  a_id : Z;
  a_name : string;
  a_mimetype : string;
  a_datas : option string;
  a_res_id : option Z
}.

(** [OdooInvoice], restricted to the fields this subsystem reads or sets. *)
Record OdooInvoice : Type := mkOdooInvoice {
  id : Z;
  amount_untaxed : Amount;
  attachments : option (list OdooInvoiceAttachment)
}.

(** ** The environment: the Odoo client and the clock *)

Record Env (W : Type) : Type := mkEnv {
  (** answer of the [ReadLinkage] call *)
  read_linkage : Z → W → W * Outcome (list InvoiceData);
  (** answer of the [FindAttachment] call *)
  find_attachment : Z → W → W * Outcome (list AttachmentData);
  (** answer of [odooApi.write] *)
  write : string → list Z → Js.object → W → W * Outcome unit;
  (** answer of [odooApi.executeKw]; the code ignores the value *)
  executeKw : string → string → list (list Z) → W → W * Outcome unit;
  (** answer of the [ListInvoices] call *)
  list_invoices : option string → option Z → option Z → W
                  → W * Outcome (list OdooInvoice);
  (** answer of the [ListAttachments] call *)
  list_attachments : list Z → bool → W → W * Outcome (list OdooAttachment);
  (** [Date.now()] *)
  date_now : W → Z;
  (** [new Date().toISOString()] *)
  date_iso : W → string
}.
Arguments read_linkage {W} e.
Arguments find_attachment {W} e.
Arguments write {W} e.
Arguments executeKw {W} e.
Arguments list_invoices {W} e.
Arguments list_attachments {W} e.
Arguments date_now {W} e.
Arguments date_iso {W} e.

Section Orchestrator.

Context {W : Type} (odooApi : Env W).

Definition searchRead_linkage (invoiceId : Z) : Task W (list InvoiceData) :=
  remote (ReadLinkage invoiceId) (read_linkage odooApi invoiceId).

Definition searchRead_attachment (invoiceId : Z) : Task W (list AttachmentData) :=
  remote (FindAttachment invoiceId) (find_attachment odooApi invoiceId).

Definition odoo_write (model : string) (ids : list Z) (values : Js.object)
  : Task W unit :=
  remote (WriteFields model ids values) (write odooApi model ids values).

Definition odoo_executeKw (model method : string) (args : list (list Z))
  : Task W unit :=
  remote (ExecuteKw model method args) (executeKw odooApi model method args).

Definition now : Task W Z := λ s, (s, Fulfilled (date_now odooApi (world s))).

Definition toISOString : Task W string :=
  λ s, (s, Fulfilled (date_iso odooApi (world s))).

(** The object literal written by [resetExtractErrorState]. *)
Definition extract_reset_values : Js.object :=
  [ ("extract_state", Js.Str "no_extract_requested");
    ("extract_status", Js.Bool false);
    ("extract_error_message", Js.Bool false) ].

(** The object literal written to link an attachment. *)
Definition linkage_values (attachmentId : Z) : Js.object :=
  [ ("message_main_attachment_id", Js.Num attachmentId) ].

(** [resetExtractErrorState] *)
Definition resetExtractErrorState (invoiceId : Z) : Task W unit :=
  odoo_write INVOICE_MODEL [invoiceId] extract_reset_values.

(** [invoice.message_main_attachment_id &&
     (Array.isArray(invoice.message_main_attachment_id)
        ? invoice.message_main_attachment_id[0]
        : invoice.message_main_attachment_id)] *)
Definition main_attachment_of (invoice : InvoiceData) : Js.val :=
  let m := message_main_attachment_id invoice in
  Js.and m (if Js.isArray m then Js.index0 m else m).

(** [ensureInvoiceAttachmentLinkage]: the whole body is inside
    [try { ... } catch (error) { return false; }]. *)
Definition ensureInvoiceAttachmentLinkage (invoiceId : Z) : Task W bool :=
  try_catch
    (invoiceData ← searchRead_linkage invoiceId;
     match invoiceData with
     | [] => mret false
     | invoice :: _ =>
         let attachmentId := main_attachment_of invoice in
         if negb (Js.truthy attachmentId) then
           attachments ← searchRead_attachment invoiceId;
           match attachments with
           | [] => mret false
           | first :: _ =>
               odoo_write INVOICE_MODEL [invoiceId]
                          (linkage_values (attachment_id first));;
               resetExtractErrorState invoiceId;;
               mret true
           end
         else
           resetExtractErrorState invoiceId;;
           mret true
     end)
    (λ _, mret false).

(** The three shapes of a per-invoice entry pushed on [results]. *)
Definition skipped_entry (invoiceId : Z) : ItemResult :=
  mkItemResult invoiceId false (Some "No attachment found to process")
               no_attachment.

Definition success_entry (invoiceId : Z) : ItemResult :=
  mkItemResult invoiceId true None linked.

Definition failure_entry (invoiceId : Z) (error : Js.thrown) : ItemResult :=
  mkItemResult invoiceId false (Some (Js.error_message error)) unknown.

(** One iteration of the [for] loop of [refreshOcrDataForInvoices], for
    index [i] and [invoiceId = invoiceIds[i]]; [total] is
    [invoiceIds.length].  The [try] block yields the grown [results] and
    whether it left the iteration through [continue]. *)
Definition refresh_iteration (total i : nat) (invoiceId : Z)
    (results : list ItemResult) : Task W (list ItemResult) :=
  r ← try_catch
        (attachmentLinked ← ensureInvoiceAttachmentLinkage invoiceId;
         if negb attachmentLinked then
           notify (UpdateProgress (i + 1) total);;
           mret (results ++ [skipped_entry invoiceId], true)
         else
           odoo_executeKw "account.move" "action_reload_ai_data"
                          [[invoiceId]];;
           mret (results ++ [success_entry invoiceId], false))
        (λ error, mret (results ++ [failure_entry invoiceId error], false));
  if (r.2 : bool) then mret r.1
  else notify (UpdateProgress (i + 1) total);; mret r.1.

(** The loop [for (let i = 0; i < invoiceIds.length; i++)], entered at
    index [i] with [rest] the ids still to process. *)
Fixpoint refresh_loop (total i : nat) (rest : list Z)
    (results : list ItemResult) : Task W (list ItemResult) :=
  match rest with
  | [] => mret results
  | invoiceId :: rest' =>
      results' ← refresh_iteration total i invoiceId results;
      refresh_loop total (S i) rest' results'
  end.

(** [results.filter(p).length] *)
Definition count_results (p : ItemResult → bool) (rs : list ItemResult) : nat :=
  length (List.filter p rs).

(** [refreshOcrDataForInvoices] *)
Definition refreshOcrDataForInvoices (invoiceIds : list Z) : Task W BatchResult :=
  startTime ← now;
  results ← refresh_loop (length invoiceIds) 0 invoiceIds [];
  endTime ← now;
  let duration := (endTime - startTime)%Z in
  let successful := count_results (λ r, success r) results in
  let failed := count_results (λ r, negb (success r)) results in
  completedAt ← toISOString;
  mret (mkBatchResult (length invoiceIds) successful failed duration results
                      completedAt).

End Orchestrator.

(** ** The zero-value tests *)

(** [x === 0] on an optional number. *)
Definition amount_is_zero (a : Amount) : bool :=
  match a with
  | AmountNum q => Qeq_bool q 0
  | _ => false
  end.

(** [!x] on an optional number: [undefined], [null] and [0] are falsy. *)
Definition amount_falsy (a : Amount) : bool :=
  match a with
  | AmountUndefined | AmountNull => true
  | AmountNum q => Qeq_bool q 0
  end.

(** Modelled from the spec: [isZeroValueInvoice] of
    [lib/utils/invoiceUtils], imported by [utils.ts] and by the invoices
    route but not among the sources.  "given an invoice record, returns true
    iff its untaxed-amount field is absent, null, or exactly zero". *)
Definition isZeroValueInvoice (invoice : OdooInvoice) : bool :=
  match amount_untaxed invoice with
  | AmountUndefined => true
  | AmountNull => true
  | AmountNum q => Qeq_bool q 0
  end.

(** [const hasZeroValue = !invoice.amount_untaxed ||
      invoice.amount_untaxed === 0] of [getInvoice]. *)
Definition hasZeroValue (invoice : OdooInvoice) : bool :=
  amount_falsy (amount_untaxed invoice) || amount_is_zero (amount_untaxed invoice).

(** The predicate handed to [some] in [needsOcrProcessing]:
    [amount_untaxed === null || amount_untaxed === undefined ||
     amount_untaxed === 0]. *)
Definition amount_missing_or_zero (invoice : OdooInvoice) : bool :=
  match amount_untaxed invoice with AmountNull => true | _ => false end
  || match amount_untaxed invoice with AmountUndefined => true | _ => false end
  || amount_is_zero (amount_untaxed invoice).

(** [needsOcrProcessing] of [useOcrStatus]; [invoices] is
    [OdooInvoice | OdooInvoice[] | undefined]. *)
Definition needsOcrProcessing (enabled : bool)
    (invoices : option (OdooInvoice + list OdooInvoice)) : bool :=
  match invoices with
  | None => false
  | Some given =>
      if negb enabled then false
      else
        let invoiceArray :=
          match given with inl one => [one] | inr many => many end in
        existsb amount_missing_or_zero invoiceArray
  end.

(** ** The notification store *)

Module NotificationStore.

(** Modelled from the spec: the state held by [ocrNotificationService]
    ([lib/services/ocrNotificationService], not among the sources), with the
    fields of the snapshot "{isRunning, startTime?, progress?, lastResult?,
    lastError?}". *)
Record Status : Type := mkStatus {
  isRunning : bool;
  startTime : option Z;
  progress : option (nat * nat);
  lastResult : option BatchResult;
  lastError : option string
}.

(** Modelled from the spec: the initial state [Idle] of the missing
    service. *)
Definition idle : Status := mkStatus false None None None None.

(** Modelled from the spec: [startRefresh] of the missing service,
    "transitions to Running; records start time and resets progress counters
    to (0, total = size of invoiceIds)"; the previous terminal result and
    error stay until the new batch produces its own. *)
Definition startRefresh (invoiceIds : list Z) (at_time : Z) (s : Status) : Status :=
  mkStatus true (Some at_time) (Some (0%nat, length invoiceIds))
           (lastResult s) (lastError s).

(** Modelled from the spec: [updateProgress] of the missing service; the
    store does not enforce monotonicity. *)
Definition updateProgress (completed total : nat) (s : Status) : Status :=
  mkStatus (isRunning s) (startTime s) (Some (completed, total))
           (lastResult s) (lastError s).

(** Modelled from the spec: [completeRefresh] of the missing service,
    "transitions to Idle while retaining result as last result; clears the
    Running progress fields"; the terminal error of an earlier batch is
    superseded. *)
Definition completeRefresh (result : BatchResult) (s : Status) : Status :=
  mkStatus false (startTime s) None (Some result) None.

(** Modelled from the spec: [failRefresh] of the missing service, "same
    transition shape as completeRefresh but stores a terminal error message
    instead of a result; mutually exclusive with a terminal result". *)
Definition failRefresh (message : string) (s : Status) : Status :=
  mkStatus false (startTime s) None None (Some message).

(** Modelled from the spec: [getSnapshot] of the missing service, "returns
    an immutable copy"; reading leaves the store as it is. *)
Definition getSnapshot (s : Status) : Status := s.

(** The operations a client can perform on the store. *)
Inductive Op : Type :=
| OpStart (invoiceIds : list Z) (at_time : Z)
| OpProgress (completed total : nat)
| OpComplete (result : BatchResult)
| OpFail (message : string)
| OpSnapshot.

Definition step (o : Op) (s : Status) : Status :=
  match o with
  | OpStart invoiceIds at_time => startRefresh invoiceIds at_time s
  | OpProgress completed total => updateProgress completed total s
  | OpComplete result => completeRefresh result s
  | OpFail message => failRefresh message s
  | OpSnapshot => s
  end.

Definition run (ops : list Op) (s : Status) : Status :=
  foldl (λ acc o, step o acc) s ops.

(** A terminal call: [completeRefresh] or [failRefresh]. *)
Definition terminal (o : Op) : bool :=
  match o with
  | OpComplete _ | OpFail _ => true
  | _ => false
  end.

End NotificationStore.

(** ** Listing invoices and starting the background refresh *)

(** The object returned by [getAllInvoices]. *)
Record InvoiceListing : Type := mkInvoiceListing {
  invoices : list OdooInvoice;
  ocrRefreshPerformed : bool;
  zeroValueInvoicesRefreshed : nat;
  zeroValueInvoiceIds : list Z
}.

(** [inv.attachments && inv.attachments.length > 0] *)
Definition has_attachments (inv : OdooInvoice) : bool :=
  match attachments inv with
  | Some l => bool_decide (0 < length l)%nat
  | None => false
  end.

(** The element pushed on [current] in the grouping loop. *)
Definition invoice_attachment (includeAttachmentData : bool)
    (attachment : OdooAttachment) : OdooInvoiceAttachment :=
  mkOdooInvoiceAttachment (a_id attachment) (a_name attachment)
    (a_mimetype attachment)
    (if includeAttachmentData then a_datas attachment else None).

(** The loop filling [attachmentsByInvoice]: an attachment whose [res_id] is
    falsy (absent or [0]) is skipped. *)
Definition group_attachments (includeAttachmentData : bool)
    (allAttachments : list OdooAttachment)
  : gmap Z (list OdooInvoiceAttachment) :=
  foldl
    (λ attachmentsByInvoice attachment,
       match a_res_id attachment with
       | None => attachmentsByInvoice
       | Some res_id =>
           if (res_id =? 0)%Z then attachmentsByInvoice
           else
             let current := default [] (attachmentsByInvoice !! res_id) in
             <[res_id := current ++ [invoice_attachment includeAttachmentData
                                                         attachment]]>
               attachmentsByInvoice
       end)
    ∅ allAttachments.

(** [invoice.attachments = attachmentsByInvoice.get(invoice.id) ?? []] *)
Definition with_attachments (attachmentsByInvoice : gmap Z (list OdooInvoiceAttachment))
    (invoice : OdooInvoice) : OdooInvoice :=
  mkOdooInvoice (id invoice) (amount_untaxed invoice)
                (Some (default [] (attachmentsByInvoice !! id invoice))).

Section Listing.

Context {W : Type} (odooApi : Env W).

(** The chain attached to the promise of the background refresh,
    [promise
       .then(result => ocrNotificationService.completeRefresh(result))
       .catch(error => ocrNotificationService.failRefresh(
          error instanceof Error ? error.message : 'Unknown error'))].
    [.catch] follows [.then], so it also handles a rejection of the [then]
    callback. *)
Definition then_catch (promise : Task W BatchResult) : Task W unit :=
  try_catch
    (result ← promise;
     notify (CompleteRefresh result))
    (λ error, notify (FailRefresh (Js.error_message error))).

(** [refreshOcrDataForInvoices(invoiceIds).then(...).catch(...)] *)
Definition background_refresh (invoiceIds : list Z) : Task W unit :=
  then_catch (refreshOcrDataForInvoices odooApi invoiceIds).

(** [getAllInvoices].  The detached chain is not awaited: it is returned
    next to the listing, as the task left to run after the response. *)
Definition getAllInvoices (invoiceApprovalAlias : option string)
    (skipOcrRefresh : bool) (limit offset : option Z)
    (includeAttachmentData : bool)
  : Task W (InvoiceListing * option (Task W unit)) :=
  fetched ← remote (ListInvoices invoiceApprovalAlias limit offset)
                   (list_invoices odooApi invoiceApprovalAlias limit offset);
  invoices ←
    (if bool_decide (0 < length fetched)%nat then
       let invoiceIds := map id fetched in
       allAttachments ← remote (ListAttachments invoiceIds includeAttachmentData)
                               (list_attachments odooApi invoiceIds
                                                 includeAttachmentData);
       let attachmentsByInvoice :=
         group_attachments includeAttachmentData allAttachments in
       mret (map (with_attachments attachmentsByInvoice) fetched)
     else mret fetched);
  let zeroValueInvoices := List.filter isZeroValueInvoice invoices in
  detached ←
    (if negb skipOcrRefresh && bool_decide (0 < length zeroValueInvoices)%nat then
       let invoicesWithAttachments :=
         List.filter has_attachments zeroValueInvoices in
       if bool_decide (0 < length invoicesWithAttachments)%nat then
         let invoiceIds := map id invoicesWithAttachments in
         notify (StartRefresh invoiceIds);;
         mret (Some (background_refresh invoiceIds))
       else mret None
     else mret None);
  let processedForOcr :=
    if negb skipOcrRefresh && bool_decide (0 < length zeroValueInvoices)%nat
    then List.filter has_attachments zeroValueInvoices
    else [] in
  mret (mkInvoiceListing invoices
          (negb skipOcrRefresh && bool_decide (0 < length processedForOcr)%nat)
          (length processedForOcr)
          (map id processedForOcr),
        detached).

End Listing.

(** ** The polling hook [useOcrStatus] *)

Module Hook.

(** [lastResult] of [OcrRefreshStatus], as decoded from the JSON answer of
    the status endpoint. *)
Record LastResult : Type := mkLastResult {
  totalInvoices : Z;
  successful : Z;
  failed : Z;
  duration : Z;
  completedAt : string
}.

(** [OcrRefreshStatus], restricted to what [pollStatus] reads. *)
Record OcrRefreshStatus : Type := mkOcrRefreshStatus {
  isRunning : bool;
  lastResult : option LastResult;
  lastError : option string
}.

(** The methods of [toast] (sonner). *)
Inductive ToastKind : Type := success | warning | error | info.

(** The [description] of a toast; the template literals are kept as their
    parts. *)
Inductive Description : Type :=
| Refreshed (successful : Z) (plural : bool) (seconds : Z)
    (* `Successfully refreshed ${successful} invoice${successful !== 1 ? 's' : ''}
        in ${Math.round(duration / 1000)}s` *)
| PartlyRefreshed (successful totalInvoices failed : Z)
    (* `Refreshed ${successful}/${totalInvoices} invoices successfully.
        ${failed} failed.` *)
| NotRefreshed (totalInvoices : Z) (plural : bool)
    (* `Failed to refresh ${totalInvoices} invoice${totalInvoices !== 1 ? 's' : ''}.
        Please try again.` *)
| Text (s : string).

Record Toast : Type := mkToast {
  kind : ToastKind;
  title : string;
  description : Description;
  shown_for : Z
}.

(** [Math.round(duration / 1000)] for an integer [duration]. *)
Definition round_seconds (duration : Z) : Z := ((duration + 500) / 1000)%Z.

(** The toast raised for a new [lastResult]. *)
Definition result_toast (result : LastResult) : Toast :=
  if (successful result =? totalInvoices result)%Z then
    mkToast success "OCR Refresh Complete"
      (Refreshed (successful result) (negb (successful result =? 1)%Z)
                 (round_seconds (duration result)))
      5000
  else if (0 <? successful result)%Z then
    mkToast success "OCR Refresh Partially Complete"
      (PartlyRefreshed (successful result) (totalInvoices result) (failed result))
      7000
  else
    mkToast error "OCR Refresh Failed"
      (NotRefreshed (totalInvoices result) (negb (totalInvoices result =? 1)%Z))
      7000.

(** [s.includes(sub)] *)
Fixpoint includes (s sub : string) : bool :=
  String.prefix sub s
  || match s with
     | EmptyString => false
     | String _ s' => includes s' sub
     end.

(** The toast raised for a new [lastError]. *)
Definition error_toast (err : string) : Toast :=
  let '(title, description) :=
    if includes err "Network error" || includes err "fetch" then
      ("Network Connection Error",
       "Unable to connect to the OCR service. Please check your internet connection and try again.")
    else if includes err "Authentication error" || includes err "401" then
      ("Authentication Error",
       "Your session has expired. Please refresh the page and try again.")
    else if includes err "Permission denied" || includes err "403" then
      ("Permission Denied",
       "You do not have permission to perform OCR refresh operations.")
    else if includes err "Service not found" || includes err "404" then
      ("Service Unavailable",
       "The OCR service is not available. Please contact support.")
    else if includes err "Server error" || includes err "500" then
      ("Server Error",
       "The OCR service encountered an internal error. Please try again later.")
    else if includes err "Service unavailable" || includes err "502"
            || includes err "503" || includes err "504" then
      ("Service Temporarily Unavailable",
       "The OCR service is temporarily down. Please try again in a few minutes.")
    else if includes err "timeout" then
      ("Request Timeout",
       "The OCR refresh operation took too long. Please try again.")
    else if includes err "Odoo API" then
      ("Odoo Service Error",
       "Unable to communicate with the Odoo system. Please try again later.")
    else ("OCR Refresh Error", err) in
  mkToast error title (Text description) 7000.

(** [value !== lastProcessedResult] for a string [value] and
    [lastProcessedResult : string | null]. *)
Definition differs (value : string) (lastProcessedResult : option string) : bool :=
  match lastProcessedResult with
  | Some seen => negb (String.eqb value seen)
  | None => true
  end.

(** The toasts [pollStatus] raises for a new result. *)
Definition result_toasts (newStatus : OcrRefreshStatus)
    (lastProcessedResult : option string) : list Toast :=
  match lastResult newStatus with
  | Some result =>
      if differs (completedAt result) lastProcessedResult
      then [result_toast result] else []
  | None => []
  end.

(** The toasts [pollStatus] raises for a new error; an empty [lastError] is
    falsy.  [lastProcessedResult] is still the value captured by the
    closure. *)
Definition error_toasts (newStatus : OcrRefreshStatus)
    (lastProcessedResult : option string) : list Toast :=
  match lastError newStatus with
  | Some err =>
      if negb (String.eqb err EmptyString) && differs err lastProcessedResult
      then [error_toast err] else []
  | None => []
  end.

(** What [pollStatus] does with a decoded answer [newStatus]: the toasts it
    raises, in order. *)
Definition pollStatus_toasts (newStatus : OcrRefreshStatus)
    (lastProcessedResult : option string) : list Toast :=
  result_toasts newStatus lastProcessedResult
  ++ error_toasts newStatus lastProcessedResult.

End Hook.

(** ** A small ERP to run the code on concrete inputs *)

Module Erp.

(** The part of an Odoo database the subsystem touches. *)
Record Db : Type := mkDb {
  (** invoices of [account.move], with their [message_main_attachment_id] *)
  moves : gmap Z Js.val;
  (** rows of [ir.attachment] by the invoice they refer to *)
  files : gmap Z (list AttachmentData);
  (** invoices for which [action_reload_ai_data] raises, with the message *)
  extract_failures : gmap Z string;
  (** the records the list view reads *)
  listed_invoices : list OdooInvoice;
  listed_attachments : list OdooAttachment;
  (** the clock, in milliseconds *)
  clock : Z;
  (** when set, reads and writes are refused with this message *)
  outage : option string
}.

Definition tick (db : Db) : Db :=
  mkDb (moves db) (files db) (extract_failures db) (listed_invoices db)
       (listed_attachments db) (clock db + 10) (outage db).

Definition set_moves (m : gmap Z Js.val) (db : Db) : Db :=
  mkDb m (files db) (extract_failures db) (listed_invoices db)
       (listed_attachments db) (clock db) (outage db).

Definition set_outage (o : option string) (db : Db) : Db :=
  mkDb (moves db) (files db) (extract_failures db) (listed_invoices db)
       (listed_attachments db) (clock db) o.

(** A read or write reaches the database unless there is an outage. *)
Definition guarded {A} (db : Db) (answer : Db * Outcome A) : Db * Outcome A :=
  match outage db with
  | Some message => (tick db, Rejected (Js.ErrorObj message))
  | None => answer
  end.

Fixpoint lookup_field (k : string) (o : Js.object) : option Js.val :=
  match o with
  | [] => None
  | (k', v) :: o' => if String.eqb k k' then Some v else lookup_field k o'
  end.

Definition read_linkage (invoiceId : Z) (db : Db)
  : Db * Outcome (list InvoiceData) :=
  guarded db
    (tick db,
     Fulfilled match moves db !! invoiceId with
               | Some m => [mkInvoiceData invoiceId m]
               | None => []
               end).

Definition find_attachment (invoiceId : Z) (db : Db)
  : Db * Outcome (list AttachmentData) :=
  guarded db (tick db, Fulfilled (take 1 (default [] (files db !! invoiceId)))).

Definition write (model : string) (ids : list Z) (values : Js.object) (db : Db)
  : Db * Outcome unit :=
  guarded db
    match lookup_field "message_main_attachment_id" values with
    | Some v =>
        (tick (set_moves (foldr (λ i m, alter (λ _, v) i m) (moves db) ids) db),
         Fulfilled tt)
    | None => (tick db, Fulfilled tt)
    end.

Definition executeKw (model method : string) (args : list (list Z)) (db : Db)
  : Db * Outcome unit :=
  match args with
  | [[invoiceId]] =>
      match extract_failures db !! invoiceId with
      | Some message => (tick db, Rejected (Js.ErrorObj message))
      | None => (tick db, Fulfilled tt)
      end
  | _ => (tick db, Fulfilled tt)
  end.

Definition list_invoices (alias : option string) (limit offset : option Z)
    (db : Db) : Db * Outcome (list OdooInvoice) :=
  (tick db, Fulfilled (listed_invoices db)).

Definition list_attachments (invoiceIds : list Z) (includeData : bool)
    (db : Db) : Db * Outcome (list OdooAttachment) :=
  (tick db,
   Fulfilled (List.filter
                (λ a, match a_res_id a with
                      | Some r => bool_decide (r ∈ invoiceIds)
                      | None => false
                      end)
                (listed_attachments db))).

Definition env : Env Db :=
  mkEnv Db read_linkage find_attachment write executeKw list_invoices
        list_attachments clock (λ _, "2025-01-01T00:00:00.000Z").

Definition pdf (n : Z) : AttachmentData :=
  mkAttachmentData n "invoice.pdf" "application/pdf".

(** Invoice 1 has neither linkage nor attachment; invoice 2 has an
    attachment that is not linked yet; invoice 3 is linked, and its
    extraction is refused by the remote service; invoice 4 is linked by a
    pair [[id, name]]. *)
Definition sample : Db :=
  mkDb (<[1 := Js.Bool false]> (<[2 := Js.Bool false]> (<[3 := Js.Num 30]>
          (<[4 := Js.Arr [Js.Num 40; Js.Str "invoice.pdf"]]> ∅))))
       (<[2 := [pdf 20]]> (<[3 := [pdf 30]]> (<[4 := [pdf 40]]> ∅)))
       (<[3 := "rate limited"]> ∅)
       [ mkOdooInvoice 1 (AmountNum 0) None;
         mkOdooInvoice 2 AmountNull None;
         mkOdooInvoice 3 (AmountNum 0) None;
         mkOdooInvoice 4 (AmountNum (25 # 2)) None ]
       [ mkOdooAttachment 20 "invoice.pdf" "application/pdf" None (Some 2);
         mkOdooAttachment 30 "invoice.pdf" "application/pdf" None (Some 3);
         mkOdooAttachment 40 "invoice.pdf" "application/pdf" None (Some 4) ]
       1000 None.

Definition start (db : Db) : St Db := mkSt db [].

End Erp.


(** ** Vocabulary of the statements *)

(** The calls on the notification service in a trace, in order. *)
Definition store_calls (t : list Event) : list StoreCall :=
  omap (λ e, match e with Notify c => Some c | Rpc _ => None end) t.

(** The remote calls in a trace, in order. *)
Definition rpc_calls (t : list Event) : list RpcCall :=
  omap (λ e, match e with Rpc c => Some c | Notify _ => None end) t.

(** A write that touches the main-attachment linkage field. *)
Definition sets_linkage (c : RpcCall) : bool :=
  match c with
  | WriteFields _ _ values => Js.has_key "message_main_attachment_id" values
  | _ => false
  end.

(** The linkage of a row is set, as the code reads it. *)
Definition linkage_set (invoice : InvoiceData) : bool :=
  Js.truthy (main_attachment_of invoice).

(** The entries the loop can record for [invoiceId]. *)
Definition entry_for (invoiceId : Z) (entry : ItemResult) : Prop :=
  entry = skipped_entry invoiceId
  ∨ entry = success_entry invoiceId
  ∨ ∃ e, entry = failure_entry invoiceId e.

(** The events of one iteration of a batch of [n] ids, for the id at
    index [k]: the linkage read comes first, remote calls follow, and one
    progress update closes the iteration. *)
Definition invoice_block (n : nat) (k : nat) (invoiceId : Z)
    (block : list Event) : Prop :=
  ∃ rpcs, block = Rpc (ReadLinkage invoiceId) :: map Rpc rpcs
                  ++ [Notify (UpdateProgress (k + 1) n)].

(** The attachments among [allAttachments] that refer to invoice [k], as
    the list view shows them. *)
Definition attachments_of (includeAttachmentData : bool)
    (allAttachments : list OdooAttachment) (k : Z) : list OdooInvoiceAttachment :=
  map (invoice_attachment includeAttachmentData)
      (List.filter (λ a, bool_decide (a_res_id a = Some k ∧ k ≠ 0))
                   allAttachments).

(** An invoice of the list view, carrying the attachments that refer to
    it. *)
Definition listed_with (includeAttachmentData : bool)
    (allAttachments : list OdooAttachment) (inv : OdooInvoice) : OdooInvoice :=
  mkOdooInvoice (id inv) (amount_untaxed inv)
    (Some (attachments_of includeAttachmentData allAttachments (id inv))).

(** A zero-value invoice that has at least one attachment. *)
Definition refresh_candidate (inv : OdooInvoice) : bool :=
  isZeroValueInvoice inv && has_attachments inv.

(** The ids of the zero-value invoices that have attachments, in the order
    of the listing. *)
Definition candidate_ids (invoices : list OdooInvoice) : list Z :=
  map id (List.filter refresh_candidate invoices).

(** How many entries of a batch carry a given linkage tag. *)
Definition count_tag (tag : Linkage) (batch : BatchResult) : nat :=
  count_results (λ r, bool_decide (attachmentLinkage r = tag)) (results batch).

(** The terminal call the detached chain makes for an outcome of the
    orchestrator's promise. *)
Definition terminal_call (o : Outcome BatchResult) : StoreCall :=
  match o with
  | Fulfilled result => CompleteRefresh result
  | Rejected e => FailRefresh (Js.error_message e)
  end.

(** [completeRefresh] and [failRefresh] are the terminal calls. *)
Definition is_terminal (c : StoreCall) : bool :=
  match c with
  | CompleteRefresh _ | FailRefresh _ => true
  | _ => false
  end.

(** The extraction request for [invoiceId]. *)
Definition extraction_call (invoiceId : Z) : RpcCall :=
  ExecuteKw "account.move" "action_reload_ai_data" [[invoiceId]].

(** The error-state reset write for [invoiceId]. *)
Definition reset_call (invoiceId : Z) : RpcCall :=
  WriteFields INVOICE_MODEL [invoiceId]
    [ ("extract_state", Js.Str "no_extract_requested");
      ("extract_status", Js.Bool false);
      ("extract_error_message", Js.Bool false) ].

(** [updateProgress(1, n)], ..., [updateProgress(n, n)]. *)
Definition progress_updates (n : nat) : list StoreCall :=
  map (λ k, UpdateProgress (k + 1) n) (seq 0 n).

Section LinkageSpec.

Context {W : Type} (odooApi : Env W).

(** In world [w] the invoice has its main attachment linked already, or gets
    it linked, and the error-state reset write succeeds. *)
Inductive linked_and_reset (invoiceId : Z) (w : W) : Prop :=
| already_linked invoice others w1 w2 :
    read_linkage odooApi invoiceId w = (w1, Fulfilled (invoice :: others)) →
    linkage_set invoice = true →
    write odooApi INVOICE_MODEL [invoiceId] extract_reset_values w1
      = (w2, Fulfilled tt) →
    linked_and_reset invoiceId w
| becomes_linked invoice others w1 first more w2 w3 w4 :
    read_linkage odooApi invoiceId w = (w1, Fulfilled (invoice :: others)) →
    linkage_set invoice = false →
    find_attachment odooApi invoiceId w1 = (w2, Fulfilled (first :: more)) →
    write odooApi INVOICE_MODEL [invoiceId]
          (linkage_values (attachment_id first)) w2 = (w3, Fulfilled tt) →
    write odooApi INVOICE_MODEL [invoiceId] extract_reset_values w3
      = (w4, Fulfilled tt) →
    linked_and_reset invoiceId w.

End LinkageSpec.

(** * Further functions of the same files *)

(** A read whose call shape has no label of its own in [RpcCall]: the world
    answers and moves on; the trace keeps the writes, the [executeKw] calls
    and the calls on the notification service. *)
Definition query {W A} (op : W → W * Outcome A) : Task W A :=
  λ s,
    let '(w', r) := op (world s) in
    (mkSt w' (trace s), r).

(** [throw error] *)
Definition throw {W A} (error : Js.thrown) : Task W A :=
  λ s, (s, Rejected error).

(** ** The detail view: [getInvoice] *)

(** [OdooInvoiceLineItem], as read with
    [fields: ["id","account_id","analytic_distribution","price_subtotal","name"]];
    [getInvoice] only stores the rows. *)
Record LineItem : Type := mkLineItem {
  line_id : Z;
  line_name : option string
}.

(** The invoice object of [getInvoice]: the fields of the row it reads that
    the function looks at, and the two properties it sets. *)
Record InvoiceDetail : Type := mkInvoiceDetail {
  detail_id : Z;
  detail_amount_untaxed : Amount;
  detail_main_attachment : Js.val;
  detail_invoice_line_ids : option (list Z);
  line_items : option (list LineItem);
  detail_attachments : option (list OdooInvoiceAttachment)
}.

(** The reads of the detail and tab views. *)
Record DetailApi (W : Type) : Type := mkDetailApi {
  (** [searchRead(INVOICE_MODEL, [["id","=",invoiceId],
       ["move_type","=","in_invoice"], ["state","!=","cancel"]], {fields})] *)
  read_invoice : Z → W → W * Outcome (list InvoiceDetail);
  (** [searchRead(LINE_ITEM_MODEL, [["id","in",invoice.invoice_line_ids],
       ["display_type","=",false]], {fields: lineItemFields})] *)
  read_line_items : list Z → W → W * Outcome (list LineItem);
  (** [searchRead(ATTACHMENT_MODEL, [["res_model","=",INVOICE_MODEL],
       ["res_id","=",invoice.id]], {fields: ["id","name","mimetype","datas"]})] *)
  read_attachments : Z → W → W * Outcome (list OdooInvoiceAttachment);
  (** [searchRead(INVOICE_MODEL, [["id","=",invoiceId]],
       {fields: ["x_studio_project_manager_1"]})]: the field of each row *)
  read_manager : Z → W → W * Outcome (list (option string));
  (** the invoice read of [getPendingInvoices] *)
  read_pending : option string → W → W * Outcome (list OdooInvoice);
  (** the invoice read of [getAwaitingApprovalInvoices] *)
  read_awaiting_approval : option string → W → W * Outcome (list OdooInvoice);
  (** the invoice read of [getSentForPaymentInvoices] *)
  read_sent_for_payment : option string → W → W * Outcome (list OdooInvoice);
  (** the invoice read of [getPaidInvoices] *)
  read_paid : option string → W → W * Outcome (list OdooInvoice);
  (** the invoice read of [getOtherInvoices] *)
  read_other : option string → W → W * Outcome (list OdooInvoice)
}.
Arguments read_invoice {W} d.
Arguments read_line_items {W} d.
Arguments read_attachments {W} d.
Arguments read_manager {W} d.
Arguments read_pending {W} d.
Arguments read_awaiting_approval {W} d.
Arguments read_sent_for_payment {W} d.
Arguments read_paid {W} d.
Arguments read_other {W} d.

Section Detail.

Context {W : Type} (odooApi : Env W) (views : DetailApi W).

(** [invoice.line_items = lineItems] *)
Definition set_line_items (lineItems : list LineItem) (invoice : InvoiceDetail)
  : InvoiceDetail :=
  mkInvoiceDetail (detail_id invoice) (detail_amount_untaxed invoice)
    (detail_main_attachment invoice) (detail_invoice_line_ids invoice)
    (Some lineItems) (detail_attachments invoice).

(** [invoice.attachments = attachments] *)
Definition set_attachments (attachments : list OdooInvoiceAttachment)
    (invoice : InvoiceDetail) : InvoiceDetail :=
  mkInvoiceDetail (detail_id invoice) (detail_amount_untaxed invoice)
    (detail_main_attachment invoice) (detail_invoice_line_ids invoice)
    (line_items invoice) (Some attachments).

(** [const hasZeroValue = !invoice.amount_untaxed ||
      invoice.amount_untaxed === 0] *)
Definition detail_has_zero_value (invoice : InvoiceDetail) : bool :=
  amount_falsy (detail_amount_untaxed invoice)
  || amount_is_zero (detail_amount_untaxed invoice).

(** [hasMainAttachmentId]: the same expression as in
    [ensureInvoiceAttachmentLinkage]. *)
Definition hasMainAttachmentId (invoice : InvoiceDetail) : Js.val :=
  main_attachment_of
    (mkInvoiceData (detail_id invoice) (detail_main_attachment invoice)).

(** The auto-fix block of [getInvoice], from the outer [try] to the end of
    its [catch].  Reading [attachments[0].id] of an empty array would be a
    [TypeError]; the outer [catch] takes every error, also one raised while
    the inner [catch] logs [ocrError.message]. *)
Definition auto_fix (invoiceId : Z) (invoice : InvoiceDetail)
    (attachments : list OdooInvoiceAttachment) : Task W unit :=
  try_catch
    ((if negb (Js.truthy (hasMainAttachmentId invoice)) then
        match attachments with
        | first :: _ =>
            odoo_write odooApi INVOICE_MODEL [invoiceId]
                       (linkage_values (ia_id first))
        | [] =>
            throw (Js.ErrorObj
                     "Cannot read properties of undefined (reading 'id')")
        end
      else mret tt);;
     resetExtractErrorState odooApi invoiceId;;
     try_catch
       (odoo_executeKw odooApi "account.move" "action_reload_ai_data"
                       [[invoiceId]])
       (λ _, mret tt))
    (λ _, mret tt).

(** [getInvoice] *)
Definition getInvoice (invoiceId : Z) : Task W (option InvoiceDetail) :=
  invoices ← query (read_invoice views invoiceId);
  match invoices with
  | [] => mret None
  | invoice :: _ =>
      invoice ←
        match detail_invoice_line_ids invoice with
        | Some (first :: others) =>
            lineItems ← query (read_line_items views (first :: others));
            mret (set_line_items lineItems invoice)
        | _ => mret invoice
        end;
      attachments ← query (read_attachments views (detail_id invoice));
      let invoice := set_attachments attachments invoice in
      let hasZeroValue := detail_has_zero_value invoice in
      let hasAttachments := bool_decide (0 < length attachments)%nat in
      (if hasZeroValue && hasAttachments
       then auto_fix invoiceId invoice attachments
       else mret tt);;
      mret (Some invoice)
  end.

(** The loop shared, copy for copy, by [getPendingInvoices],
    [getAwaitingApprovalInvoices], [getSentForPaymentInvoices],
    [getPaidInvoices] and [getOtherInvoices]:
    [for (const invoice of invoices) {
       invoice.attachments = await odooApi.searchRead(ATTACHMENT_MODEL, ...) }]. *)
Fixpoint fetch_attachments (invoices : list OdooInvoice)
  : Task W (list OdooInvoice) :=
  match invoices with
  | [] => mret []
  | invoice :: rest =>
      attachments ← query (read_attachments views (id invoice));
      rest' ← fetch_attachments rest;
      mret (mkOdooInvoice (id invoice) (amount_untaxed invoice)
                          (Some attachments) :: rest')
  end.

(** [getPendingInvoices] *)
Definition getPendingInvoices (invoiceApprovalAlias : option string)
  : Task W (list OdooInvoice) :=
  invoices ← query (read_pending views invoiceApprovalAlias);
  fetch_attachments invoices.

(** [getAwaitingApprovalInvoices] *)
Definition getAwaitingApprovalInvoices (invoiceApprovalAlias : option string)
  : Task W (list OdooInvoice) :=
  invoices ← query (read_awaiting_approval views invoiceApprovalAlias);
  fetch_attachments invoices.

(** [getSentForPaymentInvoices] *)
Definition getSentForPaymentInvoices (invoiceApprovalAlias : option string)
  : Task W (list OdooInvoice) :=
  invoices ← query (read_sent_for_payment views invoiceApprovalAlias);
  fetch_attachments invoices.

(** [getPaidInvoices] *)
Definition getPaidInvoices (invoiceApprovalAlias : option string)
  : Task W (list OdooInvoice) :=
  invoices ← query (read_paid views invoiceApprovalAlias);
  fetch_attachments invoices.

(** [getOtherInvoices] *)
Definition getOtherInvoices (invoiceApprovalAlias : option string)
  : Task W (list OdooInvoice) :=
  invoices ← query (read_other views invoiceApprovalAlias);
  fetch_attachments invoices.

(** [validateInvoiceAccess].  [toLowerCase] is [String.prototype.toLowerCase].
    A row whose [x_studio_project_manager_1] is not a string (absent, or the
    [false] Odoo gives an empty field) is [None]: the comparison is then
    false, either because [undefined === ...] is, or because calling
    [toLowerCase] on [false] throws inside the [try]. *)
Definition validateInvoiceAccess (toLowerCase : string → string)
    (invoiceId : Z) (userAlias : option string) : Task W bool :=
  match userAlias with
  | None => mret false
  | Some alias =>
      if String.eqb alias EmptyString then mret false
      else
        try_catch
          (invoices ← query (read_manager views invoiceId);
           mret (bool_decide (0 < length invoices)%nat
                 && match invoices with
                    | Some manager :: _ =>
                        String.eqb (toLowerCase manager) (toLowerCase alias)
                    | _ => false
                    end))
          (λ _, mret false)
  end.

End Detail.

(** ** The views on the sample ERP *)

Module ErpViews.

(** The amount the list view shows for an invoice, if it is listed. *)
Definition amount_of (invoiceId : Z) (db : Erp.Db) : Amount :=
  match List.find (λ inv, (id inv =? invoiceId)%Z) (Erp.listed_invoices db) with
  | Some inv => amount_untaxed inv
  | None => AmountUndefined
  end.

Definition as_invoice_attachment (a : AttachmentData) : OdooInvoiceAttachment :=
  mkOdooInvoiceAttachment (attachment_id a) (attachment_name a)
                          (attachment_mimetype a) None.

Definition read_invoice (invoiceId : Z) (db : Erp.Db)
  : Erp.Db * Outcome (list InvoiceDetail) :=
  Erp.guarded db
    (Erp.tick db,
     Fulfilled match Erp.moves db !! invoiceId with
               | Some m => [mkInvoiceDetail invoiceId (amount_of invoiceId db) m
                                            None None None]
               | None => []
               end).

Definition read_line_items (ids : list Z) (db : Erp.Db)
  : Erp.Db * Outcome (list LineItem) :=
  Erp.guarded db (Erp.tick db, Fulfilled (map (λ i, mkLineItem i None) ids)).

Definition read_attachments (invoiceId : Z) (db : Erp.Db)
  : Erp.Db * Outcome (list OdooInvoiceAttachment) :=
  Erp.guarded db
    (Erp.tick db,
     Fulfilled (map as_invoice_attachment
                    (default [] (Erp.files db !! invoiceId)))).

Definition read_manager (invoiceId : Z) (db : Erp.Db)
  : Erp.Db * Outcome (list (option string)) :=
  Erp.guarded db
    (Erp.tick db,
     Fulfilled match Erp.moves db !! invoiceId with
               | Some _ => [Some "Ana.Lopez"]
               | None => []
               end).

Definition read_list (alias : option string) (db : Erp.Db)
  : Erp.Db * Outcome (list OdooInvoice) :=
  Erp.guarded db (Erp.tick db, Fulfilled (Erp.listed_invoices db)).

Definition views : DetailApi Erp.Db :=
  mkDetailApi Erp.Db read_invoice read_line_items read_attachments read_manager
              read_list read_list read_list read_list read_list.

(** The sample ERP for a user who may read but not write: every write is
    refused. *)
Definition read_only_env : Env Erp.Db :=
  mkEnv Erp.Db Erp.read_linkage Erp.find_attachment
        (λ _ _ _ db, (Erp.tick db, Rejected (Js.ErrorObj "Access denied")))
        Erp.executeKw Erp.list_invoices Erp.list_attachments Erp.clock
        (λ _, "2025-01-01T00:00:00.000Z").

(** The sample ERP for a user who may not read attachments. *)
Definition no_attachments_env : Env Erp.Db :=
  mkEnv Erp.Db Erp.read_linkage Erp.find_attachment Erp.write Erp.executeKw
        Erp.list_invoices
        (λ _ _ db, (Erp.tick db, Rejected (Js.ErrorObj "Access denied")))
        Erp.clock (λ _, "2025-01-01T00:00:00.000Z").

(** The views of a user who may not read the attachments of invoice [k]. *)
Definition views_without (k : Z) : DetailApi Erp.Db :=
  mkDetailApi Erp.Db read_invoice read_line_items
    (λ invoiceId db,
       if (invoiceId =? k)%Z
       then (Erp.tick db, Rejected (Js.ErrorObj "Access denied"))
       else read_attachments invoiceId db)
    read_manager read_list read_list read_list read_list read_list.

(** ASCII lower case, to run [validateInvoiceAccess]. *)
Definition lower_char (c : Ascii.ascii) : Ascii.ascii :=
  let n := Ascii.nat_of_ascii c in
  if (65 <=? n)%nat && (n <=? 90)%nat then Ascii.ascii_of_nat (n + 32) else c.

Fixpoint lower (s : string) : string :=
  match s with
  | EmptyString => EmptyString
  | String c s' => String (lower_char c) (lower s')
  end.

End ErpViews.

(** ** Vocabulary of the further statements *)

(** The remote calls of one run of [ensureInvoiceAttachmentLinkage] on
    invoice [k], with its answer. *)
Inductive linkage_sequence (k : Z) : bool → list RpcCall → Prop :=
| read_only :
    linkage_sequence k false [ReadLinkage k]
| nothing_to_link :
    linkage_sequence k false [ReadLinkage k; FindAttachment k]
| link_refused a :
    linkage_sequence k false
      [ReadLinkage k; FindAttachment k;
       WriteFields INVOICE_MODEL [k] (linkage_values a)]
| linked_reset_refused a :
    linkage_sequence k false
      [ReadLinkage k; FindAttachment k;
       WriteFields INVOICE_MODEL [k] (linkage_values a); reset_call k]
| reset_refused :
    linkage_sequence k false [ReadLinkage k; reset_call k]
| newly_linked a :
    linkage_sequence k true
      [ReadLinkage k; FindAttachment k;
       WriteFields INVOICE_MODEL [k] (linkage_values a); reset_call k]
| linked_before :
    linkage_sequence k true [ReadLinkage k; reset_call k].

(** The remote calls the loop makes for invoice [k]: those of the linkage
    step, then the extraction request when that step answered [true]. *)
Definition invoice_sequence (k : Z) (calls : list RpcCall) : Prop :=
  ∃ b base,
    linkage_sequence k b base
    ∧ calls = base ++ if b then [extraction_call k] else [].

(** The entry recorded for invoice [k] next to the calls made for it: a
    skip when the linkage step answered [false] (no extraction request), a
    success or a failure when it answered [true] and extraction was
    requested. *)
Definition step_record (k : Z) (entry : ItemResult) (calls : list RpcCall)
  : Prop :=
  ∃ b base,
    linkage_sequence k b base
    ∧ calls = base ++ (if b then [extraction_call k] else [])
    ∧ if b then entry = success_entry k ∨ ∃ e, entry = failure_entry k e
      else entry = skipped_entry k.

(** [c] is an extraction request. *)
Definition is_extraction (c : RpcCall) : bool :=
  match c with
  | ExecuteKw _ method _ => String.eqb method "action_reload_ai_data"
  | _ => false
  end.

(** A remote call of the repair protocol, about invoice [k] alone. *)
Inductive repair_call (k : Z) : RpcCall → Prop :=
| repair_read : repair_call k (ReadLinkage k)
| repair_find : repair_call k (FindAttachment k)
| repair_link a :
    repair_call k (WriteFields INVOICE_MODEL [k] (linkage_values a))
| repair_reset : repair_call k (reset_call k)
| repair_extract : repair_call k (extraction_call k).

(** [sub] occurs in [s]. *)
Definition occurs_in (sub s : string) : Prop :=
  ∃ before after, s = (before ++ sub ++ after)%string.

(** The words [pollStatus] looks for in an error message. *)
Definition error_keywords : list string :=
  [ "Network error"; "fetch"; "Authentication error"; "401";
    "Permission denied"; "403"; "Service not found"; "404";
    "Server error"; "500"; "Service unavailable"; "502"; "503"; "504";
    "timeout"; "Odoo API" ].

(** What the trace of the auto-fix of [getInvoice] can add, for an invoice
    whose linkage is set ([linked]) or not, with [first] the id of the
    first attachment. *)
Definition auto_fix_sequence (invoiceId first : Z) (linked : bool)
    (calls : list RpcCall) : Prop :=
  let link := WriteFields INVOICE_MODEL [invoiceId] (linkage_values first) in
  if linked then
    calls = [reset_call invoiceId]
    ∨ calls = [reset_call invoiceId; extraction_call invoiceId]
  else
    calls = [link]
    ∨ calls = [link; reset_call invoiceId]
    ∨ calls = [link; reset_call invoiceId; extraction_call invoiceId].

(** The five tab listings, each with the invoice read it starts from. *)
Definition tab_views {W} (views : DetailApi W)
  : list ((option string → W → W * Outcome (list OdooInvoice))
          * (option string → Task W (list OdooInvoice))) :=
  [ (read_pending views, getPendingInvoices views);
    (read_awaiting_approval views, getAwaitingApprovalInvoices views);
    (read_sent_for_payment views, getSentForPaymentInvoices views);
    (read_paid views, getPaidInvoices views);
    (read_other views, getOtherInvoices views) ].

(** The world after the attachments of [invoices] have been read one
    invoice after the other, starting in [w]. *)
Definition after_attachment_reads {W} (views : DetailApi W)
    (invoices : list OdooInvoice) (w : W) : W :=
  foldl (λ w inv, (read_attachments views (id inv) w).1) w invoices.

(** The attachment reads of [invoices], made one after the other from world
    [w], are all answered: [found] holds the answers, in order, and [w'] is
    the world after the last of them. *)
Inductive attachments_read {W} (views : DetailApi W)
  : list OdooInvoice → W → W → list (list OdooInvoiceAttachment) → Prop :=
| read_none w :
    attachments_read views [] w w []
| read_next inv rest w w1 w2 found others :
    read_attachments views (id inv) w = (w1, Fulfilled found) →
    attachments_read views rest w1 w2 others →
    attachments_read views (inv :: rest) w w2 (found :: others).

(** The invoices of a tab listing, each with the attachments found for
    it. *)
Definition with_found (invoices : list OdooInvoice)
    (found : list (list OdooInvoiceAttachment)) : list OdooInvoice :=
  zip_with (λ inv atts, mkOdooInvoice (id inv) (amount_untaxed inv) (Some atts))
           invoices found.

Section DetailSpec.

Context {W : Type} (odooApi : Env W) (views : DetailApi W).

(** The line-item step of [getInvoice] on the row read, from world [w]:
    nothing is read for a row without line ids; else the line items are
    read once and set on the invoice. *)
Inductive lines_read (row : InvoiceDetail) (w : W)
  : W → InvoiceDetail → Prop :=
| no_lines :
    detail_invoice_line_ids row = None
    ∨ detail_invoice_line_ids row = Some [] →
    lines_read row w w row
| lines_fetched first ids w' lineItems :
    detail_invoice_line_ids row = Some (first :: ids) →
    read_line_items views (first :: ids) w = (w', Fulfilled lineItems) →
    lines_read row w w' (set_line_items lineItems row).

(** The calls of the auto-fix of [getInvoice] as Odoo's answers decide them,
    from world [w] to world [w'], for an invoice whose linkage is set
    ([true]) or not; [first] is the id of the first attachment.  A refused
    write is the last call; the extraction request, answered or not, is the
    last call. *)
Inductive auto_fix_calls (invoiceId first : Z)
  : bool → W → W → list RpcCall → Prop :=
| fix_link_refused w w1 e :
    write odooApi INVOICE_MODEL [invoiceId] (linkage_values first) w
    = (w1, Rejected e) →
    auto_fix_calls invoiceId first false w w1
      [WriteFields INVOICE_MODEL [invoiceId] (linkage_values first)]
| fix_link_written w w1 w2 calls :
    write odooApi INVOICE_MODEL [invoiceId] (linkage_values first) w
    = (w1, Fulfilled tt) →
    auto_fix_calls invoiceId first true w1 w2 calls →
    auto_fix_calls invoiceId first false w w2
      (WriteFields INVOICE_MODEL [invoiceId] (linkage_values first) :: calls)
| fix_reset_refused w w1 e :
    write odooApi INVOICE_MODEL [invoiceId] extract_reset_values w
    = (w1, Rejected e) →
    auto_fix_calls invoiceId first true w w1 [reset_call invoiceId]
| fix_extraction_requested w w1 w2 answer :
    write odooApi INVOICE_MODEL [invoiceId] extract_reset_values w
    = (w1, Fulfilled tt) →
    executeKw odooApi "account.move" "action_reload_ai_data" [[invoiceId]] w1
    = (w2, answer) →
    auto_fix_calls invoiceId first true w w2
      [reset_call invoiceId; extraction_call invoiceId].

End DetailSpec.

(** * Properties *)

(** ** Running tasks *)

Section TaskFacts.

Context {W : Type}.

Lemma bind_fulfilled {A B} (m : Task W A) (f : A → Task W B) s s' a :
  m s = (s', Fulfilled a) → (m ≫= f) s = f a s'.
Proof. intros H. unfold mbind, Task_bind. by rewrite H. Qed.

Lemma bind_rejected {A B} (m : Task W A) (f : A → Task W B) s s' e :
  m s = (s', Rejected e) → (m ≫= f) s = (s', Rejected e).
Proof. intros H. unfold mbind, Task_bind. by rewrite H. Qed.

Lemma try_catch_fulfilled {A} (body : Task W A) handler s s' a :
  body s = (s', Fulfilled a) → try_catch body handler s = (s', Fulfilled a).
Proof. intros H. unfold try_catch. by rewrite H. Qed.

Lemma try_catch_rejected {A} (body : Task W A) handler s s' e :
  body s = (s', Rejected e) → try_catch body handler s = handler e s'.
Proof. intros H. unfold try_catch. by rewrite H. Qed.

Lemma notify_run c (s : St W) : notify c s = (notified c s, Fulfilled tt).
Proof. reflexivity. Qed.

Lemma remote_run {A} c (op : W → W * Outcome A) s w' r :
  op (world s) = (w', r) → remote c op s = (called c w' s, r).
Proof. intros H. unfold remote. by rewrite H. Qed.

End TaskFacts.

(** ** Linkage repair *)

Section LinkageFacts.

Context {W : Type} (odooApi : Env W).

Ltac run_task :=
  unfold ensureInvoiceAttachmentLinkage, resetExtractErrorState,
    searchRead_linkage, searchRead_attachment, odoo_write, odoo_executeKw,
    try_catch, mbind, Task_bind, mret, Task_ret, remote, notify, emit; simpl.

(** [ensureInvoiceAttachmentLinkage] always fulfils. *)
(** What "set" means for the values Odoo gives a many2one field. *)
Lemma linkage_set_values n name :
  linkage_set (mkInvoiceData n (Js.Bool false)) = false
  ∧ linkage_set (mkInvoiceData n (Js.Num n)) = negb (n =? 0)%Z
  ∧ linkage_set (mkInvoiceData n (Js.Arr [Js.Num n; Js.Str name]))
    = negb (n =? 0)%Z.
Proof.
  unfold linkage_set, main_attachment_of, Js.and. by destruct n.
Qed.

Lemma ensure_trace invoiceId (s s' : St W) b :
  ensureInvoiceAttachmentLinkage odooApi invoiceId s = (s', Fulfilled b) →
  ∃ more, trace s' = trace s ++ Rpc (ReadLinkage invoiceId) :: map Rpc more.
Proof.
  run_task.
  repeat (case_match; simplify_eq/=); intros [= <- <-]; simpl;
    rewrite <- ?app_assoc; simpl;
    first [ by exists [] | by eexists [_] | by eexists [_; _] | by eexists [_; _; _] ].
Qed.

Lemma ensure_fulfils invoiceId (s : St W) :
  ∃ s' b, ensureInvoiceAttachmentLinkage odooApi invoiceId s = (s', Fulfilled b).
Proof.
  run_task.
  repeat (case_match; simplify_eq/=); eauto.
Qed.

(** The iteration of the loop, once the linkage step has answered. *)
Lemma iteration_skips total i invoiceId results (s s' : St W) :
  ensureInvoiceAttachmentLinkage odooApi invoiceId s = (s', Fulfilled false) →
  refresh_iteration odooApi total i invoiceId results s
  = (notified (UpdateProgress (i + 1) total) s',
     Fulfilled (results ++ [skipped_entry invoiceId])).
Proof.
  intros H. unfold refresh_iteration, try_catch, mbind, Task_bind.
  rewrite H. reflexivity.
Qed.

Lemma iteration_extracts total i invoiceId results (s s' : St W) w'' r :
  ensureInvoiceAttachmentLinkage odooApi invoiceId s = (s', Fulfilled true) →
  executeKw odooApi "account.move" "action_reload_ai_data" [[invoiceId]]
            (world s') = (w'', r) →
  refresh_iteration odooApi total i invoiceId results s
  = (notified (UpdateProgress (i + 1) total)
       (called (extraction_call invoiceId) w'' s'),
     Fulfilled (results ++ [match r with
                            | Fulfilled _ => success_entry invoiceId
                            | Rejected e => failure_entry invoiceId e
                            end])).
Proof.
  intros H Hx. unfold refresh_iteration.
  assert (Hk : odoo_executeKw odooApi "account.move" "action_reload_ai_data"
                 [[invoiceId]] s'
               = (called (extraction_call invoiceId) w'' s', r))
    by (by apply remote_run).
  unfold refresh_iteration, try_catch, mbind, Task_bind.
  rewrite H. simpl. rewrite Hk. by destruct r.
Qed.

(** C10. [ensureInvoiceAttachmentLinkage] never throws: on every invoice id
    and in every state it fulfils with a boolean, which is [true] exactly
    when the main attachment is already linked or becomes linked and the
    error-state reset write succeeds, and [false] otherwise (invoice not
    found, no attachment, or a remote call that throws).  Whenever it is
    [false], whatever the cause, the loop records the entry with the fixed
    message 'No attachment found to process' and goes on to the progress
    update without requesting extraction. *)
Theorem ensure_linkage_never_throws invoiceId (s : St W) :
  ∃ s' b,
    ensureInvoiceAttachmentLinkage odooApi invoiceId s = (s', Fulfilled b)
    ∧ (b = true ↔ linked_and_reset odooApi invoiceId (world s))
    ∧ (b = false →
       ∀ total i results,
         refresh_iteration odooApi total i invoiceId results s
         = (notified (UpdateProgress (i + 1) total) s',
            Fulfilled (results ++ [skipped_entry invoiceId]))
         ∧ error (skipped_entry invoiceId)
           = Some "No attachment found to process").
Proof.
  destruct (ensure_fulfils invoiceId s) as (s' & b & Hrun).
  exists s', b. split; [exact Hrun|]. split.
  - revert Hrun. run_task.
    destruct (read_linkage odooApi invoiceId (world s)) as [w1 [[|invoice others]|e]] eqn:Hread;
      simpl.
    + intros [= <- <-]. split; [done|]. intros [?????|????????]; congruence.
    + fold (linkage_set invoice).
      destruct (linkage_set invoice) eqn:Hset; simpl.
      * destruct (write odooApi INVOICE_MODEL [invoiceId] extract_reset_values w1)
          as [w2 [[]|e]] eqn:Hreset; simpl; intros [= <- <-].
        -- split; [intros _; by eapply already_linked|done].
        -- split; [done|]. intros [?????|????????]; congruence.
      * destruct (find_attachment odooApi invoiceId w1)
          as [w2 [[|first more]|e]] eqn:Hfind; simpl.
        -- intros [= <- <-]. split; [done|].
           intros [?????|????????]; congruence.
        -- destruct (write odooApi INVOICE_MODEL [invoiceId]
                       (linkage_values (attachment_id first)) w2)
             as [w3 [[]|e]] eqn:Hlink; simpl.
           ++ destruct (write odooApi INVOICE_MODEL [invoiceId]
                          extract_reset_values w3)
                as [w4 [[]|e]] eqn:Hreset; simpl; intros [= <- <-].
              ** split; [intros _; by eapply becomes_linked|done].
              ** split; [done|]. intros [?????|????????]; congruence.
           ++ intros [= <- <-]. split; [done|].
              intros [?????|????????]; congruence.
        -- intros [= <- <-]. split; [done|].
           intros [?????|????????]; congruence.
    + intros [= <- <-]. split; [done|]. intros [?????|????????]; congruence.
  - intros -> total i results. split; [|reflexivity].
    by apply iteration_skips.
Qed.

Lemma ensure_when_linked invoiceId (s : St W) w1 invoice others w2 r :
  read_linkage odooApi invoiceId (world s) = (w1, Fulfilled (invoice :: others)) →
  linkage_set invoice = true →
  write odooApi INVOICE_MODEL [invoiceId] extract_reset_values w1 = (w2, r) →
  ensureInvoiceAttachmentLinkage odooApi invoiceId s
  = (called (reset_call invoiceId) w2 (called (ReadLinkage invoiceId) w1 s),
     Fulfilled (match r with Fulfilled _ => true | Rejected _ => false end)).
Proof.
  unfold linkage_set. intros Hread Hset Hreset. run_task.
  rewrite Hread. simpl. rewrite Hset. simpl. rewrite Hreset.
  by destruct r.
Qed.

(** C3. When the linkage read of an invoice shows the main attachment
    already set, the iteration issues no write of the linkage field: its
    remote calls are the read, then the error-state reset write (extract
    state, status and error message), then at most the extraction request;
    the reset write is issued whatever the linkage was. *)
Theorem linked_invoice_is_reset_not_relinked total i invoiceId results
    (s : St W) w1 invoice others :
  read_linkage odooApi invoiceId (world s) = (w1, Fulfilled (invoice :: others)) →
  linkage_set invoice = true →
  ∃ s' results' extraction,
    refresh_iteration odooApi total i invoiceId results s
    = (s', Fulfilled results')
    ∧ trace s' = trace s ++ [Rpc (ReadLinkage invoiceId);
                             Rpc (reset_call invoiceId)]
                 ++ map Rpc extraction
                 ++ [Notify (UpdateProgress (i + 1) total)]
    ∧ (extraction = [] ∨ extraction = [extraction_call invoiceId])
    ∧ Forall (λ c, sets_linkage c = false)
        (ReadLinkage invoiceId :: reset_call invoiceId :: extraction).
Proof.
  intros Hread Hset.
  destruct (write odooApi INVOICE_MODEL [invoiceId] extract_reset_values w1)
    as [w2 r] eqn:Hreset.
  pose proof (ensure_when_linked invoiceId s _ _ _ _ _ Hread Hset Hreset) as Hrun.
  destruct r as [[]|e].
  - destruct (executeKw odooApi "account.move" "action_reload_ai_data"
                [[invoiceId]] w2) as [w3 r] eqn:Hx.
    eexists _, _, [extraction_call invoiceId].
    split; [eapply iteration_extracts; [exact Hrun|exact Hx]|].
    split; [simpl; by rewrite <- !app_assoc|].
    split; [by right|]. repeat constructor.
  - eexists _, _, [].
    split; [eapply iteration_skips; exact Hrun|].
    split; [simpl; by rewrite <- !app_assoc|].
    split; [by left|]. repeat constructor.
Qed.

(** Every iteration fulfils, records one entry for its invoice, and its
    events form one block closed by the progress update. *)
Lemma iteration_summary total i invoiceId results (s : St W) :
  ∃ s' entry block,
    refresh_iteration odooApi total i invoiceId results s
    = (s', Fulfilled (results ++ [entry]))
    ∧ entry_for invoiceId entry
    ∧ trace s' = trace s ++ block
    ∧ invoice_block total i invoiceId block.
Proof.
  destruct (ensure_fulfils invoiceId s) as (s1 & b & Hrun).
  destruct (ensure_trace invoiceId s s1 b Hrun) as (more & Htrace).
  destruct b.
  - destruct (executeKw odooApi "account.move" "action_reload_ai_data"
                [[invoiceId]] (world s1)) as [w2 r] eqn:Hx.
    eexists _, _, _. split; [eapply iteration_extracts; eauto|].
    split; [destruct r; [right; by left|right; right; by eexists]|].
    simpl. rewrite Htrace, <- !app_assoc. simpl. split; [reflexivity|].
    exists (more ++ [extraction_call invoiceId]).
    by rewrite map_app, <- app_assoc.
  - eexists _, _, _. split; [eapply iteration_skips; eauto|].
    split; [by left|].
    simpl. rewrite Htrace, <- !app_assoc. simpl. split; [reflexivity|].
    by exists more.
Qed.

End LinkageFacts.

(** ** The batch loop *)

Section BatchFacts.

Context {W : Type} (odooApi : Env W).

Lemma entry_for_id k entry : entry_for k entry → invoiceId entry = k.
Proof. by intros [->|[->|[e ->]]]. Qed.

Lemma entry_for_success invoiceId entry :
  entry_for invoiceId entry →
  success entry = bool_decide (attachmentLinkage entry = linked).
Proof. by intros [->|[->|[e ->]]]. Qed.

(** The loop fulfils, records one entry per id in order, and its events
    are the blocks of its iterations in order. *)
Lemma loop_summary rest : ∀ total i results (s : St W),
  ∃ s' entries blocks,
    refresh_loop odooApi total i rest results s
    = (s', Fulfilled (results ++ entries))
    ∧ Forall2 entry_for rest entries
    ∧ trace s' = trace s ++ concat blocks
    ∧ Forall2 (λ p block, invoice_block total p.1 p.2 block)
              (zip (seq i (length rest)) rest) blocks.
Proof.
  induction rest as [|invoiceId rest IH]; intros total i results s.
  - exists s, [], []. simpl. rewrite !app_nil_r. repeat split; constructor.
  - destruct (iteration_summary odooApi total i invoiceId results s)
      as (s1 & entry & block & Hrun & Hentry & Htrace & Hblock).
    destruct (IH total (S i) (results ++ [entry]) s1)
      as (s' & entries & blocks & Hloop & Hentries & Htrace' & Hblocks).
    exists s', (entry :: entries), (block :: blocks). simpl.
    split; [|split; [|split]].
    + erewrite bind_fulfilled by exact Hrun.
      rewrite Hloop. by rewrite <- app_assoc.
    + by constructor.
    + by rewrite Htrace', Htrace, <- app_assoc.
    + by constructor.
Qed.

Lemma store_calls_app t1 t2 :
  store_calls (t1 ++ t2) = store_calls t1 ++ store_calls t2.
Proof. apply omap_app. Qed.

Lemma store_calls_rpcs rpcs : store_calls (map Rpc rpcs) = [].
Proof. induction rpcs; simpl; auto. Qed.

Lemma store_calls_block n k invoiceId block :
  invoice_block n k invoiceId block →
  store_calls block = [UpdateProgress (k + 1) n].
Proof.
  intros [rpcs ->]. change (Rpc ?c :: ?l) with ([Rpc c] ++ l).
  by rewrite !store_calls_app, store_calls_rpcs.
Qed.

Lemma store_calls_blocks n rest : ∀ i blocks,
  Forall2 (λ p block, invoice_block n p.1 p.2 block)
          (zip (seq i (length rest)) rest) blocks →
  store_calls (concat blocks)
  = map (λ k, UpdateProgress (k + 1) n) (seq i (length rest)).
Proof.
  induction rest as [|invoiceId rest IH]; intros i blocks Hblocks; simpl in *.
  - by inversion Hblocks.
  - inversion Hblocks as [|? block ? blocks' Hblock Hrest]; subst. simpl.
    rewrite store_calls_app, (store_calls_block _ _ _ _ Hblock).
    by rewrite (IH _ _ Hrest).
Qed.

(** What a run of [refreshOcrDataForInvoices] does, in one statement. *)
Lemma refresh_summary invoiceIds (s : St W) :
  ∃ s' batch blocks,
    refreshOcrDataForInvoices odooApi invoiceIds s = (s', Fulfilled batch)
    ∧ totalInvoices batch = length invoiceIds
    ∧ Forall2 entry_for invoiceIds (results batch)
    ∧ successful batch = count_results (λ r, success r) (results batch)
    ∧ failed batch = count_results (λ r, negb (success r)) (results batch)
    ∧ trace s' = trace s ++ concat blocks
    ∧ Forall2 (λ p block, invoice_block (length invoiceIds) p.1 p.2 block)
              (zip (seq 0 (length invoiceIds)) invoiceIds) blocks.
Proof.
  destruct (loop_summary invoiceIds (length invoiceIds) 0 [] s)
    as (s' & entries & blocks & Hloop & Hentries & Htrace & Hblocks).
  simpl in Hloop.
  eexists s', _, blocks. split.
  - unfold refreshOcrDataForInvoices, now, toISOString, mbind, Task_bind.
    rewrite Hloop. reflexivity.
  - simpl. repeat split; auto.
Qed.

Lemma loop_app before : ∀ total i after results (s s0 : St W) results0,
  refresh_loop odooApi total i before results s = (s0, Fulfilled results0) →
  refresh_loop odooApi total i (before ++ after) results s
  = refresh_loop odooApi total (i + length before) after results0 s0.
Proof.
  induction before as [|k before IH]; intros total i after results s s0 results0.
  - simpl. intros [= <- <-]. by rewrite Nat.add_0_r.
  - simpl.
    destruct (iteration_summary odooApi total i k results s)
      as (s1 & entry & block & Hrun & _).
    erewrite !bind_fulfilled by exact Hrun. intros Hloop.
    rewrite (IH _ _ after _ _ _ _ Hloop). f_equal. lia.
Qed.

Lemma progress_updates_lookup n k :
  (k < n)%nat → progress_updates n !! k = Some (UpdateProgress (k + 1) n).
Proof.
  intros Hk. unfold progress_updates.
  by rewrite list_lookup_fmap, lookup_seq_lt.
Qed.

Lemma count_by_tag entries ids :
  Forall2 entry_for ids entries →
  count_results (λ r, success r) entries
  = count_results (λ r, bool_decide (attachmentLinkage r = linked)) entries
  ∧ count_results (λ r, negb (success r)) entries
    = (count_results (λ r, bool_decide (attachmentLinkage r = no_attachment)) entries
       + count_results (λ r, bool_decide (attachmentLinkage r = unknown)) entries)%nat.
Proof.
  unfold count_results.
  induction 1 as [|k entry ids entries Hentry _ [IH1 IH2]]; [done|].
  destruct Hentry as [->|[->|[e ->]]]; simpl; rewrite ?IH1, ?IH2; split; lia.
Qed.

(** C5. A batch of [n] ids fulfils, and its events are [n] blocks, one per
    id in the order given: block [k] starts with the linkage read of the
    [k]-th id and ends with [updateProgress(k + 1, n)], whatever the outcome
    for that id.  So the notification service receives exactly the [n] calls
    [updateProgress(1, n)], ..., [updateProgress(n, n)], in that order. *)
Theorem progress_updated_once_per_invoice invoiceIds (s : St W) :
  let n := length invoiceIds in
  ∃ s' batch blocks,
    refreshOcrDataForInvoices odooApi invoiceIds s = (s', Fulfilled batch)
    ∧ trace s' = trace s ++ concat blocks
    ∧ Forall2 (λ p block, invoice_block n p.1 p.2 block)
              (zip (seq 0 n) invoiceIds) blocks
    ∧ store_calls (concat blocks) = progress_updates n
    ∧ length (store_calls (concat blocks)) = n
    ∧ ∀ k, (k < n)%nat →
        store_calls (concat blocks) !! k = Some (UpdateProgress (k + 1) n).
Proof.
  intros n.
  destruct (refresh_summary invoiceIds s)
    as (s' & batch & blocks & Hrun & _ & _ & _ & _ & Htrace & Hblocks).
  exists s', batch, blocks.
  assert (Hcalls : store_calls (concat blocks) = progress_updates n)
    by (by apply store_calls_blocks).
  repeat split; auto.
  - rewrite Hcalls. unfold progress_updates. by rewrite length_map, length_seq.
  - intros k Hk. rewrite Hcalls. by apply progress_updates_lookup.
Qed.

(** C4. If the extraction request of one id of a batch throws, the error
    is caught: the entry recorded for that id is a failure carrying the
    message of the error, the loop goes on with every remaining id in the
    order given (each gets its own block of events and its own entry), and
    the batch fulfils with its aggregate. *)
Theorem extraction_failure_does_not_stop_batch before failing after
    (s s0 s1 : St W) results0 w2 e :
  let invoiceIds := before ++ failing :: after in
  let n := length invoiceIds in
  refresh_loop odooApi n 0 before [] s = (s0, Fulfilled results0) →
  ensureInvoiceAttachmentLinkage odooApi failing s0 = (s1, Fulfilled true) →
  executeKw odooApi "account.move" "action_reload_ai_data" [[failing]]
            (world s1) = (w2, Rejected e) →
  ∃ s' batch entries blocks,
    refreshOcrDataForInvoices odooApi invoiceIds s = (s', Fulfilled batch)
    ∧ totalInvoices batch = n
    ∧ results batch
      = results0
        ++ mkItemResult failing false (Some (Js.error_message e)) unknown
        :: entries
    ∧ Forall2 entry_for after entries
    ∧ trace s'
      = trace (notified (UpdateProgress (length before + 1) n)
                 (called (extraction_call failing) w2 s1))
        ++ concat blocks
    ∧ Forall2 (λ p block, invoice_block n p.1 p.2 block)
              (zip (seq (S (length before)) (length after)) after) blocks.
Proof.
  intros invoiceIds n Hbefore Hlinked Hthrows.
  pose proof (iteration_extracts odooApi n (length before) failing results0
                s0 s1 w2 _ Hlinked Hthrows) as Hiter.
  destruct (loop_summary after n (S (length before))
              (results0 ++ [failure_entry failing e])
              (notified (UpdateProgress (length before + 1) n)
                 (called (extraction_call failing) w2 s1)))
    as (s' & entries & blocks & Hloop & Hentries & Htrace & Hblocks).
  eexists s', _, entries, blocks. split.
  - unfold refreshOcrDataForInvoices, now, toISOString, mbind, Task_bind.
    fold n. unfold invoiceIds.
    rewrite (loop_app before n 0 (failing :: after) [] s s0 results0 Hbefore).
    simpl. unfold mbind, Task_bind. rewrite Hiter, Hloop. reflexivity.
  - simpl. rewrite <- app_assoc. repeat split; auto.
Qed.

(** C1 (amended). Every batch fulfils with [totalInvoices] equal to the
    number of ids.  When exactly one entry is a skip for lack of attachment,
    exactly one is a successful extraction and exactly one is a thrown
    extraction, the aggregate has [successful = 1] and [failed = 2]: the
    skipped id is counted among the failed ones, never among the successful
    ones, and only its entry in [results] (tag [no_attachment], message
    'No attachment found to process') tells it from a failure. *)
Theorem skipped_invoice_counts_as_failed invoiceIds (s : St W) :
  ∃ s' batch,
    refreshOcrDataForInvoices odooApi invoiceIds s = (s', Fulfilled batch)
    ∧ totalInvoices batch = length invoiceIds
    ∧ (successful batch + failed batch = totalInvoices batch)%nat
    ∧ (count_tag no_attachment batch = 1%nat →
       count_tag linked batch = 1%nat →
       count_tag unknown batch = 1%nat →
       successful batch = 1%nat
       ∧ failed batch = 2%nat
       ∧ Forall (λ r, attachmentLinkage r = no_attachment →
                      success r = false
                      ∧ error r = Some "No attachment found to process")
                (results batch)).
Proof.
  destruct (refresh_summary invoiceIds s)
    as (s' & batch & blocks & Hrun & Htotal & Hentries & Hok & Hko & _).
  destruct (count_by_tag _ _ Hentries) as [Hsucc Hfail].
  exists s', batch. split; [exact Hrun|]. split; [exact Htotal|]. split.
  - rewrite Hok, Hko, Htotal, (Forall2_length _ _ _ Hentries).
    unfold count_results. clear.
    induction (results batch) as [|r rs IH]; [done|].
    simpl. destruct (success r); simpl; lia.
  - unfold count_tag. intros Hskip Hlinked Hthrown.
    rewrite Hok, Hko, Hsucc, Hfail, Hskip, Hlinked, Hthrown.
    repeat split; auto.
    clear -Hentries. induction Hentries as [|k entry ids entries Hentry _ IH];
      constructor; auto.
    by destruct Hentry as [->|[->|[e ->]]].
Qed.

End BatchFacts.

(** ** Listing and the detached chain *)

Section ListingFacts.

Context {W : Type} (odooApi : Env W).

Lemma group_attachments_from includeData allAttachments :
  ∀ (m : gmap Z (list OdooInvoiceAttachment)) k,
    default []
      (foldl
         (λ attachmentsByInvoice attachment,
            match a_res_id attachment with
            | None => attachmentsByInvoice
            | Some res_id =>
                if (res_id =? 0)%Z then attachmentsByInvoice
                else
                  let current := default [] (attachmentsByInvoice !! res_id) in
                  <[res_id := current ++ [invoice_attachment includeData
                                                            attachment]]>
                    attachmentsByInvoice
            end)
         m allAttachments !! k)
    = default [] (m !! k) ++ attachments_of includeData allAttachments k.
Proof.
  unfold attachments_of.
  induction allAttachments as [|a rest IH]; intros m k; simpl.
  - by rewrite app_nil_r.
  - rewrite IH. destruct (a_res_id a) as [r|] eqn:Hr.
    + destruct (Z.eqb_spec r 0) as [->|Hnz].
      * rewrite bool_decide_eq_false_2; [done|]. intros [[= <-] ?]. done.
      * destruct (decide (r = k)) as [->|Hne].
        -- rewrite lookup_insert_eq. simpl.
           rewrite bool_decide_eq_true_2 by done. simpl.
           by rewrite <- app_assoc.
        -- rewrite lookup_insert_ne by done.
           rewrite bool_decide_eq_false_2; [done|]. intros [[= ?] ?]. done.
    + rewrite bool_decide_eq_false_2; [done|]. intros [[=] ?].
Qed.

(** The map built by the grouping loop answers, for every invoice id, with
    the attachments that refer to it. *)
Lemma group_attachments_lookup includeData allAttachments k :
  default [] (group_attachments includeData allAttachments !! k)
  = attachments_of includeData allAttachments k.
Proof.
  unfold group_attachments. rewrite group_attachments_from.
  by rewrite lookup_empty.
Qed.

Lemma filter_filter_candidates (l : list OdooInvoice) :
  List.filter has_attachments (List.filter isZeroValueInvoice l)
  = List.filter refresh_candidate l.
Proof.
  unfold refresh_candidate. induction l as [|inv l IH]; [done|]. simpl.
  destruct (isZeroValueInvoice inv); simpl; [|done].
  destruct (has_attachments inv); by rewrite IH.
Qed.

Lemma filter_nonempty_outer (l : list OdooInvoice) :
  (0 < length (List.filter refresh_candidate l))%nat →
  (0 < length (List.filter isZeroValueInvoice l))%nat.
Proof.
  unfold refresh_candidate. induction l as [|inv l IH]; simpl; [lia|].
  destruct (isZeroValueInvoice inv); simpl; [lia|]. exact IH.
Qed.

(** The two tests of [getAllInvoices] before it starts a refresh amount to
    one: refresh is not skipped and there is a candidate. *)
Lemma start_condition skipOcrRefresh (l : list OdooInvoice) :
  negb skipOcrRefresh
  && bool_decide (0 < length (List.filter isZeroValueInvoice l))%nat
  && bool_decide (0 < length (List.filter refresh_candidate l))%nat
  = negb skipOcrRefresh
    && bool_decide (0 < length (List.filter refresh_candidate l))%nat.
Proof.
  destruct skipOcrRefresh; simpl; [done|].
  destruct (bool_decide_reflect
              (0 < length (List.filter refresh_candidate l))%nat) as [H|H].
  - by rewrite bool_decide_eq_true_2 by by apply filter_nonempty_outer.
  - by rewrite andb_false_r.
Qed.

(** The bookkeeping at the end of [getAllInvoices]: the invoices processed
    for OCR are the candidates, unless refresh is skipped. *)
Lemma processed_for_ocr skipOcrRefresh (listed : list OdooInvoice) :
  let zeroValueInvoices := List.filter isZeroValueInvoice listed in
  (if negb skipOcrRefresh && bool_decide (0 < length zeroValueInvoices)%nat
   then List.filter has_attachments zeroValueInvoices else [])
  = if skipOcrRefresh then [] else List.filter refresh_candidate listed.
Proof.
  simpl. destruct skipOcrRefresh; simpl; [done|].
  rewrite <- filter_filter_candidates.
  case_bool_decide as Hz; [done|].
  destruct (List.filter isZeroValueInvoice listed); [done|simpl in Hz; lia].
Qed.

(** The invoices of the listing are the invoices read, each with the
    attachments that the attachment read returned for it. *)
Lemma listing_invoices alias skipOcrRefresh limit offset includeData
    (s s' : St W) listing detached :
  getAllInvoices odooApi alias skipOcrRefresh limit offset includeData s
  = (s', Fulfilled (listing, detached)) →
  invoices listing = []
  ∨ ∃ w1 fetched w2 allAttachments,
      list_invoices odooApi alias limit offset (world s)
      = (w1, Fulfilled fetched)
      ∧ list_attachments odooApi (map id fetched) includeData w1
        = (w2, Fulfilled allAttachments)
      ∧ invoices listing = map (listed_with includeData allAttachments) fetched.
Proof.
  unfold getAllInvoices, mbind, Task_bind, remote.
  destruct (list_invoices odooApi alias limit offset (world s))
    as [w1 [fetched|e]]; [|done].
  case_bool_decide as Hfetched; simpl.
  - destruct (list_attachments odooApi (map id fetched) includeData w1)
      as [w2 [allAttachments|e]] eqn:Hall; [|done].
    simpl. intros Hrun. right. exists w1, fetched, w2, allAttachments.
    split; [done|]. split; [done|].
    assert (Hinv : invoices listing
                   = map (with_attachments
                            (group_attachments includeData allAttachments))
                         fetched).
    { revert Hrun. repeat case_match; simplify_eq/=; by intros [= <- <- <-]. }
    rewrite Hinv. apply map_ext. intros inv.
    unfold with_attachments, listed_with.
    by rewrite group_attachments_lookup.
  - intros Hrun. left.
    assert (Hinv : invoices listing = fetched).
    { revert Hrun. repeat case_match; simplify_eq/=; by intros [= <- <- <-]. }
    rewrite Hinv. destruct fetched; [done|simpl in Hfetched; lia].
Qed.

(** What a listing that answers reports, and whether it has started a
    refresh, in terms of the invoices it lists. *)
Lemma listing_summary alias skipOcrRefresh limit offset
    includeData (s s' : St W) listing detached :
  getAllInvoices odooApi alias skipOcrRefresh limit offset includeData s
  = (s', Fulfilled (listing, detached)) →
  let candidates := candidate_ids (invoices listing) in
  let started := negb skipOcrRefresh && bool_decide (0 < length candidates)%nat in
  (started = true
   ↔ skipOcrRefresh = false
     ∧ ∃ inv, inv ∈ invoices listing
              ∧ isZeroValueInvoice inv = true ∧ has_attachments inv = true)
  ∧ (∃ reads, trace s' = trace s ++ map Rpc reads
                         ++ if started then [Notify (StartRefresh candidates)]
                            else [])
  ∧ detached = (if started then Some (background_refresh odooApi candidates)
                else None)
  ∧ zeroValueInvoiceIds listing = (if started then candidates else [])
  ∧ ocrRefreshPerformed listing = started
  ∧ zeroValueInvoicesRefreshed listing
    = length (if started then candidates else [])
  ∧ (invoices listing = []
     ∨ ∃ w1 fetched w2 allAttachments,
         list_invoices odooApi alias limit offset (world s)
         = (w1, Fulfilled fetched)
         ∧ list_attachments odooApi (map id fetched) includeData w1
           = (w2, Fulfilled allAttachments)
         ∧ invoices listing
           = map (listed_with includeData allAttachments) fetched).
Proof.
  intros Hrun candidates started.
  pose proof (listing_invoices _ _ _ _ _ _ _ _ _ Hrun) as Hsource.
  cut ((started = true
        ↔ skipOcrRefresh = false
          ∧ ∃ inv, inv ∈ invoices listing
                   ∧ isZeroValueInvoice inv = true ∧ has_attachments inv = true)
       ∧ (∃ reads, trace s' = trace s ++ map Rpc reads
                              ++ if started
                                 then [Notify (StartRefresh candidates)]
                                 else [])
       ∧ detached = (if started
                     then Some (background_refresh odooApi candidates)
                     else None)
       ∧ zeroValueInvoiceIds listing = (if started then candidates else [])
       ∧ ocrRefreshPerformed listing = started
       ∧ zeroValueInvoicesRefreshed listing
         = length (if started then candidates else [])); [tauto|].
  clear Hsource.
  split.
  { unfold started, candidates, candidate_ids. rewrite length_map.
    rewrite andb_true_iff, negb_true_iff, bool_decide_eq_true.
    apply and_iff_compat_l. unfold refresh_candidate. split.
    - intros Hlen.
      destruct (List.filter _ (invoices listing)) as [|inv l] eqn:Hf;
        [simpl in Hlen; lia|].
      assert (Hin : In inv (List.filter
                (λ inv, isZeroValueInvoice inv && has_attachments inv)
                (invoices listing))) by (rewrite Hf; by left).
      apply filter_In in Hin as [Hin Hc]. apply andb_true_iff in Hc.
      exists inv. by rewrite list_elem_of_In.
    - intros (inv & Hin & Hz & Ha).
      assert (Hin' : In inv (List.filter
                (λ inv, isZeroValueInvoice inv && has_attachments inv)
                (invoices listing))).
      { apply filter_In. rewrite <- list_elem_of_In. by rewrite Hz, Ha. }
      destruct (List.filter _ (invoices listing)); [done|simpl; lia]. }
  assert (Hempty : ∀ l : list OdooInvoice,
            ¬ (0 < length (List.filter refresh_candidate l))%nat →
            List.filter refresh_candidate l = []).
  { intros l Hl. destruct (List.filter refresh_candidate l); [done|].
    simpl in Hl. lia. }
  revert Hrun. unfold getAllInvoices, mbind, Task_bind, remote.
  destruct (list_invoices odooApi alias limit offset (world s))
    as [w1 [fetched|e]]; [|done].
  case_bool_decide as Hfetched; simpl;
    [destruct (list_attachments odooApi (map id fetched) includeData w1)
       as [w2 [allAttachments|e]]; [|done]|];
    simpl; rewrite !processed_for_ocr, !filter_filter_candidates;
    unfold started, candidates, candidate_ids;
    (destruct skipOcrRefresh; simpl;
     [|case_bool_decide as Hz; simpl; [case_bool_decide as Hc; simpl|]]);
    intros [= <- <- <-]; simpl; rewrite ?length_map;
    try (assert (Hc : ¬ (0 < length (List.filter refresh_candidate
                   (map (with_attachments
                           (group_attachments includeData allAttachments))
                        fetched)))%nat)
           by (intros Hc; by apply Hz, filter_nonempty_outer));
    try (assert (Hc : ¬ (0 < length (List.filter refresh_candidate fetched))%nat)
           by (intros Hc; by apply Hz, filter_nonempty_outer));
    rewrite ?bool_decide_eq_true_2 by done;
    rewrite ?bool_decide_eq_false_2 by done;
    rewrite ?Hempty by done;
    (split; [eexists; rewrite <- ?app_assoc; simpl;
             first [ by instantiate (1 := [_]) | by instantiate (1 := [_; _]) ]
            |by rewrite ?length_map]).
Qed.

(** The reads of a listing that answers: their answers, the listed
    invoices, the world they leave and the remote calls logged. *)
Lemma listing_reads alias skipOcrRefresh limit offset includeData
    (s s' : St W) listing detached :
  getAllInvoices odooApi alias skipOcrRefresh limit offset includeData s
  = (s', Fulfilled (listing, detached)) →
  ∃ w1 fetched allAttachments,
    list_invoices odooApi alias limit offset (world s) = (w1, Fulfilled fetched)
    ∧ match fetched with
      | [] => allAttachments = [] ∧ world s' = w1
      | _ :: _ =>
          list_attachments odooApi (map id fetched) includeData w1
          = (world s', Fulfilled allAttachments)
      end
    ∧ invoices listing = map (listed_with includeData allAttachments) fetched
    ∧ rpc_calls (trace s')
      = rpc_calls (trace s)
        ++ ListInvoices alias limit offset
           :: match fetched with
              | [] => []
              | _ :: _ => [ListAttachments (map id fetched) includeData]
              end.
Proof.
  unfold getAllInvoices, mbind, Task_bind, mret, Task_ret, remote, notify, emit.
  destruct (list_invoices odooApi alias limit offset (world s))
    as [w1 [fetched|e]]; [|done].
  destruct fetched as [|inv0 rest].
  - simpl. intros Hrun. exists w1, [], [].
    revert Hrun. repeat case_match; simplify_eq/=; intros [= <- <- <-];
      unfold rpc_calls; simpl; rewrite ?omap_app; simpl;
      rewrite ?app_nil_r; by repeat split.
  - rewrite bool_decide_eq_true_2 by (simpl; lia). cbn [world trace].
    destruct (list_attachments odooApi (map id (inv0 :: rest)) includeData w1)
      as [w2 [allAttachments|e]] eqn:Hall; [|done].
    intros Hrun. exists w1, (inv0 :: rest), allAttachments.
    assert (Hlisted :
      map (with_attachments (group_attachments includeData allAttachments))
          (inv0 :: rest)
      = map (listed_with includeData allAttachments) (inv0 :: rest)).
    { apply map_ext. intros inv. unfold with_attachments, listed_with.
      by rewrite group_attachments_lookup. }
    rewrite <- Hlisted.
    revert Hrun. cbn [world trace].
    repeat case_match; simplify_eq/=; intros [= <- <- <-];
      unfold rpc_calls; simpl; rewrite ?omap_app; simpl;
      rewrite ?app_nil_r, <- ?app_assoc; by repeat split.
Qed.

(** An invoice of the listing has attachments exactly when some attachment
    read refers to it. *)
Lemma listed_invoice_has_attachments includeData allAttachments inv :
  has_attachments
    (with_attachments (group_attachments includeData allAttachments) inv)
  = bool_decide (0 < length (attachments_of includeData allAttachments (id inv)))%nat.
Proof.
  unfold has_attachments, with_attachments. simpl.
  by rewrite group_attachments_lookup.
Qed.

(** C8. The detached chain makes exactly one terminal call on the
    notification service, after the orchestrator's promise has settled, and
    itself always fulfils: [completeRefresh] with the aggregate when the
    promise fulfils, [failRefresh] with the message of the error when it
    rejects, and [failRefresh] in no other case.  For the orchestrator's own
    promise, which always fulfils, the calls received by the service during
    the background run are the progress updates followed by one
    [completeRefresh] with the aggregate. *)
Theorem detached_chain_reports_once (promise : Task W BatchResult)
    invoiceIds (s : St W) :
  then_catch promise s
  = (notified (terminal_call (promise s).2) (promise s).1, Fulfilled tt)
  ∧ (is_terminal (terminal_call (promise s).2) = true)
  ∧ ((∃ message, terminal_call (promise s).2 = FailRefresh message)
     ↔ ∃ e, (promise s).2 = Rejected e)
  ∧ ∃ s1 batch events,
      refreshOcrDataForInvoices odooApi invoiceIds s = (s1, Fulfilled batch)
      ∧ background_refresh odooApi invoiceIds s
        = (notified (CompleteRefresh batch) s1, Fulfilled tt)
      ∧ trace (notified (CompleteRefresh batch) s1) = trace s ++ events
      ∧ store_calls events
        = progress_updates (length invoiceIds) ++ [CompleteRefresh batch]
      ∧ List.filter is_terminal (store_calls events) = [CompleteRefresh batch].
Proof.
  assert (Hchain : ∀ p : Task W BatchResult,
            then_catch p s
            = (notified (terminal_call (p s).2) (p s).1, Fulfilled tt)).
  { intros p. unfold then_catch, try_catch, mbind, Task_bind.
    by destruct (p s) as [s1 [batch|e]]. }
  split; [apply Hchain|]. split; [by destruct (promise s).2|]. split.
  { destruct (promise s).2 as [batch|e]; simpl; split.
    - by intros [? ?].
    - by intros [? ?].
    - intros _. by eexists.
    - intros _. by eexists. }
  destruct (refresh_summary odooApi invoiceIds s)
    as (s1 & batch & blocks & Hrun & _ & _ & _ & _ & Htrace & Hblocks).
  exists s1, batch, (concat blocks ++ [Notify (CompleteRefresh batch)]).
  split; [exact Hrun|]. split.
  { unfold background_refresh. rewrite Hchain, Hrun. reflexivity. }
  split; [simpl; by rewrite Htrace, <- app_assoc|].
  assert (Hcalls : store_calls (concat blocks ++ [Notify (CompleteRefresh batch)])
                   = progress_updates (length invoiceIds)
                     ++ [CompleteRefresh batch]).
  { rewrite store_calls_app. f_equal. by apply store_calls_blocks. }
  split; [exact Hcalls|].
  rewrite Hcalls, List.filter_app. unfold progress_updates.
  replace (List.filter is_terminal
             (map (λ k, UpdateProgress (k + 1) (length invoiceIds))
                  (seq 0 (length invoiceIds)))) with (@nil StoreCall); [done|].
  generalize (seq 0 (length invoiceIds)). intros l.
  induction l as [|k l IH]; [done|]. simpl. exact IH.
Qed.

End ListingFacts.

(** ** The zero-value detector *)

(** C7. The zero-value detector is a function of the invoice record alone;
    it answers [true] exactly when the untaxed amount is absent, null or
    equal to zero.  It answers [true] for the amount [0], [true] for [null]
    and [false] for [12.5].  The two zero tests written out in the sources
    ([getInvoice] and [needsOcrProcessing]) agree with it on every
    invoice. *)
Theorem zero_value_detector_exact (inv : OdooInvoice) :
  (isZeroValueInvoice inv = true
   ↔ amount_untaxed inv = AmountUndefined
     ∨ amount_untaxed inv = AmountNull
     ∨ ∃ q, amount_untaxed inv = AmountNum q ∧ (q == 0)%Q)
  ∧ (∀ k a, isZeroValueInvoice (mkOdooInvoice k (AmountNum 0) a) = true)
  ∧ (∀ k a, isZeroValueInvoice (mkOdooInvoice k AmountNull a) = true)
  ∧ (∀ k a, isZeroValueInvoice (mkOdooInvoice k AmountUndefined a) = true)
  ∧ (∀ k a, isZeroValueInvoice (mkOdooInvoice k (AmountNum (25 # 2)) a) = false)
  ∧ hasZeroValue inv = isZeroValueInvoice inv
  ∧ amount_missing_or_zero inv = isZeroValueInvoice inv.
Proof.
  unfold isZeroValueInvoice, hasZeroValue, amount_missing_or_zero,
    amount_falsy, amount_is_zero.
  destruct inv as [k [| |q] a]; simpl.
  - repeat split; auto.
  - repeat split; auto.
  - repeat split; auto.
    + intros Hq. right; right. exists q. split; [done|]. by apply Qeq_bool_iff.
    + intros [?|[?|(q' & [= <-] & Hq)]]; try done. by apply Qeq_bool_iff.
    + by rewrite orb_diag.
Qed.

(** ** The notification store *)

Section StoreFacts.

Import NotificationStore.

Lemma run_app ops1 ops2 s : run (ops1 ++ ops2) s = run ops2 (run ops1 s).
Proof. apply foldl_app. Qed.

(** Only a terminal call changes [lastResult]. *)
Lemma step_keeps_last_result o s :
  terminal o = false → lastResult (step o s) = lastResult s.
Proof. by destruct o. Qed.

Lemma run_keeps_last_result ops : ∀ s,
  Forall (λ o, terminal o = false) ops →
  lastResult (run ops s) = lastResult s.
Proof.
  induction ops as [|o ops IH]; intros s Hops; [done|].
  inversion Hops as [|?? Ho Hrest]; subst. simpl.
  change (foldl (λ acc o, step o acc) (step o s) ops) with (run ops (step o s)).
  by rewrite IH, step_keeps_last_result.
Qed.

(** C9. While the store is running, [completeRefresh(result)] leaves a
    snapshot with [isRunning] false and [lastResult] equal to [result].
    Every later snapshot shows that same [lastResult] as long as no terminal
    call is made, whatever reads, progress updates or [startRefresh] calls
    occur in between.  A following [startRefresh(ids)] sets the progress to
    completed 0 of total (the number of ids) and leaves the previous
    [lastResult] visible; the terminal call of the new batch replaces
    it. *)
Theorem complete_result_kept_until_superseded (s : Status) result :
  isRunning s = true →
  let finished := completeRefresh result s in
  isRunning (getSnapshot finished) = false
  ∧ lastResult (getSnapshot finished) = Some result
  ∧ progress (getSnapshot finished) = None
  ∧ (∀ ops, Forall (λ o, terminal o = false) ops →
            lastResult (getSnapshot (run ops finished)) = Some result)
  ∧ (∀ reads invoiceIds at_time,
       Forall (λ o, o = OpSnapshot) reads →
       let restarted := startRefresh invoiceIds at_time (run reads finished) in
       isRunning (getSnapshot restarted) = true
       ∧ progress (getSnapshot restarted) = Some (0%nat, length invoiceIds)
       ∧ lastResult (getSnapshot restarted) = Some result
       ∧ (∀ updates result',
            Forall (λ o, terminal o = false) updates →
            lastResult (getSnapshot (completeRefresh result'
                                       (run updates restarted)))
            = Some result')
       ∧ (∀ updates message,
            Forall (λ o, terminal o = false) updates →
            lastResult (getSnapshot (failRefresh message
                                       (run updates restarted)))
            = None)).
Proof.
  intros Hrunning finished. unfold getSnapshot.
  split; [done|]. split; [done|]. split; [done|]. split.
  - intros ops Hops. by rewrite run_keeps_last_result.
  - intros reads invoiceIds at_time Hreads.
    split; [done|]. split; [done|]. split; [|done].
    simpl. rewrite run_keeps_last_result; [done|].
    eapply Forall_impl; [exact Hreads|]. by intros o ->.
Qed.

End StoreFacts.

(** ** The polling hook *)

(** C2 (amended). For a newly observed terminal result, [pollStatus] raises
    one toast for it, ahead of any toast for an error: a success toast
    'OCR Refresh Complete' when [successful] equals [totalInvoices]; again a
    success toast, titled 'OCR Refresh Partially Complete', when some but
    not all items succeeded; an error toast 'OCR Refresh Failed' when
    [successful] is zero and [totalInvoices] is not.  No branch raises a
    warning toast. *)
Theorem result_toast_classification (newStatus : Hook.OcrRefreshStatus)
    (result : Hook.LastResult) (lastProcessedResult : option string) :
  Hook.lastResult newStatus = Some result →
  Hook.differs (Hook.completedAt result) lastProcessedResult = true →
  ∃ t,
    Hook.result_toasts newStatus lastProcessedResult = [t]
    ∧ Hook.pollStatus_toasts newStatus lastProcessedResult
      = t :: Hook.error_toasts newStatus lastProcessedResult
    ∧ (Hook.successful result = Hook.totalInvoices result →
       Hook.kind t = Hook.success ∧ Hook.title t = "OCR Refresh Complete")
    ∧ (0 < Hook.successful result < Hook.totalInvoices result →
       Hook.kind t = Hook.success
       ∧ Hook.title t = "OCR Refresh Partially Complete")
    ∧ (Hook.successful result = 0 → Hook.totalInvoices result ≠ 0 →
       Hook.kind t = Hook.error ∧ Hook.title t = "OCR Refresh Failed")
    ∧ Hook.kind t ≠ Hook.warning.
Proof.
  intros Hresult Hnew. exists (Hook.result_toast result).
  unfold Hook.pollStatus_toasts, Hook.result_toasts.
  rewrite Hresult, Hnew. split; [done|]. split; [done|].
  unfold Hook.result_toast.
  destruct (Z.eqb_spec (Hook.successful result) (Hook.totalInvoices result))
    as [Heq|Hne]; simpl.
  - repeat split; auto; lia.
  - destruct (Z.ltb_spec 0 (Hook.successful result)) as [Hpos|Hle]; simpl.
    + repeat split; auto; try lia; done.
    + repeat split; auto; try lia; done.
Qed.

(** ** The properties at work on the sample ERP *)

(** The scenario of the specification: ids [1; 2; 3], where invoice 1 has no
    attachment, invoice 2 is extracted and the extraction of invoice 3
    throws 'rate limited'.  The aggregate counts two failed invoices, not
    one: the skipped invoice is among them. *)
Lemma skipped_invoice_is_counted_failed :
  ∃ s' batch,
    refreshOcrDataForInvoices Erp.env [1; 2; 3] (Erp.start Erp.sample)
    = (s', Fulfilled batch)
    ∧ results batch
      = [ mkItemResult 1 false (Some "No attachment found to process")
                       no_attachment;
          mkItemResult 2 true None linked;
          mkItemResult 3 false (Some "rate limited") unknown ]
    ∧ count_tag no_attachment batch = 1%nat
    ∧ count_tag linked batch = 1%nat
    ∧ count_tag unknown batch = 1%nat
    ∧ totalInvoices batch = 3%nat
    ∧ successful batch = 1%nat
    ∧ failed batch = 2%nat
    ∧ ¬ (successful batch = 1%nat ∧ failed batch = 1%nat).
Proof.
  eexists _, _. split; [vm_compute; reflexivity|].
  repeat split; intros []; discriminate.
Qed.

Lemma skipped_invoice_counts_as_failed_witness :
  ∃ s' batch,
    refreshOcrDataForInvoices Erp.env [1; 2; 3] (Erp.start Erp.sample)
    = (s', Fulfilled batch)
    ∧ totalInvoices batch = 3%nat
    ∧ successful batch = 1%nat
    ∧ failed batch = 2%nat.
Proof.
  destruct (skipped_invoice_counts_as_failed Erp.env [1; 2; 3]
              (Erp.start Erp.sample))
    as (s' & batch & Hrun & Htotal & _ & Hcounts).
  exists s', batch. split; [exact Hrun|]. split; [exact Htotal|].
  assert (Hresults : results batch
                     = [skipped_entry 1; success_entry 2;
                        failure_entry 3 (Js.ErrorObj "rate limited")]).
  { vm_compute in Hrun. by injection Hrun as _ <-. }
  unfold count_tag in Hcounts. rewrite Hresults in Hcounts.
  destruct Hcounts as (Hs & Hf & _); [reflexivity..|]. by split.
Defined.

(** A result with one success out of three raises a success toast, not a
    warning. *)
Lemma partial_success_is_not_a_warning :
  let result := Hook.mkLastResult 3 1 2 1500 "2025-01-01T00:00:00.000Z" in
  let newStatus := Hook.mkOcrRefreshStatus false (Some result) None in
  0 < Hook.successful result < Hook.totalInvoices result
  ∧ Hook.pollStatus_toasts newStatus None
    = [ Hook.mkToast Hook.success "OCR Refresh Partially Complete"
          (Hook.PartlyRefreshed 1 3 2) 7000 ]
  ∧ ¬ (∃ t, Hook.pollStatus_toasts newStatus None = [t]
            ∧ Hook.kind t = Hook.warning).
Proof.
  simpl. split; [lia|]. split; [reflexivity|].
  intros (t & Ht & Hkind). vm_compute in Ht. injection Ht as <-. discriminate.
Qed.

Lemma result_toast_classification_witness :
  let result := Hook.mkLastResult 3 1 2 1500 "2025-01-01T00:00:00.000Z" in
  let newStatus := Hook.mkOcrRefreshStatus false (Some result) None in
  ∃ t, Hook.result_toasts newStatus None = [t]
       ∧ Hook.kind t = Hook.success
       ∧ Hook.title t = "OCR Refresh Partially Complete".
Proof.
  intros result newStatus.
  destruct (result_toast_classification newStatus result None)
    as (t & Ht & _ & _ & Hpartial & _); [reflexivity..|].
  exists t. split; [exact Ht|]. apply Hpartial. simpl. lia.
Defined.

(** Invoice 4 of the sample is linked by a pair [[id, name]]. *)
Lemma linked_invoice_is_reset_not_relinked_witness :
  let s := Erp.start Erp.sample in
  linkage_set (mkInvoiceData 4 (Js.Arr [Js.Num 40; Js.Str "invoice.pdf"])) = true
  ∧ ∃ s' results' extraction,
      refresh_iteration Erp.env 1 0 4 [] s = (s', Fulfilled results')
      ∧ trace s' = trace s ++ [Rpc (ReadLinkage 4); Rpc (reset_call 4)]
                   ++ map Rpc extraction ++ [Notify (UpdateProgress (0 + 1) 1)]
      ∧ (extraction = [] ∨ extraction = [extraction_call 4])
      ∧ Forall (λ c, sets_linkage c = false)
          (ReadLinkage 4 :: reset_call 4 :: extraction).
Proof.
  intros s. split; [reflexivity|].
  eapply (linked_invoice_is_reset_not_relinked Erp.env 1 0 4 [] s);
    [vm_compute; reflexivity|reflexivity].
Defined.

Lemma extraction_failure_does_not_stop_batch_witness :
  let s := Erp.start Erp.sample in
  let s0 := (refresh_loop Erp.env 4 0 [1; 2] [] s).1 in
  let s1 := (ensureInvoiceAttachmentLinkage Erp.env 3 s0).1 in
  let w2 := (executeKw Erp.env "account.move" "action_reload_ai_data" [[3]]
               (world s1)).1 in
  ∃ s' batch entries blocks,
    refreshOcrDataForInvoices Erp.env ([1; 2] ++ 3 :: [4]) s
    = (s', Fulfilled batch)
    ∧ totalInvoices batch = 4%nat
    ∧ results batch
      = [skipped_entry 1; success_entry 2]
        ++ mkItemResult 3 false (Some "rate limited") unknown :: entries
    ∧ Forall2 entry_for [4] entries
    ∧ trace s'
      = trace (notified (UpdateProgress (2 + 1) 4)
                 (called (extraction_call 3) w2 s1))
        ++ concat blocks
    ∧ Forall2 (λ p block, invoice_block 4 p.1 p.2 block)
              (zip (seq 3 1) [4]) blocks.
Proof.
  intros s s0 s1 w2.
  apply (extraction_failure_does_not_stop_batch Erp.env [1; 2] 3 [4] s s0 s1
           [skipped_entry 1; success_entry 2] w2 (Js.ErrorObj "rate limited"));
    vm_compute; reflexivity.
Defined.

(** During an outage every remote call throws 'Network error'; the entry
    recorded says 'No attachment found to process'. *)
Lemma ensure_linkage_never_throws_witness :
  let s := Erp.start (Erp.set_outage (Some "Network error") Erp.sample) in
  ∃ s' results',
    ensureInvoiceAttachmentLinkage Erp.env 2 s = (s', Fulfilled false)
    ∧ refresh_iteration Erp.env 1 0 2 [] s
      = (notified (UpdateProgress (0 + 1) 1) s', Fulfilled results')
    ∧ results' = [mkItemResult 2 false (Some "No attachment found to process")
                               no_attachment].
Proof.
  intros s.
  destruct (ensure_linkage_never_throws Erp.env 2 s) as (s' & b & Hrun & _ & Hskip).
  assert (Hb : b = false).
  { vm_compute in Hrun. by injection Hrun as _ <-. }
  subst b. exists s'. eexists. split; [exact Hrun|].
  destruct (Hskip eq_refl 1%nat 0%nat []) as [Hiter _].
  split; [exact Hiter|reflexivity].
Defined.

Lemma complete_result_kept_until_superseded_witness :
  let result := mkBatchResult 10 8 2 1500 [] "2025-01-01T00:00:00.000Z" in
  let s := NotificationStore.startRefresh [5; 6] 0 NotificationStore.idle in
  let finished := NotificationStore.completeRefresh result s in
  NotificationStore.isRunning s = true
  ∧ NotificationStore.isRunning finished = false
  ∧ option_map successful (NotificationStore.lastResult finished) = Some 8%nat
  ∧ NotificationStore.progress
      (NotificationStore.startRefresh [7] 1 finished) = Some (0%nat, 1%nat)
  ∧ NotificationStore.lastResult
      (NotificationStore.startRefresh [7] 1 finished) = Some result.
Proof.
  intros result s finished.
  destruct (complete_result_kept_until_superseded s result eq_refl)
    as (Hidle & Hlast & _ & _ & Hrestart).
  pose proof (Hrestart [] [7] 1 (Forall_nil_2 _)) as Hagain.
  cbv zeta in Hagain. destruct Hagain as (_ & Hprogress & Hkept & _).
  split; [reflexivity|]. split; [exact Hidle|].
  split; [exact (f_equal (option_map successful) Hlast)|].
  split; [exact Hprogress|exact Hkept].
Defined.

(** * Further properties *)

(** ** The repair protocol of the orchestrator *)

Section ProtocolFacts.

Context {W : Type} (odooApi : Env W).

Lemma rpc_calls_app t1 t2 : rpc_calls (t1 ++ t2) = rpc_calls t1 ++ rpc_calls t2.
Proof. apply omap_app. Qed.

Lemma rpc_calls_rpcs calls : rpc_calls (map Rpc calls) = calls.
Proof. induction calls as [|c calls IH]; simpl; [done|]. by rewrite IH. Qed.

Lemma both_ways (A B : Prop) : B → A → A ∧ B.
Proof. tauto. Qed.

(** The linkage step makes one of seven call sequences. *)
Lemma ensure_protocol invoiceId (s s' : St W) b :
  ensureInvoiceAttachmentLinkage odooApi invoiceId s = (s', Fulfilled b) →
  ∃ calls, linkage_sequence invoiceId b calls
           ∧ trace s' = trace s ++ map Rpc calls.
Proof.
  unfold ensureInvoiceAttachmentLinkage, resetExtractErrorState,
    searchRead_linkage, searchRead_attachment, odoo_write,
    try_catch, mbind, Task_bind, mret, Task_ret, remote; simpl.
  repeat (case_match; simplify_eq/=); intros [= <- <-]; simpl;
    rewrite <- ?app_assoc; simpl;
    first [ eexists [_]; apply both_ways; [reflexivity|constructor]
          | eexists [_; _]; apply both_ways; [reflexivity|constructor]
          | eexists [_; _; _]; apply both_ways; [reflexivity|constructor]
          | eexists [_; _; _; _]; apply both_ways; [reflexivity|constructor] ].
Qed.

(** One iteration: the calls of the invoice, then the progress update. *)
Lemma iteration_protocol total i invoiceId results (s : St W) :
  ∃ s' entry calls,
    refresh_iteration odooApi total i invoiceId results s
    = (s', Fulfilled (results ++ [entry]))
    ∧ step_record invoiceId entry calls
    ∧ trace s' = trace s ++ map Rpc calls
                 ++ [Notify (UpdateProgress (i + 1) total)].
Proof.
  destruct (ensure_fulfils odooApi invoiceId s) as (s1 & b & Hrun).
  destruct (ensure_protocol invoiceId s s1 b Hrun) as (base & Hbase & Htrace).
  destruct b.
  - destruct (executeKw odooApi "account.move" "action_reload_ai_data"
                [[invoiceId]] (world s1)) as [w2 r] eqn:Hx.
    eexists _, _, (base ++ [extraction_call invoiceId]).
    split; [eapply iteration_extracts; eauto|]. split.
    + exists true, base. split; [done|]. split; [done|].
      destruct r; [by left|right; by eexists].
    + simpl. by rewrite Htrace, map_app, <- !app_assoc.
  - eexists _, _, base. split; [eapply iteration_skips; eauto|]. split.
    + exists false, base. by rewrite app_nil_r.
    + simpl. by rewrite Htrace, <- !app_assoc.
Qed.

Lemma loop_protocol rest : ∀ total i results (s : St W),
  ∃ s' entries new sequences,
    refresh_loop odooApi total i rest results s
    = (s', Fulfilled (results ++ entries))
    ∧ trace s' = trace s ++ new
    ∧ rpc_calls new = concat sequences
    ∧ Forall3 step_record rest entries sequences.
Proof.
  induction rest as [|k rest IH]; intros total i results s.
  - exists s, [], [], []. simpl. rewrite !app_nil_r. repeat split; constructor.
  - destruct (iteration_protocol total i k results s)
      as (s1 & entry & calls & Hrun & Hcalls & Htrace).
    destruct (IH total (S i) (results ++ [entry]) s1)
      as (s' & entries & new & sequences & Hloop & Htrace' & Hnew & Hseqs).
    exists s', (entry :: entries),
      (map Rpc calls ++ [Notify (UpdateProgress (i + 1) total)] ++ new),
      (calls :: sequences).
    simpl. split; [|split; [|split]].
    + erewrite bind_fulfilled by exact Hrun.
      rewrite Hloop. by rewrite <- app_assoc.
    + rewrite Htrace', Htrace. by rewrite <- !app_assoc.
    + rewrite rpc_calls_app, rpc_calls_rpcs. simpl. by rewrite Hnew.
    + by constructor.
Qed.

(** The calls of a whole batch, next to its entries. *)
Lemma refresh_records invoiceIds (s : St W) :
  ∃ s' batch new sequences,
    refreshOcrDataForInvoices odooApi invoiceIds s = (s', Fulfilled batch)
    ∧ trace s' = trace s ++ new
    ∧ rpc_calls new = concat sequences
    ∧ Forall3 step_record invoiceIds (results batch) sequences.
Proof.
  destruct (loop_protocol invoiceIds (length invoiceIds) 0 [] s)
    as (s' & entries & new & sequences & Hloop & Htrace & Hnew & Hseqs).
  simpl in Hloop. eexists s', _, new, sequences. split.
  - unfold refreshOcrDataForInvoices, now, toISOString, mbind, Task_bind.
    rewrite Hloop. reflexivity.
  - done.
Qed.

Lemma step_record_sequence k entry calls :
  step_record k entry calls → invoice_sequence k calls.
Proof. intros (b & base & Hbase & -> & _). by exists b, base. Qed.

Lemma records_sequences ids entries sequences :
  Forall3 step_record ids entries sequences →
  Forall2 invoice_sequence ids sequences.
Proof.
  induction 1 as [|k entry calls ids entries sequences Hstep _ IH];
    constructor; [by eapply step_record_sequence|done].
Qed.

Lemma refresh_protocol invoiceIds (s : St W) :
  ∃ s' batch new sequences,
    refreshOcrDataForInvoices odooApi invoiceIds s = (s', Fulfilled batch)
    ∧ trace s' = trace s ++ new
    ∧ rpc_calls new = concat sequences
    ∧ Forall2 invoice_sequence invoiceIds sequences.
Proof.
  destruct (refresh_records invoiceIds s)
    as (s' & batch & new & sequences & Hrun & Htrace & Hnew & Hseqs).
  exists s', batch, new, sequences. repeat split; auto.
  by eapply records_sequences.
Qed.

(** The extraction requests among the calls of one invoice: one when the
    entry is not a skip, none otherwise. *)
Lemma step_record_extractions k entry calls :
  step_record k entry calls →
  length (List.filter is_extraction calls)
  = if bool_decide (attachmentLinkage entry = no_attachment) then 0%nat
    else 1%nat.
Proof.
  intros (b & base & Hbase & -> & Hentry).
  destruct Hbase; simpl in *;
    try (by rewrite Hentry);
    by destruct Hentry as [->|[e ->]].
Qed.

Lemma linkage_sequence_length k b calls :
  linkage_sequence k b calls → (1 ≤ length calls ≤ 4)%nat.
Proof. destruct 1; simpl; lia. Qed.

Lemma invoice_sequence_length k calls :
  invoice_sequence k calls → (1 ≤ length calls ≤ 5)%nat.
Proof.
  intros (b & base & Hbase & ->). rewrite length_app.
  pose proof (linkage_sequence_length _ _ _ Hbase). destruct Hbase; simpl; lia.
Qed.

Lemma invoice_sequence_repair k calls :
  invoice_sequence k calls → Forall (repair_call k) calls.
Proof.
  intros (b & base & Hbase & ->).
  destruct Hbase; simpl; repeat constructor.
Qed.

(** Inside the calls of one invoice, an extraction request is the last call
    and follows the reset write of the same invoice. *)
Lemma invoice_sequence_extraction k calls before k' after :
  invoice_sequence k calls →
  calls = before ++ extraction_call k' :: after →
  k' = k ∧ after = [] ∧ ∃ before', before = before' ++ [reset_call k].
Proof.
  intros (b & base & Hbase & ->) Heq.
  destruct Hbase; simpl in Heq;
    repeat (destruct before as [|? before]; simplify_eq/=);
    (split; [done|]; split; [done|]);
    first [ by eexists [_] | by eexists [_; _; _] ].
Qed.

End ProtocolFacts.

Section ListingTheorem.

Context {W : Type} (odooApi : Env W).

(** The candidates of a listing, in terms of what was read: the ids of the
    zero-value invoices read to which some attachment read refers. *)
Lemma candidate_of_fetched includeData allAttachments
    (fetched : list OdooInvoice) k :
  k ∈ candidate_ids (map (listed_with includeData allAttachments) fetched)
  ↔ ∃ inv, inv ∈ fetched ∧ id inv = k ∧ isZeroValueInvoice inv = true
           ∧ attachments_of includeData allAttachments k ≠ [].
Proof.
  unfold candidate_ids. rewrite list_elem_of_In, in_map_iff. split.
  - intros (listed & <- & Hin). apply filter_In in Hin as [Hin Hc].
    apply in_map_iff in Hin as (inv & <- & Hin).
    unfold refresh_candidate, has_attachments, listed_with in Hc.
    simpl in Hc. apply andb_true_iff in Hc as [Hz Ha].
    apply bool_decide_eq_true in Ha.
    exists inv. split; [by apply list_elem_of_In|]. split; [done|].
    split; [done|]. simpl. intros Hnil. rewrite Hnil in Ha. simpl in Ha. lia.
  - intros (inv & Hin & <- & Hz & Ha).
    exists (listed_with includeData allAttachments inv). split; [done|].
    apply filter_In. split.
    + apply in_map_iff. exists inv. split; [done|by apply list_elem_of_In].
    + unfold refresh_candidate, has_attachments, listed_with. simpl.
      apply andb_true_iff. split; [done|]. apply bool_decide_eq_true.
      destruct (attachments_of includeData allAttachments (id inv));
        [done|simpl; lia].
Qed.

(** What the detached chain does whenever it runs: the orchestrator's
    promise fulfils and the chain reports it with [completeRefresh]. *)
Lemma background_refresh_run invoiceIds (later : St W) :
  ∃ finished batch new sequences,
    refreshOcrDataForInvoices odooApi invoiceIds later
    = (finished, Fulfilled batch)
    ∧ background_refresh odooApi invoiceIds later
      = (notified (CompleteRefresh batch) finished, Fulfilled tt)
    ∧ trace finished = trace later ++ new
    ∧ store_calls new = progress_updates (length invoiceIds)
    ∧ rpc_calls new = concat sequences
    ∧ Forall3 step_record invoiceIds (results batch) sequences.
Proof.
  destruct (refresh_records odooApi invoiceIds later)
    as (finished & batch & new & sequences & Hrun & Htrace & Hnew & Hseqs).
  destruct (refresh_summary odooApi invoiceIds later)
    as (s2 & batch2 & blocks & Hrun2 & _ & _ & _ & _ & Htrace2 & Hblocks).
  rewrite Hrun in Hrun2. injection Hrun2 as <- <-.
  rewrite Htrace in Htrace2. apply app_inv_head in Htrace2.
  exists finished, batch, new, sequences.
  split; [done|]. split; [|split; [done|split; [|by split]]].
  - unfold background_refresh, then_catch, try_catch, mbind, Task_bind.
    by rewrite Hrun.
  - rewrite Htrace2. by apply store_calls_blocks.
Qed.

(** C6. When [getAllInvoices] answers, it has read the invoices and, unless
    none was returned, their attachments; the listed invoices are the
    invoices read, each with the attachments that refer to it.  It has
    started a background refresh if and only if OCR refresh is not skipped
    and some zero-value invoice read has at least one attachment.  In that
    case it has called [startRefresh] once, after the reads, and handed
    over the detached chain, and the ids given to [startRefresh], to the
    orchestrator and back to the caller as [zeroValueInvoiceIds] are the
    ids of the zero-value invoices read that have attachments; zero-value
    invoices without attachment are left out.  Whenever the detached chain
    runs, the orchestrator processes exactly these ids, one progress update
    each, and the chain ends with [completeRefresh] on its aggregate.
    Otherwise nothing is started: no call reaches the notification service,
    no chain is handed over and no id is reported. *)
Theorem refresh_started_iff_candidates alias skipOcrRefresh limit offset
    includeData (s s' : St W) listing detached :
  getAllInvoices odooApi alias skipOcrRefresh limit offset includeData s
  = (s', Fulfilled (listing, detached)) →
  ∃ w1 fetched allAttachments,
    list_invoices odooApi alias limit offset (world s) = (w1, Fulfilled fetched)
    ∧ match fetched with
      | [] => allAttachments = [] ∧ world s' = w1
      | _ :: _ =>
          list_attachments odooApi (map id fetched) includeData w1
          = (world s', Fulfilled allAttachments)
      end
    ∧ invoices listing = map (listed_with includeData allAttachments) fetched
    ∧ let reads :=
        ListInvoices alias limit offset
        :: match fetched with
           | [] => []
           | _ :: _ => [ListAttachments (map id fetched) includeData]
           end in
      let candidates := candidate_ids (invoices listing) in
      let has_candidate :=
        ∃ inv, inv ∈ fetched ∧ isZeroValueInvoice inv = true
               ∧ attachments_of includeData allAttachments (id inv) ≠ [] in
      (∀ k, k ∈ candidates
            ↔ ∃ inv, inv ∈ fetched ∧ id inv = k
                     ∧ isZeroValueInvoice inv = true
                     ∧ attachments_of includeData allAttachments k ≠ [])
      ∧ ((skipOcrRefresh = false ∧ has_candidate
          ∧ trace s' = trace s ++ map Rpc reads
                       ++ [Notify (StartRefresh candidates)]
          ∧ detached = Some (background_refresh odooApi candidates)
          ∧ (∀ later : St W,
               ∃ finished batch new sequences,
                 refreshOcrDataForInvoices odooApi candidates later
                 = (finished, Fulfilled batch)
                 ∧ background_refresh odooApi candidates later
                   = (notified (CompleteRefresh batch) finished, Fulfilled tt)
                 ∧ trace finished = trace later ++ new
                 ∧ store_calls new = progress_updates (length candidates)
                 ∧ rpc_calls new = concat sequences
                 ∧ Forall3 step_record candidates (results batch) sequences)
          ∧ zeroValueInvoiceIds listing = candidates
          ∧ ocrRefreshPerformed listing = true
          ∧ zeroValueInvoicesRefreshed listing = length candidates)
         ∨ ((skipOcrRefresh = true ∨ ¬ has_candidate)
            ∧ trace s' = trace s ++ map Rpc reads
            ∧ detached = None
            ∧ zeroValueInvoiceIds listing = []
            ∧ ocrRefreshPerformed listing = false
            ∧ zeroValueInvoicesRefreshed listing = 0%nat)).
Proof.
  intros Hrun.
  destruct (listing_reads odooApi _ _ _ _ _ _ _ _ _ Hrun)
    as (w1 & fetched & allAttachments & Hlist & Hatt & Hinv & Hrpc).
  pose proof (listing_summary odooApi _ _ _ _ _ _ _ _ _ Hrun) as Hsum.
  cbv zeta in Hsum.
  destruct Hsum as (_ & (reads0 & Htrace) & Hdet & Hids & Hperf & Hcount & _).
  exists w1, fetched, allAttachments.
  split; [done|]. split; [done|]. split; [done|].
  intros reads candidates has_candidate.
  assert (Hmem : ∀ k, k ∈ candidates
            ↔ ∃ inv, inv ∈ fetched ∧ id inv = k
                     ∧ isZeroValueInvoice inv = true
                     ∧ attachments_of includeData allAttachments k ≠ []).
  { intros k. unfold candidates. rewrite Hinv. apply candidate_of_fetched. }
  split; [exact Hmem|].
  assert (Hreads : reads0 = reads).
  { pose proof (f_equal rpc_calls Htrace) as Hcalls.
    rewrite !rpc_calls_app, rpc_calls_rpcs, Hrpc in Hcalls.
    apply app_inv_head in Hcalls.
    destruct (negb skipOcrRefresh && _) in Hcalls; simpl in Hcalls;
      by rewrite app_nil_r in Hcalls. }
  subst reads0. fold candidates in Htrace, Hdet, Hids, Hperf, Hcount.
  destruct (negb skipOcrRefresh
            && bool_decide (0 < length candidates)%nat) eqn:Hstarted.
  - left. apply andb_true_iff in Hstarted as [Hskip Hsome].
    apply negb_true_iff in Hskip. apply bool_decide_eq_true in Hsome.
    split; [done|]. split.
    { destruct candidates as [|k rest] eqn:Hcand; [simpl in Hsome; lia|].
      destruct (proj1 (Hmem k)) as (inv & Hin & <- & Hz & Ha); [by left|].
      by exists inv. }
    split; [done|]. split; [done|].
    split; [intros later; apply background_refresh_run|].
    by repeat split.
  - right. split.
    { apply andb_false_iff in Hstarted as [Hskip|Hnone].
      - left. by apply negb_false_iff.
      - right. intros (inv & Hin & Hz & Ha).
        apply bool_decide_eq_false in Hnone. apply Hnone.
        assert (Hk : id inv ∈ candidates) by (apply Hmem; by exists inv).
        destruct candidates; [by apply elem_of_nil in Hk|simpl; lia]. }
    split; [by rewrite Htrace, app_nil_r|]. by repeat split.
Qed.

End ListingTheorem.

Section ProtocolTheorems.

Context {W : Type} (odooApi : Env W).

Lemma concat_sequences_extraction ids sequences :
  Forall2 invoice_sequence ids sequences →
  ∀ before k after,
    concat sequences = before ++ extraction_call k :: after →
    ∃ before', before = before' ++ [reset_call k].
Proof.
  induction 1 as [|k0 calls ids sequences Hcalls _ IH];
    intros before k after Heq; simpl in Heq.
  - by destruct before.
  - apply app_eq_inv in Heq as [(l & Hl & Hrest)|(l & Hl & Hrest)].
    + destruct l as [|c l].
      * simpl in Hrest. destruct (IH [] k after) as (before' & Hb); [done|].
        by destruct before'.
      * simpl in Hrest. injection Hrest as <- _.
        destruct (invoice_sequence_extraction _ _ _ _ _ Hcalls Hl)
          as (-> & _ & before' & ->).
        by exists before'.
    + destruct (IH l k after Hrest) as (before' & ->).
      exists (calls ++ before'). by rewrite Hl, app_assoc.
Qed.

Lemma concat_sequences_length ids sequences :
  Forall2 invoice_sequence ids sequences →
  (length ids ≤ length (concat sequences) ≤ 5 * length ids)%nat.
Proof.
  induction 1 as [|k calls ids sequences Hcalls _ IH]; simpl; [lia|].
  rewrite length_app. pose proof (invoice_sequence_length _ _ Hcalls). lia.
Qed.

Lemma concat_sequences_repair ids sequences :
  Forall2 invoice_sequence ids sequences →
  Forall (λ c, ∃ k, k ∈ ids ∧ repair_call k c) (concat sequences).
Proof.
  induction 1 as [|k calls ids sequences Hcalls _ IH]; simpl; [constructor|].
  apply Forall_app. split.
  - eapply Forall_impl; [exact (invoice_sequence_repair _ _ Hcalls)|].
    intros c Hc. exists k. split; [by left|done].
  - eapply Forall_impl; [exact IH|].
    intros c (k' & Hin & Hc). exists k'. split; [by right|done].
Qed.

(** X1. The remote calls of a batch are, invoice after invoice in the order
    of the ids, one of seven sequences: the linkage read alone (read failed
    or invoice missing); read and attachment search (nothing to link);
    read, search and a refused linkage write; read, search, linkage write
    and a refused reset; read and a refused reset; and the two complete
    repairs (with or without linkage write), each followed by the
    extraction request.  The entry recorded for an invoice is a skip in the
    first five cases and a success or a failure in the last two, so the
    number of extraction requests of the batch is the number of entries
    that are not skips. *)
Theorem batch_follows_repair_protocol invoiceIds (s : St W) :
  ∃ s' batch new sequences,
    refreshOcrDataForInvoices odooApi invoiceIds s = (s', Fulfilled batch)
    ∧ trace s' = trace s ++ new
    ∧ rpc_calls new = concat sequences
    ∧ Forall3 step_record invoiceIds (results batch) sequences
    ∧ length (List.filter is_extraction (rpc_calls new))
      = (totalInvoices batch - count_tag no_attachment batch)%nat.
Proof.
  destruct (refresh_records odooApi invoiceIds s)
    as (s' & batch & new & sequences & Hrun & Htrace & Hnew & Hseqs).
  destruct (refresh_summary odooApi invoiceIds s)
    as (s2 & batch2 & _ & Hrun2 & Htotal & Hentries & _).
  rewrite Hrun in Hrun2. injection Hrun2 as _ <-.
  exists s', batch, new, sequences. repeat split; auto.
  rewrite Hnew, Htotal, (Forall2_length _ _ _ Hentries).
  unfold count_tag, count_results. clear -Hseqs.
  induction Hseqs as [|k entry calls ids entries sequences Hstep _ IH];
    [done|].
  simpl. rewrite List.filter_app, length_app, IH.
  rewrite (step_record_extractions _ _ _ Hstep).
  pose proof (filter_length_le
                (λ r, bool_decide (attachmentLinkage r = no_attachment))
                entries).
  case_bool_decide; simpl; lia.
Qed.

(** X2. A batch of [n] ids makes at least [n] and at most [5 n] remote
    calls. *)
Theorem batch_call_budget invoiceIds (s : St W) :
  ∃ s' batch new,
    refreshOcrDataForInvoices odooApi invoiceIds s = (s', Fulfilled batch)
    ∧ trace s' = trace s ++ new
    ∧ (length invoiceIds ≤ length (rpc_calls new) ≤ 5 * length invoiceIds)%nat.
Proof.
  destruct (refresh_protocol odooApi invoiceIds s)
    as (s' & batch & new & sequences & Hrun & Htrace & Hnew & Hseqs).
  exists s', batch, new. split; [done|]. split; [done|].
  rewrite Hnew. by apply concat_sequences_length.
Qed.

(** X3. In the calls of a batch, every extraction request comes directly
    after the error-state reset write of the same invoice: extraction is
    never requested for an invoice whose reset was not just written. *)
Theorem extraction_follows_reset invoiceIds (s : St W) :
  ∃ s' batch new,
    refreshOcrDataForInvoices odooApi invoiceIds s = (s', Fulfilled batch)
    ∧ trace s' = trace s ++ new
    ∧ ∀ before k after,
        rpc_calls new = before ++ extraction_call k :: after →
        ∃ before', before = before' ++ [reset_call k].
Proof.
  destruct (refresh_protocol odooApi invoiceIds s)
    as (s' & batch & new & sequences & Hrun & Htrace & Hnew & Hseqs).
  exists s', batch, new. split; [done|]. split; [done|].
  intros before k after Heq. rewrite Hnew in Heq.
  by eapply concat_sequences_extraction.
Qed.

(** X4. A batch touches nothing but its own invoices: every remote call is
    the linkage read, the attachment search, the linkage write, the reset
    write or the extraction request of one of the ids given, and the only
    calls on the notification service are progress updates (the
    orchestrator itself never starts, completes or fails a refresh). *)
Theorem batch_touches_only_its_invoices invoiceIds (s : St W) :
  ∃ s' batch new,
    refreshOcrDataForInvoices odooApi invoiceIds s = (s', Fulfilled batch)
    ∧ trace s' = trace s ++ new
    ∧ Forall (λ c, ∃ k, k ∈ invoiceIds ∧ repair_call k c) (rpc_calls new)
    ∧ Forall (λ c, ∃ i, c = UpdateProgress i (length invoiceIds))
             (store_calls new).
Proof.
  destruct (refresh_protocol odooApi invoiceIds s)
    as (s' & batch & new & sequences & Hrun & Htrace & Hnew & Hseqs).
  destruct (refresh_summary odooApi invoiceIds s)
    as (s2 & batch2 & blocks & Hrun2 & _ & _ & _ & _ & Htrace2 & Hblocks).
  rewrite Hrun in Hrun2. injection Hrun2 as <- <-.
  rewrite Htrace in Htrace2. apply app_inv_head in Htrace2.
  exists s', batch, new. split; [done|]. split; [done|]. split.
  - rewrite Hnew. by apply concat_sequences_repair.
  - rewrite Htrace2, (store_calls_blocks _ _ _ _ Hblocks).
    apply Forall_fmap, Forall_forall. intros i _. by eexists.
Qed.

(** X5. The aggregate carries one entry per id, in the order of the ids (an
    id given twice is processed twice), and an entry is successful exactly
    when it carries no error message. *)
Theorem results_follow_ids invoiceIds (s : St W) :
  ∃ s' batch,
    refreshOcrDataForInvoices odooApi invoiceIds s = (s', Fulfilled batch)
    ∧ map invoiceId (results batch) = invoiceIds
    ∧ length (results batch) = totalInvoices batch
    ∧ Forall (λ r, success r = true ↔ error r = None) (results batch).
Proof.
  destruct (refresh_summary odooApi invoiceIds s)
    as (s' & batch & blocks & Hrun & Htotal & Hentries & _).
  exists s', batch. split; [done|].
  split; [|split].
  - clear -Hentries.
    induction Hentries as [|k entry ids entries Hentry _ IH]; [done|].
    simpl. by rewrite IH, (entry_for_id _ _ Hentry).
  - by rewrite Htotal, (Forall2_length _ _ _ Hentries).
  - clear -Hentries.
    induction Hentries as [|k entry ids entries Hentry _ IH];
      constructor; [|done].
    by destruct Hentry as [->|[->|[e ->]]].
Qed.

End ProtocolTheorems.

(** ** The detail view *)

Section DetailFacts.

Context {W : Type} (odooApi : Env W) (views : DetailApi W).

(** X6. When the invoice is not linked, an attachment is found and the
    linkage write is refused, the linkage step stops there: it answers
    [false] after the read, the search and the write, without the reset
    write, and the loop records the invoice as skipped without requesting
    extraction. *)
Theorem refused_linkage_write_stops_repair total i invoiceId results
    (s : St W) w1 invoice others w2 first more w3 e :
  read_linkage odooApi invoiceId (world s) = (w1, Fulfilled (invoice :: others)) →
  linkage_set invoice = false →
  find_attachment odooApi invoiceId w1 = (w2, Fulfilled (first :: more)) →
  write odooApi INVOICE_MODEL [invoiceId]
        (linkage_values (attachment_id first)) w2 = (w3, Rejected e) →
  let stopped :=
    mkSt w3 (trace s ++ [Rpc (ReadLinkage invoiceId);
                         Rpc (FindAttachment invoiceId);
                         Rpc (WriteFields INVOICE_MODEL [invoiceId]
                                (linkage_values (attachment_id first)))]) in
  ensureInvoiceAttachmentLinkage odooApi invoiceId s = (stopped, Fulfilled false)
  ∧ refresh_iteration odooApi total i invoiceId results s
    = (notified (UpdateProgress (i + 1) total) stopped,
       Fulfilled (results ++ [skipped_entry invoiceId])).
Proof.
  intros Hread Hset Hfind Hlink stopped. unfold linkage_set in Hset.
  assert (Hrun : ensureInvoiceAttachmentLinkage odooApi invoiceId s
                 = (stopped, Fulfilled false)).
  { unfold ensureInvoiceAttachmentLinkage, searchRead_linkage,
      searchRead_attachment, odoo_write, try_catch, mbind, Task_bind, remote.
    rewrite Hread. simpl. rewrite Hset. simpl. rewrite Hfind. simpl.
    rewrite Hlink. unfold stopped. simpl. by rewrite <- !app_assoc. }
  split; [exact Hrun|]. by apply iteration_skips.
Qed.

(** The auto-fix block always completes; its calls are appended to the
    trace. *)
Lemma auto_fix_total invoiceId invoice attachments (s : St W) :
  ∃ s' calls,
    auto_fix odooApi invoiceId invoice attachments s = (s', Fulfilled tt)
    ∧ trace s' = trace s ++ map Rpc calls.
Proof.
  unfold auto_fix, resetExtractErrorState, odoo_write, odoo_executeKw, throw,
    try_catch, mbind, Task_bind, mret, Task_ret, remote; simpl.
  repeat (case_match; simplify_eq/=);
    repeat match goal with u : () |- _ => destruct u end;
    eexists _; simpl; rewrite <- ?app_assoc; simpl;
    first [ by exists []; rewrite ?app_nil_r
          | by eexists [_] | by eexists [_; _] | by eexists [_; _; _] ].
Qed.

Lemma auto_fix_run invoiceId invoice first more (s : St W) :
  ∃ s' calls,
    auto_fix odooApi invoiceId invoice (first :: more) s = (s', Fulfilled tt)
    ∧ trace s' = trace s ++ map Rpc calls
    ∧ auto_fix_sequence invoiceId (ia_id first)
        (Js.truthy (hasMainAttachmentId invoice)) calls.
Proof.
  unfold auto_fix, auto_fix_sequence, resetExtractErrorState, odoo_write,
    odoo_executeKw, try_catch, mbind, Task_bind, mret, Task_ret, remote;
    simpl.
  destruct (Js.truthy (hasMainAttachmentId invoice)); simpl;
    repeat (case_match; simplify_eq/=);
    repeat match goal with u : () |- _ => destruct u end;
    eexists _; simpl; rewrite <- ?app_assoc; simpl;
    first [ eexists [_]; split; [reflexivity|]; split; [reflexivity|tauto]
          | eexists [_; _]; split; [reflexivity|]; split; [reflexivity|tauto]
          | eexists [_; _; _]; split; [reflexivity|]; split; [reflexivity|tauto] ].
Qed.

(** The three ways [getInvoice] can end. *)
Lemma getInvoice_cases invoiceId (s : St W) :
  (∃ w e, getInvoice odooApi views invoiceId s = (mkSt w (trace s), Rejected e)
          ∧ ((∃ w0, read_invoice views invoiceId w0 = (w, Rejected e))
             ∨ (∃ ids w0, read_line_items views ids w0 = (w, Rejected e))
             ∨ (∃ k w0, read_attachments views k w0 = (w, Rejected e))))
  ∨ (∃ w, getInvoice odooApi views invoiceId s = (mkSt w (trace s), Fulfilled None)
          ∧ read_invoice views invoiceId (world s) = (w, Fulfilled []))
  ∨ (∃ w row others invoice attachments,
       read_invoice views invoiceId (world s) = (w, Fulfilled (row :: others))
       ∧ detail_id invoice = detail_id row
       ∧ detail_amount_untaxed invoice = detail_amount_untaxed row
       ∧ detail_main_attachment invoice = detail_main_attachment row
       ∧ detail_attachments invoice = Some attachments
       ∧ ∃ w2 w3,
           read_attachments views (detail_id row) w2 = (w3, Fulfilled attachments)
           ∧ getInvoice odooApi views invoiceId s
             = (if detail_has_zero_value invoice
                   && bool_decide (0 < length attachments)%nat
                then (auto_fix odooApi invoiceId invoice attachments
                        (mkSt w3 (trace s))).1
                else mkSt w3 (trace s),
                Fulfilled (Some invoice))).
Proof.
  assert (Htail : ∀ row' w2,
    let rest :=
      let (s'1, o0) :=
        let '(w', r) := read_attachments views (detail_id row') w2 in
        (mkSt w' (trace s), r) in
      match o0 with
      | Fulfilled a0 =>
          let (s'2, o1) :=
            (if detail_has_zero_value (set_attachments a0 row')
                && bool_decide (0 < length a0)%nat
             then auto_fix odooApi invoiceId (set_attachments a0 row') a0
             else λ s0 : St W, (s0, Fulfilled ())) s'1 in
          match o1 with
          | Fulfilled _ => (s'2, Fulfilled (Some (set_attachments a0 row')))
          | Rejected e => (s'2, Rejected e)
          end
      | Rejected e => (s'1, Rejected e)
      end in
    (∃ w e, rest = (mkSt w (trace s), Rejected e)
            ∧ ∃ k w0, read_attachments views k w0 = (w, Rejected e))
    ∨ (∃ attachments w3,
         read_attachments views (detail_id row') w2 = (w3, Fulfilled attachments)
         ∧ rest = (if detail_has_zero_value (set_attachments attachments row')
                      && bool_decide (0 < length attachments)%nat
                   then (auto_fix odooApi invoiceId
                           (set_attachments attachments row') attachments
                           (mkSt w3 (trace s))).1
                   else mkSt w3 (trace s),
                   Fulfilled (Some (set_attachments attachments row'))))).
  { intros row' w2. simpl.
    destruct (read_attachments views (detail_id row') w2)
      as [w3 [attachments|e]] eqn:Hatt.
    - right. exists attachments, w3. split; [done|].
      destruct (detail_has_zero_value (set_attachments attachments row')
                && bool_decide (0 < length attachments)%nat); [|done].
      destruct (auto_fix_total invoiceId (set_attachments attachments row')
                  attachments (mkSt w3 (trace s))) as (s' & calls & Hfix & _).
      by rewrite Hfix.
    - left. exists w3, e. split; [done|]. by exists (detail_id row'), w2. }
  unfold getInvoice, query, mbind, Task_bind, mret, Task_ret.
  destruct (read_invoice views invoiceId (world s))
    as [w1 [[|row others]|e]] eqn:Hread.
  - right; left. by exists w1.
  - assert (Hplain :
      detail_invoice_line_ids row = None
      ∨ detail_invoice_line_ids row = Some []
      ∨ ∃ first ids, detail_invoice_line_ids row = Some (first :: ids)).
    { destruct (detail_invoice_line_ids row) as [[|first ids]|]; eauto. }
    destruct Hplain as [Hids|[Hids|(first & ids & Hids)]]; rewrite Hids.
    + destruct (Htail row w1)
        as [(w & e & Hrest & Hwhy)|(atts & w3 & Hatt & Hrest)].
      * left. exists w, e. split; [exact Hrest|]. right; by right.
      * right; right. exists w1, row, others, (set_attachments atts row), atts.
        repeat split; auto. exists w1, w3. split; [done|exact Hrest].
    + destruct (Htail row w1)
        as [(w & e & Hrest & Hwhy)|(atts & w3 & Hatt & Hrest)].
      * left. exists w, e. split; [exact Hrest|]. right; by right.
      * right; right. exists w1, row, others, (set_attachments atts row), atts.
        repeat split; auto. exists w1, w3. split; [done|exact Hrest].
    + cbn [world trace].
      destruct (read_line_items views (first :: ids) w1)
        as [w2 [lineItems|e]] eqn:Hlines.
      * destruct (Htail (set_line_items lineItems row) w2)
          as [(w & e & Hrest & Hwhy)|(atts & w3 & Hatt & Hrest)].
        -- left. exists w, e. split; [exact Hrest|]. right; by right.
        -- right; right.
           exists w1, row, others,
             (set_attachments atts (set_line_items lineItems row)), atts.
           repeat split; auto. exists w2, w3. split; [exact Hatt|exact Hrest].
      * left. exists w2, e. split; [done|]. right; left.
        by exists (first :: ids), w1.
  - left. exists w1, e. split; [done|]. left. by exists (world s).
Qed.

(** X7. [getInvoice] rejects only when one of its reads (invoice, line
    items, attachments) rejects, and then with the error of that read and
    without having written anything: a failure of the auto-fix (linkage
    write, reset write, extraction request) never reaches the caller. *)
Theorem getInvoice_rejects_only_on_reads invoiceId (s s' : St W) e :
  getInvoice odooApi views invoiceId s = (s', Rejected e) →
  trace s' = trace s
  ∧ ((∃ w0, read_invoice views invoiceId w0 = (world s', Rejected e))
     ∨ (∃ ids w0, read_line_items views ids w0 = (world s', Rejected e))
     ∨ (∃ k w0, read_attachments views k w0 = (world s', Rejected e))).
Proof.
  intros Hrun.
  destruct (getInvoice_cases invoiceId s)
    as [(w & e' & Hcase & Hwhy)
       |[(w & Hcase & _)
        |(w & row & others & inv & atts & _ & _ & _ & _ & _ & w2 & w3 & _ & Hcase)]];
    rewrite Hcase in Hrun; [|discriminate..].
  injection Hrun as <- <-. by split.
Qed.

(** The auto-fix block, call by call, as Odoo answers. *)
Lemma auto_fix_by_answers invoiceId invoice first more (s : St W) :
  ∃ s' calls,
    auto_fix odooApi invoiceId invoice (first :: more) s = (s', Fulfilled tt)
    ∧ trace s' = trace s ++ map Rpc calls
    ∧ auto_fix_calls odooApi invoiceId (ia_id first)
        (Js.truthy (hasMainAttachmentId invoice)) (world s) (world s') calls.
Proof.
  assert (Hlinked : ∀ t : St W, ∃ t' calls,
    (resetExtractErrorState odooApi invoiceId;;
     try_catch (odoo_executeKw odooApi "account.move" "action_reload_ai_data"
                               [[invoiceId]])
               (λ _, mret tt)) t
    = (t', match (write odooApi INVOICE_MODEL [invoiceId] extract_reset_values
                        (world t)).2 with
           | Fulfilled _ => Fulfilled tt
           | Rejected e => Rejected e
           end)
    ∧ trace t' = trace t ++ map Rpc calls
    ∧ auto_fix_calls odooApi invoiceId (ia_id first) true (world t) (world t')
                     calls).
  { intros t.
    unfold resetExtractErrorState, odoo_write, odoo_executeKw, try_catch,
      mbind, Task_bind, mret, Task_ret, remote.
    destruct (write odooApi INVOICE_MODEL [invoiceId] extract_reset_values
                    (world t)) as [w1 [[]|e]] eqn:Hreset; simpl.
    - destruct (executeKw odooApi "account.move" "action_reload_ai_data"
                          [[invoiceId]] w1) as [w2 answer] eqn:Hextract.
      eexists _, [_; _].
      split; [by destruct answer as [[]|e]|].
      split; [destruct answer as [[]|e]; simpl; by rewrite <- app_assoc|].
      destruct answer as [[]|e]; simpl;
        by eapply fix_extraction_requested.
    - eexists _, [_]. split; [done|]. split; [done|].
      simpl. by eapply fix_reset_refused. }
  unfold auto_fix.
  destruct (Js.truthy (hasMainAttachmentId invoice)); simpl.
  - destruct (Hlinked s) as (t' & calls & Hrun & Htrace & Hcalls).
    exists t', calls. split; [|by split].
    unfold try_catch, mbind, Task_bind, mret, Task_ret in *. simpl in *.
    rewrite Hrun. by destruct (write _ _ _ _ _).2.
  - unfold try_catch at 1. unfold mbind at 1. unfold Task_bind at 1.
    unfold mbind at 1. unfold Task_bind at 1.
    unfold odoo_write at 1. unfold remote at 1.
    destruct (write odooApi INVOICE_MODEL [invoiceId]
                    (linkage_values (ia_id first)) (world s))
      as [w1 [[]|e]] eqn:Hlink; simpl.
    + destruct (Hlinked (mkSt w1 (trace s ++ [Rpc (WriteFields INVOICE_MODEL
                   [invoiceId] (linkage_values (ia_id first)))])))
        as (t' & calls & Hrun & Htrace & Hcalls).
      exists t', (WriteFields INVOICE_MODEL [invoiceId]
                    (linkage_values (ia_id first)) :: calls).
      split; [|split].
      * unfold try_catch, mbind, Task_bind, mret, Task_ret in *. simpl in *.
        rewrite Hrun. by destruct (write _ _ _ _ _).2.
      * rewrite Htrace. simpl. by rewrite <- app_assoc.
      * by eapply fix_link_written.
    + eexists _, [_]. split; [done|]. split; [done|].
      simpl. by eapply fix_link_refused.
Qed.

(** The line-item step either is made or fails on its read. *)
Lemma lines_read_cases (row : InvoiceDetail) (w1 : W) :
  (∃ w2 lined, lines_read views row w1 w2 lined)
  ∨ (∃ first ids w2 e,
       detail_invoice_line_ids row = Some (first :: ids)
       ∧ read_line_items views (first :: ids) w1 = (w2, Rejected e)).
Proof.
  destruct (detail_invoice_line_ids row) as [[|first ids]|] eqn:Hids.
  - left. exists w1, row. apply no_lines. by right.
  - destruct (read_line_items views (first :: ids) w1)
      as [w2 [lineItems|e]] eqn:Hlines.
    + left. exists w2, (set_line_items lineItems row).
      by eapply lines_fetched.
    + right. by exists first, ids, w2, e.
  - left. exists w1, row. apply no_lines. by left.
Qed.

(** [getInvoice] up to its attachment read, once the reads before it are
    answered. *)
Lemma getInvoice_to_attachments invoiceId (s : St W) w1 row others w2 lined :
  read_invoice views invoiceId (world s) = (w1, Fulfilled (row :: others)) →
  lines_read views row w1 w2 lined →
  getInvoice odooApi views invoiceId s
  = match read_attachments views (detail_id row) w2 with
    | (w3, Fulfilled attachments) =>
        ((if detail_has_zero_value row
             && bool_decide (0 < length attachments)%nat
          then (auto_fix odooApi invoiceId (set_attachments attachments lined)
                         attachments (mkSt w3 (trace s))).1
          else mkSt w3 (trace s)),
         Fulfilled (Some (set_attachments attachments lined)))
    | (w3, Rejected e) => (mkSt w3 (trace s), Rejected e)
    end.
Proof.
  intros Hread Hlines.
  assert (Hid : detail_id lined = detail_id row) by by destruct Hlines.
  assert (Hzero : ∀ attachments,
            detail_has_zero_value (set_attachments attachments lined)
            = detail_has_zero_value row) by by destruct Hlines.
  assert (Hstep :
    (match detail_invoice_line_ids row with
     | Some (first :: others) =>
         lineItems ← query (read_line_items views (first :: others));
         mret (set_line_items lineItems row)
     | _ => mret row
     end : Task W InvoiceDetail) (mkSt w1 (trace s))
    = (mkSt w2 (trace s), Fulfilled lined)).
  { destruct Hlines as [[Hnone|Hnone]|first ids w' lineItems Hids Hlines].
    - by rewrite Hnone.
    - by rewrite Hnone.
    - rewrite Hids. unfold mbind, Task_bind, query. simpl.
      by rewrite Hlines. }
  unfold getInvoice.
  unfold mbind at 1. unfold Task_bind at 1. unfold query at 1.
  rewrite Hread.
  unfold mbind at 1. unfold Task_bind at 1. rewrite Hstep.
  unfold mbind at 1. unfold Task_bind at 1. unfold query at 1.
  cbn [world trace]. rewrite Hid.
  destruct (read_attachments views (detail_id row) w2)
    as [w3 [attachments|e]]; [|done].
  unfold mbind, Task_bind, mret, Task_ret. rewrite Hzero.
  destruct (detail_has_zero_value row && bool_decide (0 < length attachments)%nat);
    [|done].
  destruct (auto_fix_total invoiceId (set_attachments attachments lined)
              attachments (mkSt w3 (trace s))) as (s' & calls & Hfix & _).
  by rewrite Hfix.
Qed.

(** [getInvoice] once its three reads are answered. *)
Lemma getInvoice_after_reads invoiceId (s : St W) w1 row others w2 lined w3
    attachments :
  read_invoice views invoiceId (world s) = (w1, Fulfilled (row :: others)) →
  lines_read views row w1 w2 lined →
  read_attachments views (detail_id row) w2 = (w3, Fulfilled attachments) →
  getInvoice odooApi views invoiceId s
  = ((if detail_has_zero_value row && bool_decide (0 < length attachments)%nat
      then (auto_fix odooApi invoiceId (set_attachments attachments lined)
                     attachments (mkSt w3 (trace s))).1
      else mkSt w3 (trace s)),
     Fulfilled (Some (set_attachments attachments lined))).
Proof.
  intros Hread Hlines Hatt.
  by rewrite (getInvoice_to_attachments _ _ _ _ _ _ _ Hread Hlines), Hatt.
Qed.

(** When [getInvoice] answers an invoice, its three reads were answered. *)
Lemma getInvoice_answered invoiceId (s s' : St W) invoice :
  getInvoice odooApi views invoiceId s = (s', Fulfilled (Some invoice)) →
  ∃ w1 row others w2 lined w3 attachments,
    read_invoice views invoiceId (world s) = (w1, Fulfilled (row :: others))
    ∧ lines_read views row w1 w2 lined
    ∧ read_attachments views (detail_id row) w2 = (w3, Fulfilled attachments)
    ∧ invoice = set_attachments attachments lined.
Proof.
  intros Hrun.
  destruct (read_invoice views invoiceId (world s))
    as [w1 [[|row others]|e]] eqn:Hread.
  - revert Hrun. unfold getInvoice, mbind, Task_bind, query. by rewrite Hread.
  - destruct (lines_read_cases row w1)
      as [(w2 & lined & Hlines)|(first & ids & w2 & e & Hids & Hlines)].
    + rewrite (getInvoice_to_attachments _ _ _ _ _ _ _ Hread Hlines) in Hrun.
      destruct (read_attachments views (detail_id row) w2)
        as [w3 [attachments|e]] eqn:Hatt; [|discriminate].
      injection Hrun as _ <-.
      by exists w1, row, others, w2, lined, w3, attachments.
    + exfalso. revert Hrun.
      unfold getInvoice, mbind, Task_bind, query, mret, Task_ret.
      rewrite Hread, Hids. cbn [world trace]. by rewrite Hlines.
  - revert Hrun. unfold getInvoice, mbind, Task_bind, query. by rewrite Hread.
Qed.

(** X8. [getInvoice] answers [null] when the invoice read is empty.
    Otherwise it answers the first row read, with the line items read for
    it (if it has line ids) and with the attachments read for it, the reads
    being made in this order.  Unless that invoice has a zero value and at
    least one attachment, nothing more is done: nothing is written and no
    extraction is requested. *)
Theorem getInvoice_fixes_nothing_else invoiceId (s s' : St W) answer :
  getInvoice odooApi views invoiceId s = (s', Fulfilled answer) →
  match answer with
  | None =>
      read_invoice views invoiceId (world s) = (world s', Fulfilled [])
      ∧ trace s' = trace s
  | Some invoice =>
      ∃ w row others w2 lined w3 attachments,
        read_invoice views invoiceId (world s) = (w, Fulfilled (row :: others))
        ∧ lines_read views row w w2 lined
        ∧ read_attachments views (detail_id row) w2
          = (w3, Fulfilled attachments)
        ∧ invoice = set_attachments attachments lined
        ∧ detail_id invoice = detail_id row
        ∧ detail_amount_untaxed invoice = detail_amount_untaxed row
        ∧ detail_main_attachment invoice = detail_main_attachment row
        ∧ detail_attachments invoice = Some attachments
        ∧ (detail_has_zero_value invoice = false ∨ attachments = [] →
           s' = mkSt w3 (trace s))
  end.
Proof.
  intros Hrun. destruct answer as [invoice|].
  - destruct (getInvoice_answered _ _ _ _ Hrun)
      as (w1 & row & others & w2 & lined & w3 & attachments
          & Hread & Hlines & Hatt & ->).
    exists w1, row, others, w2, lined, w3, attachments.
    rewrite (getInvoice_after_reads _ _ _ _ _ _ _ _ _ Hread Hlines Hatt)
      in Hrun.
    injection Hrun as <-.
    assert (Hzero : detail_has_zero_value (set_attachments attachments lined)
                    = detail_has_zero_value row) by by destruct Hlines.
    repeat split; auto; try by destruct Hlines.
    rewrite Hzero. intros [-> | ->]; [done|]. by rewrite andb_false_r.
  - destruct (getInvoice_cases invoiceId s)
      as [(w & e' & Hcase & Hwhy)
         |[(w & Hcase & Hread)
          |(w & row & others & inv & atts & _ & _ & _ & _ & _
            & w2 & w3 & _ & Hcase)]];
      rewrite Hcase in Hrun; [discriminate| |discriminate].
    by injection Hrun as <-.
Qed.

(** X9. Once the reads of [getInvoice] have given an invoice with a zero
    value and at least one attachment, [getInvoice] answers that invoice
    whatever the auto-fix meets, and the calls of the auto-fix are decided
    by Odoo's answers: the linkage is written only if it is not set, and
    then with the id of the first attachment read; a refused write is the
    last call; the reset write follows only a linkage that was set or has
    just been written; the extraction request follows only a reset write
    that was answered, and is the last call. *)
Theorem getInvoice_auto_fix_sequence invoiceId (s : St W) w1 row others w2
    lined w3 first more :
  read_invoice views invoiceId (world s) = (w1, Fulfilled (row :: others)) →
  lines_read views row w1 w2 lined →
  read_attachments views (detail_id row) w2 = (w3, Fulfilled (first :: more)) →
  detail_has_zero_value row = true →
  ∃ s' calls,
    getInvoice odooApi views invoiceId s
    = (s', Fulfilled (Some (set_attachments (first :: more) lined)))
    ∧ trace s' = trace s ++ map Rpc calls
    ∧ auto_fix_calls odooApi invoiceId (ia_id first)
        (Js.truthy (hasMainAttachmentId row)) w3 (world s') calls
    ∧ auto_fix_sequence invoiceId (ia_id first)
        (Js.truthy (hasMainAttachmentId row)) calls.
Proof.
  intros Hread Hlines Hatt Hzero.
  rewrite (getInvoice_after_reads _ _ _ _ _ _ _ _ _ Hread Hlines Hatt).
  rewrite Hzero. simpl.
  assert (Hmain : hasMainAttachmentId (set_attachments (first :: more) lined)
                  = hasMainAttachmentId row) by by destruct Hlines.
  destruct (auto_fix_by_answers invoiceId
              (set_attachments (first :: more) lined) first more
              (mkSt w3 (trace s)))
    as (s' & calls & Hfix & Htrace & Hcalls).
  destruct (auto_fix_run invoiceId (set_attachments (first :: more) lined)
              first more (mkSt w3 (trace s)))
    as (s'' & calls' & Hfix' & Htrace' & Hshape).
  rewrite Hfix in Hfix'. injection Hfix' as <-.
  rewrite Htrace in Htrace'. apply app_inv_head in Htrace'.
  assert (calls' = calls) as ->.
  { clear -Htrace'. revert calls' Htrace'.
    induction calls as [|c calls IH]; intros [|c' calls']; simpl; try done.
    intros [= -> Hrest]. f_equal. by apply IH. }
  rewrite Hmain in Hcalls, Hshape.
  exists s', calls. rewrite Hfix. by repeat split.
Qed.

End DetailFacts.

(** ** The tab listings *)

Section TabFacts.

Context {W : Type} (views : DetailApi W).

Lemma fetch_attachments_fulfilled invoices : ∀ (s s' : St W) result,
  fetch_attachments views invoices s = (s', Fulfilled result) →
  map id result = map id invoices
  ∧ map amount_untaxed result = map amount_untaxed invoices
  ∧ Forall (λ inv, is_Some (attachments inv)) result
  ∧ world s' = after_attachment_reads views invoices (world s)
  ∧ trace s' = trace s.
Proof.
  induction invoices as [|inv rest IH]; intros s s' result; simpl.
  - intros [= <- <-]. repeat split; constructor.
  - unfold mbind, Task_bind, query.
    destruct (read_attachments views (id inv) (world s))
      as [w1 [atts|e]] eqn:Hread; [|done]. simpl.
    destruct (fetch_attachments views rest (mkSt w1 (trace s)))
      as [s2 [rest'|e]] eqn:Hrest; [|done].
    intros [= <- <-].
    destruct (IH _ _ _ Hrest) as (Hids & Hamounts & Hsome & Hworld & Htrace).
    simpl in *. rewrite Hids, Hamounts.
    repeat split; auto; try (constructor; [by eexists|done]).
Qed.

Lemma tab_view_run read get :
  (read, get) ∈ tab_views views →
  ∀ alias (s : St W),
    get alias s
    = match read alias (world s) with
      | (w1, Fulfilled fetched) =>
          fetch_attachments views fetched (mkSt w1 (trace s))
      | (w1, Rejected e) => (mkSt w1 (trace s), Rejected e)
      end.
Proof.
  unfold tab_views. rewrite !elem_of_cons, elem_of_nil.
  intros [[= -> ->]|[[= -> ->]|[[= -> ->]|[[= -> ->]|[[= -> ->]|[]]]]]];
    intros alias s;
    unfold getPendingInvoices, getAwaitingApprovalInvoices,
      getSentForPaymentInvoices, getPaidInvoices, getOtherInvoices,
      mbind, Task_bind, query;
    match goal with
    | |- context [?read views alias (world s)] =>
        by destruct (read views alias (world s)) as [w1 [fetched|e]]
    end.
Qed.

(** X10. When one of the five tab listings ([getPendingInvoices],
    [getAwaitingApprovalInvoices], [getSentForPaymentInvoices],
    [getPaidInvoices], [getOtherInvoices]) answers, it answers the invoices
    read, in the order read and with their amounts, each with its
    attachments defined; it has then read the attachments once per invoice,
    in that order, and has written nothing. *)
Theorem tab_listing_keeps_invoices read get alias (s s' : St W) result :
  (read, get) ∈ tab_views views →
  get alias s = (s', Fulfilled result) →
  ∃ w1 fetched,
    read alias (world s) = (w1, Fulfilled fetched)
    ∧ map id result = map id fetched
    ∧ map amount_untaxed result = map amount_untaxed fetched
    ∧ Forall (λ inv, is_Some (attachments inv)) result
    ∧ world s' = after_attachment_reads views fetched w1
    ∧ trace s' = trace s.
Proof.
  intros Htab. rewrite (tab_view_run _ _ Htab).
  destruct (read alias (world s)) as [w1 [fetched|e]]; [|done].
  intros Hrun. exists w1, fetched. split; [done|].
  by apply (fetch_attachments_fulfilled _ _ _ _ Hrun).
Qed.

Ltac invert_reads :=
  repeat match goal with
         | H : attachments_read _ [] _ _ _ |- _ => inversion H; subst; clear H
         | H : attachments_read _ (_ :: _) _ _ _ |- _ =>
             inversion H; subst; clear H
         end.

(** The world after attachment reads that were all answered. *)
Lemma attachments_read_world invoices : ∀ (w w' : W) found,
  attachments_read views invoices w w' found →
  w' = after_attachment_reads views invoices w.
Proof.
  induction invoices as [|inv rest IH]; intros w w' found Hreads;
    invert_reads; [done|].
  simpl.
  match goal with H : read_attachments _ _ _ = _ |- _ => rewrite H end.
  simpl. by eapply IH.
Qed.

(** Odoo's answers decide the attachments found. *)
Lemma attachments_read_fun invoices : ∀ (w w1 w2 : W) found1 found2,
  attachments_read views invoices w w1 found1 →
  attachments_read views invoices w w2 found2 →
  w1 = w2 ∧ found1 = found2.
Proof.
  induction invoices as [|inv rest IH]; intros w w1 w2 found1 found2 H1 H2;
    invert_reads; [done|].
  repeat match goal with
         | H : read_attachments _ _ _ = _, H' : read_attachments _ _ _ = _ |- _ =>
             rewrite H in H'; injection H' as <- <-
         end.
  match goal with
  | Ha : attachments_read _ rest ?w ?a ?fa,
    Hb : attachments_read _ rest ?w ?b ?fb |- _ =>
      by destruct (IH _ _ _ _ _ Ha Hb) as [-> ->]
  end.
Qed.

(** A refused read is not answered. *)
Lemma attachments_read_not_refused before inv after :
  ∀ (w w' w2 w3 : W) found found2 e,
    attachments_read views (before ++ inv :: after) w w' found →
    attachments_read views before w w2 found2 →
    read_attachments views (id inv) w2 = (w3, Rejected e) →
    False.
Proof.
  induction before as [|inv0 rest IH];
    intros w w' w2 w3 found found2 e Hall Hbefore Hfail;
    simpl in Hall; invert_reads.
  - congruence.
  - repeat match goal with
           | H : read_attachments _ (id inv0) _ = _,
             H' : read_attachments _ (id inv0) _ = _ |- _ =>
               rewrite H in H'; injection H' as <- <-
           end.
    by eapply IH.
Qed.

(** The first refused read is decided by Odoo's answers. *)
Lemma first_refused_read_unique before : ∀ before' inv inv' after after'
    (w w2 w2' w3 w3' : W) found found' e e',
  before ++ inv :: after = before' ++ inv' :: after' →
  attachments_read views before w w2 found →
  read_attachments views (id inv) w2 = (w3, Rejected e) →
  attachments_read views before' w w2' found' →
  read_attachments views (id inv') w2' = (w3', Rejected e') →
  w3 = w3' ∧ e = e'.
Proof.
  induction before as [|inv0 rest IH];
    intros [|inv1 rest'] inv inv' after after' w w2 w2' w3 w3' found found'
           e e' Hsame Hbefore Hfail Hbefore' Hfail';
    simpl in Hsame; injection Hsame as ? Hsame; subst; invert_reads.
  - rewrite Hfail in Hfail'. by injection Hfail' as <- <-.
  - congruence.
  - congruence.
  - repeat match goal with
           | H : read_attachments _ (id inv1) _ = _,
             H' : read_attachments _ (id inv1) _ = _ |- _ =>
               rewrite H in H'; injection H' as <- <-
           end.
    by eapply IH.
Qed.

(** The attachment loop answers when every read is answered. *)
Lemma fetch_attachments_all invoices : ∀ (w w' : W) found t,
  attachments_read views invoices w w' found →
  fetch_attachments views invoices (mkSt w t)
  = (mkSt w' t, Fulfilled (with_found invoices found)).
Proof.
  induction invoices as [|inv rest IH]; intros w w' found t Hreads;
    invert_reads; [done|].
  simpl. unfold mbind, Task_bind, query. simpl.
  match goal with H : read_attachments _ _ _ = _ |- _ => rewrite H end.
  match goal with
  | H : attachments_read _ rest _ _ _ |- _ => by rewrite (IH _ _ _ t H)
  end.
Qed.

(** The attachment loop rejects at the first read that is refused. *)
Lemma fetch_attachments_stops before inv after : ∀ (w w2 w' : W) found e t,
  attachments_read views before w w2 found →
  read_attachments views (id inv) w2 = (w', Rejected e) →
  fetch_attachments views (before ++ inv :: after) (mkSt w t)
  = (mkSt w' t, Rejected e).
Proof.
  induction before as [|inv0 rest IH]; intros w w2 w' found e t Hreads Hfail;
    invert_reads.
  - simpl. unfold mbind, Task_bind, query. simpl. by rewrite Hfail.
  - simpl. unfold mbind, Task_bind, query. simpl.
    match goal with
    | H : read_attachments _ (id inv0) _ = _ |- _ => rewrite H
    end.
    match goal with
    | H : attachments_read _ rest _ _ _ |- _ =>
        by rewrite (IH _ _ _ _ _ t H Hfail)
    end.
Qed.

(** The two ways the attachment loop can end. *)
Lemma fetch_attachments_cases invoices : ∀ (w : W),
  (∃ w' found, attachments_read views invoices w w' found)
  ∨ (∃ before inv after w2 found w' e,
       invoices = before ++ inv :: after
       ∧ attachments_read views before w w2 found
       ∧ read_attachments views (id inv) w2 = (w', Rejected e)).
Proof.
  induction invoices as [|inv rest IH]; intros w.
  - left. exists w, []. constructor.
  - destruct (read_attachments views (id inv) w) as [w1 [atts|e]] eqn:Hread.
    + destruct (IH w1)
        as [(w' & found & Hall)
           |(before & inv' & after & w2 & found & w' & e & -> & Hall & Hfail)].
      * left. exists w', (atts :: found). by econstructor.
      * right. exists (inv :: before), inv', after, w2, (atts :: found), w', e.
        split; [done|]. split; [by econstructor|done].
    + right. exists [], inv, rest, w, [], w1, e.
      split; [done|]. split; [constructor|done].
Qed.

(** X11. A tab listing is all or nothing, and Odoo's answers decide which.
    It rejects exactly when its invoice read is refused, or when, the
    attachment reads of the invoices before it having all been answered,
    the attachment read of some invoice is refused; it then rejects with
    the error of that read, in the world that read left (the attachments of
    the invoices after it are not read).  It answers exactly when the
    invoice read and the attachment read of every invoice, made in order,
    are answered, and it then answers each invoice read with the
    attachments found for it.  In both cases nothing is written. *)
Theorem tab_listing_stops_at_first_failure read get alias (s s' : St W) :
  (read, get) ∈ tab_views views →
  (∀ e,
     get alias s = (s', Rejected e)
     ↔ trace s' = trace s
       ∧ (read alias (world s) = (world s', Rejected e)
          ∨ ∃ w1 before inv after w2 found,
              read alias (world s) = (w1, Fulfilled (before ++ inv :: after))
              ∧ attachments_read views before w1 w2 found
              ∧ w2 = after_attachment_reads views before w1
              ∧ read_attachments views (id inv) w2 = (world s', Rejected e)))
  ∧ (∀ result,
       get alias s = (s', Fulfilled result)
       ↔ trace s' = trace s
         ∧ ∃ w1 fetched found,
             read alias (world s) = (w1, Fulfilled fetched)
             ∧ attachments_read views fetched w1 (world s') found
             ∧ result = with_found fetched found).
Proof.
  intros Htab. rewrite (tab_view_run _ _ Htab).
  destruct s' as [w' t']. cbn [world trace].
  destruct (read alias (world s)) as [w1 [fetched|e']] eqn:Hread.
  - destruct (fetch_attachments_cases fetched w1)
      as [(w2 & found & Hall)
         |(before & inv & after & w2 & found & w3 & e' & -> & Hall & Hfail)].
    + rewrite (fetch_attachments_all _ _ _ _ (trace s) Hall). split.
      * intros e. split; [done|].
        intros (_ & [[=]|(w1' & before & inv & after & w2' & found' & Heq
                          & Hbefore & _ & Hfail)]).
        injection Heq as <- ->.
        exfalso. by eapply attachments_read_not_refused.
      * intros result. split.
        -- intros [= <- <- <-]. split; [done|]. by exists w1, fetched, found.
        -- intros (-> & w1' & fetched' & found' & Heq & Hall' & ->).
           injection Heq as <- <-.
           by destruct (attachments_read_fun _ _ _ _ _ _ Hall Hall')
             as [-> ->].
    + rewrite (fetch_attachments_stops _ _ _ _ _ _ _ _ (trace s) Hall Hfail).
      split.
      * intros e. split.
        -- intros [= <- <- <-]. split; [done|]. right.
           exists w1, before, inv, after, w2, found.
           split; [done|]. split; [done|].
           split; [by eapply attachments_read_world|done].
        -- intros (-> & [[=]|(w1' & before' & inv' & after' & w2' & found'
                              & Heq & Hbefore & _ & Hfail')]).
           injection Heq as <- Hsame.
           by destruct (first_refused_read_unique
                          before before' inv inv' after after' w1 w2 w2' w3 w'
                          found found' e' e Hsame Hall Hfail Hbefore Hfail')
             as [-> ->].
      * intros result. split; [done|].
        intros (_ & w1' & fetched' & found' & Heq & Hall' & _).
        injection Heq as <- <-.
        exfalso. by eapply attachments_read_not_refused.
  - split.
    + intros e. split.
      * intros [= <- <- <-]. split; [done|]. by left.
      * intros (-> & [Heq|(? & ? & ? & ? & ? & ? & [=] & _)]).
        by injection Heq as <- <-.
    + intros result. split; [done|].
      by intros (_ & ? & ? & ? & [=] & _).
Qed.

End TabFacts.

(** ** Access to an invoice *)

Section AccessFacts.

Context {W : Type} (views : DetailApi W).

(** X12. [validateInvoiceAccess] fails closed.  It always answers, and
    writes nothing.  Without an alias (null or empty) it answers [false] at
    once, without asking Odoo.  Otherwise it answers [true] exactly when the
    read succeeds and the first row carries a project manager equal to the
    alias once both are put in lower case; a failed read, an empty answer
    or a row without manager gives [false]. *)
Theorem access_denied_unless_alias_matches (toLowerCase : string → string)
    invoiceId userAlias (s : St W) :
  ∃ s' granted,
    validateInvoiceAccess views toLowerCase invoiceId userAlias s
    = (s', Fulfilled granted)
    ∧ trace s' = trace s
    ∧ (granted = true
       ↔ ∃ alias w1 manager others,
           userAlias = Some alias ∧ alias ≠ EmptyString
           ∧ read_manager views invoiceId (world s)
             = (w1, Fulfilled (Some manager :: others))
           ∧ toLowerCase manager = toLowerCase alias)
    ∧ (userAlias = None ∨ userAlias = Some EmptyString → s' = s).
Proof.
  unfold validateInvoiceAccess.
  destruct userAlias as [alias|].
  - destruct (String.eqb_spec alias EmptyString) as [->|Hne].
    + exists s, false. repeat split; auto; try done.
      intros (a & w1 & m & o & [= <-] & Ha & _). done.
    + unfold try_catch, mbind, Task_bind, query, mret, Task_ret.
      destruct (read_manager views invoiceId (world s))
        as [w1 [[|[manager|] others]|e]] eqn:Hread; simpl.
      * eexists _, _. split; [reflexivity|]. split; [done|]. split.
        -- split; [done|]. intros (a & w & m & o & _ & _ & [=] & _).
        -- intros [[=]|[= ->]]. done.
      * eexists _, _. split; [reflexivity|]. split; [done|]. split.
        -- rewrite String.eqb_eq. split.
           ++ intros Heq. by exists alias, w1, manager, others.
           ++ by intros (a & w & m & o & [= <-] & _ & [= <- <- <-] & Heq).
        -- intros [[=]|[= ->]]. done.
      * eexists _, _. split; [reflexivity|]. split; [done|]. split.
        -- split; [done|]. intros (a & w & m & o & _ & _ & [=] & _).
        -- intros [[=]|[= ->]]. done.
      * eexists _, _. split; [reflexivity|]. split; [done|]. split.
        -- split; [done|]. intros (a & w & m & o & _ & _ & [=] & _).
        -- intros [[=]|[= ->]]. done.
  - exists s, false. repeat split; auto; try done.
    intros (a & w1 & m & o & [=] & _).
Qed.

End AccessFacts.

(** ** More on the polling hook *)

Lemma prefix_occurs sub : ∀ s,
  String.prefix sub s = true ↔ ∃ after, s = (sub ++ after)%string.
Proof.
  induction sub as [|c sub IH]; intros s.
  - destruct s; simpl; (split; [intros _; by eexists|done]).
  - destruct s as [|d s]; simpl.
    + split; [done|]. by intros [after [=]].
    + destruct (Ascii.ascii_dec c d) as [->|Hne].
      * rewrite IH. split.
        -- intros [after ->]. by exists after.
        -- intros [after [= ->]]. by exists after.
      * split; [done|]. intros [after [= ? _]]. done.
Qed.

(** [includes] is the substring test. *)
Lemma includes_occurs sub : ∀ s,
  Hook.includes s sub = true ↔ occurs_in sub s.
Proof.
  unfold occurs_in.
  induction s as [|c s IH].
  - change (Hook.includes EmptyString sub)
      with (String.prefix sub EmptyString || false).
    rewrite orb_false_r, prefix_occurs. split.
    + intros [after Heq]. by exists EmptyString, after.
    + intros ([|d before] & after & Heq); [by exists after|done].
  - change (Hook.includes (String c s) sub)
      with (String.prefix sub (String c s) || Hook.includes s sub).
    rewrite orb_true_iff, prefix_occurs, IH. split.
    + intros [[after Heq]|(before & after & ->)].
      * by exists EmptyString, after.
      * by exists (String c before), after.
    + intros ([|d before] & after & Heq).
      * left. by exists after.
      * right. injection Heq as -> ->. by exists before, after.
Qed.

Lemma includes_absent sub s :
  Hook.includes s sub = false ↔ ¬ occurs_in sub s.
Proof.
  rewrite <- includes_occurs. by destruct (Hook.includes s sub).
Qed.

(** X13. [needsOcrProcessing] answers [true] exactly when polling is
    enabled, invoices are given, and the untaxed amount of at least one of
    them is undefined, null or zero; in particular it answers [false] for
    an empty array. *)
Theorem polls_only_for_missing_amounts enabled invoices :
  needsOcrProcessing enabled invoices = true
  ↔ enabled = true
    ∧ ∃ given inv,
        invoices = Some given
        ∧ inv ∈ match given with inl one => [one] | inr many => many end
        ∧ (amount_untaxed inv = AmountUndefined
           ∨ amount_untaxed inv = AmountNull
           ∨ ∃ q, amount_untaxed inv = AmountNum q ∧ (q == 0)%Q).
Proof.
  assert (Hzero : ∀ inv,
            amount_missing_or_zero inv = true
            ↔ amount_untaxed inv = AmountUndefined
              ∨ amount_untaxed inv = AmountNull
              ∨ ∃ q, amount_untaxed inv = AmountNum q ∧ (q == 0)%Q).
  { intros inv. unfold amount_missing_or_zero, amount_is_zero.
    destruct (amount_untaxed inv) as [| |q]; simpl.
    - split; auto.
    - split; auto.
    - rewrite Qeq_bool_iff. split.
      + intros Hq. right; right. by exists q.
      + by intros [|[|(q' & [= <-] & Hq)]]. }
  unfold needsOcrProcessing.
  destruct invoices as [given|].
  - destruct enabled; simpl.
    + rewrite existsb_exists. split.
      * intros (inv & Hin & Hinv). split; [done|]. exists given, inv.
        split; [done|]. split; [by apply list_elem_of_In|by apply Hzero].
      * intros (_ & given' & inv & [= <-] & Hin & Hinv).
        exists inv. split; [by apply list_elem_of_In|by apply Hzero].
    + split; [done|]. by intros [? _].
  - split; [done|]. by intros (_ & given & inv & ? & _).
Qed.

(** The title of an error toast is the fall-back title exactly when none of
    the words looked for is included. *)
Lemma fallback_title_iff err :
  Hook.title (Hook.error_toast err) = "OCR Refresh Error"
  ↔ forallb (λ k, negb (Hook.includes err k)) error_keywords = true.
Proof.
  unfold Hook.error_toast, error_keywords. simpl.
  repeat match goal with
         | |- context [Hook.includes err ?k] =>
             destruct (Hook.includes err k); simpl; [by split|]
         end.
  done.
Qed.

(** X14. An error toast is always an error notification shown for seven
    seconds.  When the message includes none of the sixteen words looked
    for, the toast is titled 'OCR Refresh Error' and shows the message
    itself; as soon as one of them is included, the toast has another
    title. *)
Theorem unrecognised_error_is_shown_as_is err :
  Hook.kind (Hook.error_toast err) = Hook.error
  ∧ Hook.shown_for (Hook.error_toast err) = 7000
  ∧ (Forall (λ k, ¬ occurs_in k err) error_keywords →
     Hook.error_toast err
     = Hook.mkToast Hook.error "OCR Refresh Error" (Hook.Text err) 7000)
  ∧ (Exists (λ k, occurs_in k err) error_keywords →
     Hook.title (Hook.error_toast err) ≠ "OCR Refresh Error").
Proof.
  split; [|split; [|split]].
  - unfold Hook.error_toast. by repeat case_match.
  - unfold Hook.error_toast. by repeat case_match.
  - intros Hnone. unfold Hook.error_toast.
    assert (Hall : ∀ k, k ∈ error_keywords → Hook.includes err k = false).
    { intros k Hk. apply includes_absent.
      by apply (proj1 (Forall_forall _ _) Hnone). }
    unfold error_keywords in Hall.
    rewrite !Hall by (rewrite !elem_of_cons; tauto). reflexivity.
  - intros Hsome Htitle. apply fallback_title_iff in Htitle.
    apply Exists_exists in Hsome as (k & Hk & Hocc).
    apply includes_occurs in Hocc.
    rewrite forallb_forall in Htitle.
    specialize (Htitle k (proj1 (list_elem_of_In _ _) Hk)).
    by rewrite Hocc in Htitle.
Qed.

Lemma network_title_iff err :
  Hook.title (Hook.error_toast err) = "Network Connection Error"
  ↔ Hook.includes err "Network error" || Hook.includes err "fetch" = true.
Proof.
  unfold Hook.error_toast. simpl.
  repeat match goal with
         | |- context [Hook.includes err ?k] =>
             destruct (Hook.includes err k); simpl; [by split|]
         end.
  done.
Qed.

Lemma timeout_title_iff err :
  Hook.title (Hook.error_toast err) = "Request Timeout"
  ↔ forallb (λ k, negb (Hook.includes err k)) (take 14 error_keywords)
    && Hook.includes err "timeout" = true.
Proof.
  unfold Hook.error_toast, error_keywords. simpl.
  repeat match goal with
         | |- context [Hook.includes err ?k] =>
             destruct (Hook.includes err k); simpl; [by split|]
         end.
  done.
Qed.

(** X15. The words are tried in a fixed order and the first hit decides.  A
    message that includes 'Network error' or 'fetch' is always reported as
    'Network Connection Error', whatever else it includes, and only such a
    message is.  A message is reported as 'Request Timeout' only if it
    includes 'timeout' and none of the fourteen words tried before it: one
    that also includes '504' is not. *)
Theorem first_matching_word_decides err :
  (Hook.title (Hook.error_toast err) = "Network Connection Error"
   ↔ occurs_in "Network error" err ∨ occurs_in "fetch" err)
  ∧ (Hook.title (Hook.error_toast err) = "Request Timeout"
     ↔ occurs_in "timeout" err
       ∧ Forall (λ k, ¬ occurs_in k err) (take 14 error_keywords))
  ∧ (occurs_in "timeout" err → occurs_in "504" err →
     Hook.title (Hook.error_toast err) ≠ "Request Timeout").
Proof.
  assert (Htimeout :
    Hook.title (Hook.error_toast err) = "Request Timeout"
    ↔ occurs_in "timeout" err
      ∧ Forall (λ k, ¬ occurs_in k err) (take 14 error_keywords)).
  { rewrite timeout_title_iff, andb_true_iff, includes_occurs.
    rewrite forallb_forall, Forall_forall. split.
    - intros [Hnone Hocc]. split; [done|]. intros k Hk.
      apply includes_absent, negb_true_iff, Hnone. by apply list_elem_of_In.
    - intros [Hocc Hnone]. split; [|done]. intros k Hk.
      apply negb_true_iff, includes_absent, Hnone. by apply list_elem_of_In. }
  split; [|split; [exact Htimeout|]].
  - by rewrite network_title_iff, orb_true_iff, !includes_occurs.
  - intros _ H504 Htitle. apply Htimeout in Htitle as [_ Hnone].
    rewrite Forall_forall in Hnone. apply (Hnone "504"); [|done].
    unfold error_keywords. simpl. rewrite !elem_of_cons. tauto.
Qed.

(** X16. [pollStatus] raises nothing exactly when the result of the status,
    if any, has the [completedAt] already processed, and its error, if any,
    is empty or is the string already processed. *)
Theorem surfaced_status_is_quiet (newStatus : Hook.OcrRefreshStatus)
    (lastProcessedResult : option string) :
  Hook.pollStatus_toasts newStatus lastProcessedResult = []
  ↔ (∀ result, Hook.lastResult newStatus = Some result →
               lastProcessedResult = Some (Hook.completedAt result))
    ∧ (∀ err, Hook.lastError newStatus = Some err →
              err = EmptyString ∨ lastProcessedResult = Some err).
Proof.
  assert (Hdiff : ∀ value, Hook.differs value lastProcessedResult = false
                           ↔ lastProcessedResult = Some value).
  { intros value. unfold Hook.differs.
    destruct lastProcessedResult as [seen|]; [|done].
    rewrite negb_false_iff, String.eqb_eq. split; congruence. }
  unfold Hook.pollStatus_toasts, Hook.result_toasts, Hook.error_toasts.
  destruct (Hook.lastResult newStatus) as [result|];
    destruct (Hook.lastError newStatus) as [err|]; simpl.
  - destruct (Hook.differs (Hook.completedAt result) lastProcessedResult)
      eqn:Hr; simpl.
    + split; [done|]. intros [Hres _].
      specialize (Hres _ eq_refl). apply Hdiff in Hres. congruence.
    + apply Hdiff in Hr.
      destruct (String.eqb_spec err EmptyString) as [->|Hne]; simpl.
      * split; [|done]. intros _. split; [by intros ? [= <-]|].
        intros ? [= <-]. by left.
      * destruct (Hook.differs err lastProcessedResult) eqn:He; simpl.
        -- split; [done|]. intros [_ Herr].
           destruct (Herr _ eq_refl) as [?|Hsame]; [done|].
           apply Hdiff in Hsame. congruence.
        -- apply Hdiff in He. split; [|done]. intros _.
           split; [by intros ? [= <-]|]. intros ? [= <-]. by right.
  - destruct (Hook.differs (Hook.completedAt result) lastProcessedResult)
      eqn:Hr; simpl.
    + split; [done|]. intros [Hres _].
      specialize (Hres _ eq_refl). apply Hdiff in Hres. congruence.
    + apply Hdiff in Hr. split; [|done]. intros _.
      split; [by intros ? [= <-]|done].
  - destruct (String.eqb_spec err EmptyString) as [->|Hne]; simpl.
    + split; [|done]. intros _. split; [done|]. intros ? [= <-]. by left.
    + destruct (Hook.differs err lastProcessedResult) eqn:He; simpl.
      * split; [done|]. intros [_ Herr].
        destruct (Herr _ eq_refl) as [?|Hsame]; [done|].
        apply Hdiff in Hsame. congruence.
      * apply Hdiff in He. split; [|done]. intros _.
        split; [done|]. intros ? [= <-]. by right.
  - split; [|done]. intros _. by split.
Qed.

(** X17. The hook remembers one string for both results and errors.  So a
    status that carries a result and a non-empty error different from the
    result's [completedAt] never leaves [pollStatus] silent, whatever was
    processed before; when nothing was processed yet, it raises two
    toasts, the one of the result first. *)
Theorem result_and_error_always_toast (newStatus : Hook.OcrRefreshStatus)
    result err (lastProcessedResult : option string) :
  Hook.lastResult newStatus = Some result →
  Hook.lastError newStatus = Some err →
  err ≠ EmptyString →
  err ≠ Hook.completedAt result →
  Hook.pollStatus_toasts newStatus lastProcessedResult ≠ []
  ∧ (length (Hook.pollStatus_toasts newStatus lastProcessedResult) ≤ 2)%nat
  ∧ Hook.pollStatus_toasts newStatus None
    = [Hook.result_toast result; Hook.error_toast err].
Proof.
  intros Hresult Herror Hnonempty Hother.
  unfold Hook.pollStatus_toasts, Hook.result_toasts, Hook.error_toasts.
  rewrite Hresult, Herror.
  destruct (String.eqb_spec err EmptyString) as [|_]; [done|]. simpl.
  split; [|split; [|done]].
  - unfold Hook.differs. destruct lastProcessedResult as [seen|]; [|done].
    destruct (String.eqb_spec (Hook.completedAt result) seen) as [<-|_];
      [|done]. simpl.
    by destruct (String.eqb_spec err (Hook.completedAt result)).
  - repeat case_match; simpl; lia.
Qed.

(** ** More on the list view *)

Section ListingMore.

Context {W : Type} (odooApi : Env W).

(** X18. [getAllInvoices] rejects only when its invoice read rejects, or
    when that read returned invoices and the attachment read rejects; it
    rejects with the error of that read, after these reads only, and
    without any call on the notification service: no refresh is started.
    When the reads are answered it always answers. *)
Theorem listing_read_failure_starts_nothing alias skipOcrRefresh limit offset
    includeData (s s' : St W) e :
  getAllInvoices odooApi alias skipOcrRefresh limit offset includeData s
  = (s', Rejected e) →
  store_calls (trace s') = store_calls (trace s)
  ∧ ((list_invoices odooApi alias limit offset (world s)
      = (world s', Rejected e)
      ∧ trace s' = trace s ++ [Rpc (ListInvoices alias limit offset)])
     ∨ ∃ w1 fetched,
         list_invoices odooApi alias limit offset (world s)
         = (w1, Fulfilled fetched)
         ∧ fetched ≠ []
         ∧ list_attachments odooApi (map id fetched) includeData w1
           = (world s', Rejected e)
         ∧ trace s'
           = trace s ++ [Rpc (ListInvoices alias limit offset);
                         Rpc (ListAttachments (map id fetched) includeData)]).
Proof.
  unfold getAllInvoices, mbind, Task_bind, mret, Task_ret, remote, notify, emit.
  destruct (list_invoices odooApi alias limit offset (world s))
    as [w1 [fetched|e']] eqn:Hlist.
  - case_bool_decide as Hfetched; simpl.
    + destruct (list_attachments odooApi (map id fetched) includeData w1)
        as [w2 [allAttachments|e']] eqn:Hall; simpl.
      * destruct skipOcrRefresh; simpl; repeat (case_bool_decide; simpl);
          intros [=].
      * intros [= <- <-]. simpl. split.
        -- rewrite !store_calls_app. simpl. by rewrite !app_nil_r.
        -- right. exists w1, fetched. split; [done|].
           split; [intros ->; simpl in Hfetched; lia|]. split; [done|].
           by rewrite <- app_assoc.
    + destruct skipOcrRefresh; simpl; repeat (case_bool_decide; simpl);
        intros [=].
  - intros [= <- <-]. simpl. split.
    + rewrite store_calls_app. simpl. by rewrite app_nil_r.
    + by left.
Qed.

End ListingMore.

Lemma group_attachments_exact_from includeData allAttachments :
  ∀ (m : gmap Z (list OdooInvoiceAttachment)) k,
    foldl
      (λ attachmentsByInvoice attachment,
         match a_res_id attachment with
         | None => attachmentsByInvoice
         | Some res_id =>
             if (res_id =? 0)%Z then attachmentsByInvoice
             else
               let current := default [] (attachmentsByInvoice !! res_id) in
               <[res_id := current ++ [invoice_attachment includeData
                                                         attachment]]>
                 attachmentsByInvoice
         end)
      m allAttachments !! k
    = match attachments_of includeData allAttachments k with
      | [] => m !! k
      | found => Some (default [] (m !! k) ++ found)
      end.
Proof.
  unfold attachments_of.
  induction allAttachments as [|a rest IH]; intros m k; simpl; [done|].
  rewrite IH. destruct (a_res_id a) as [r|] eqn:Hr.
  - destruct (Z.eqb_spec r 0) as [->|Hnz].
    + rewrite bool_decide_eq_false_2; [done|]. intros [[= <-] ?]. done.
    + destruct (decide (r = k)) as [->|Hne].
      * rewrite lookup_insert_eq. simpl.
        rewrite bool_decide_eq_true_2 by done. simpl.
        destruct (map _ (List.filter _ rest)); simpl.
        -- done.
        -- by rewrite <- app_assoc.
      * rewrite lookup_insert_ne by done.
        rewrite bool_decide_eq_false_2; [done|]. intros [[= ?] ?]. done.
  - rewrite bool_decide_eq_false_2; [done|]. intros [[=] ?].
Qed.

(** X19. The map built by the grouping loop of [getAllInvoices] holds, under
    each invoice id, exactly the attachments that refer to it, in the order
    read: an id no attachment refers to has no entry (never an empty list),
    the id [0] has none, and every attachment with a non-zero [res_id] is
    found under that id. *)
Theorem grouping_is_exact includeData allAttachments :
  (∀ k, group_attachments includeData allAttachments !! k
        = match attachments_of includeData allAttachments k with
          | [] => None
          | found => Some found
          end)
  ∧ group_attachments includeData allAttachments !! 0 = None
  ∧ (∀ a k, a ∈ allAttachments → a_res_id a = Some k → k ≠ 0 →
            ∃ found,
              group_attachments includeData allAttachments !! k = Some found
              ∧ invoice_attachment includeData a ∈ found).
Proof.
  assert (Hlookup : ∀ k,
            group_attachments includeData allAttachments !! k
            = match attachments_of includeData allAttachments k with
              | [] => None
              | found => Some found
              end).
  { intros k. unfold group_attachments.
    rewrite group_attachments_exact_from, lookup_empty. simpl.
    by destruct (attachments_of includeData allAttachments k). }
  split; [exact Hlookup|]. split.
  - rewrite Hlookup. unfold attachments_of.
    replace (List.filter _ allAttachments) with (@nil OdooAttachment); [done|].
    symmetry. induction allAttachments as [|a rest IH]; [done|]. simpl.
    rewrite bool_decide_eq_false_2; [|by intros [_ ?]].
    apply IH. intros k. unfold group_attachments.
    rewrite group_attachments_exact_from, lookup_empty. simpl.
    by destruct (attachments_of includeData rest k).
  - intros a k Hin Hres Hnz.
    assert (Hfound : invoice_attachment includeData a
                     ∈ attachments_of includeData allAttachments k).
    { unfold attachments_of. apply list_elem_of_fmap. exists a.
      split; [done|]. apply list_elem_of_In, filter_In.
      split; [by apply list_elem_of_In|]. by apply bool_decide_eq_true_2. }
    rewrite Hlookup.
    destruct (attachments_of includeData allAttachments k) as [|x found];
      [by apply elem_of_nil in Hfound|].
    by eexists.
Qed.

(** ** From the listing to the end of the background refresh *)

Section EndToEnd.

Context {W : Type} (odooApi : Env W).

(** What a listing that answers has done and handed over. *)
Lemma listing_outcome alias skipOcrRefresh limit offset includeData
    (s s' : St W) listing detached :
  getAllInvoices odooApi alias skipOcrRefresh limit offset includeData s
  = (s', Fulfilled (listing, detached)) →
  let candidates := candidate_ids (invoices listing) in
  let started := negb skipOcrRefresh && bool_decide (0 < length candidates)%nat in
  (∃ reads, trace s' = trace s ++ map Rpc reads
                       ++ if started then [Notify (StartRefresh candidates)]
                          else [])
  ∧ detached = (if started then Some (background_refresh odooApi candidates)
                else None)
  ∧ zeroValueInvoiceIds listing = (if started then candidates else [])
  ∧ zeroValueInvoicesRefreshed listing
    = length (if started then candidates else []).
Proof.
  intros Hrun candidates started.
  assert (Hempty : ∀ l : list OdooInvoice,
            ¬ (0 < length (List.filter refresh_candidate l))%nat →
            List.filter refresh_candidate l = []).
  { intros l Hl. destruct (List.filter refresh_candidate l); [done|].
    simpl in Hl. lia. }
  revert Hrun. unfold getAllInvoices, mbind, Task_bind, remote.
  destruct (list_invoices odooApi alias limit offset (world s))
    as [w1 [fetched|e]]; [|done].
  case_bool_decide as Hfetched; simpl;
    [destruct (list_attachments odooApi (map id fetched) includeData w1)
       as [w2 [allAttachments|e]]; [|done]|];
    simpl; rewrite !processed_for_ocr, !filter_filter_candidates;
    unfold started, candidates, candidate_ids;
    (destruct skipOcrRefresh; simpl;
     [|case_bool_decide as Hz; simpl; [case_bool_decide as Hc; simpl|]]);
    intros [= <- <- <-]; simpl; rewrite ?length_map;
    try (assert (Hc : ¬ (0 < length (List.filter refresh_candidate
                   (map (with_attachments
                           (group_attachments includeData allAttachments))
                        fetched)))%nat)
           by (intros Hc; by apply Hz, filter_nonempty_outer));
    try (assert (Hc : ¬ (0 < length (List.filter refresh_candidate fetched))%nat)
           by (intros Hc; by apply Hz, filter_nonempty_outer));
    rewrite ?bool_decide_eq_true_2 by done;
    rewrite ?bool_decide_eq_false_2 by done;
    rewrite ?Hempty by done;
    (split; [eexists; rewrite <- ?app_assoc; simpl;
             first [ by instantiate (1 := [_]) | by instantiate (1 := [_; _]) ]
            |by rewrite ?length_map]).
Qed.

(** X20. When a listing hands over a background task, the notification
    service has just been told [startRefresh] with the ids the listing
    reports as [zeroValueInvoiceIds], and these are not empty.  Whenever the
    task then runs, it completes, and the service receives one progress
    update per id, in order, and last [completeRefresh] with an aggregate
    that has one entry per reported id. *)
Theorem refresh_reported_from_start_to_end alias skipOcrRefresh limit offset
    includeData (s s1 : St W) listing task :
  getAllInvoices odooApi alias skipOcrRefresh limit offset includeData s
  = (s1, Fulfilled (listing, Some task)) →
  let ids := zeroValueInvoiceIds listing in
  ids ≠ []
  ∧ length ids = zeroValueInvoicesRefreshed listing
  ∧ store_calls (trace s1) = store_calls (trace s) ++ [StartRefresh ids]
  ∧ ∀ later : St W,
      ∃ finished batch new,
        task later = (finished, Fulfilled tt)
        ∧ trace finished = trace later ++ new
        ∧ store_calls new
          = progress_updates (length ids) ++ [CompleteRefresh batch]
        ∧ map invoiceId (results batch) = ids
        ∧ totalInvoices batch = length ids.
Proof.
  intros Hrun ids.
  destruct (listing_outcome _ _ _ _ _ _ _ _ _ Hrun)
    as ((reads & Htrace) & Htask & Hids & Hcount).
  destruct (negb skipOcrRefresh
            && bool_decide (0 < length (candidate_ids (invoices listing)))%nat)
    eqn:Hstarted; [|done].
  apply andb_true_iff in Hstarted as [_ Hsome].
  apply bool_decide_eq_true in Hsome.
  injection Htask as ->. unfold ids. rewrite Hids.
  split; [intros Hnil; rewrite Hnil in Hsome; simpl in Hsome; lia|].
  split; [by rewrite Hcount|]. split.
  - rewrite Htrace, !store_calls_app, store_calls_rpcs. done.
  - intros later.
    destruct (refresh_summary odooApi (candidate_ids (invoices listing)) later)
      as (s2 & batch & blocks & Hrefresh & Htotal & Hentries & _ & _
          & Htrace2 & Hblocks).
    exists (notified (CompleteRefresh batch) s2), batch,
      (concat blocks ++ [Notify (CompleteRefresh batch)]).
    split; [|split; [|split; [|split]]].
    + unfold background_refresh, then_catch, try_catch, mbind, Task_bind.
      by rewrite Hrefresh.
    + simpl. by rewrite Htrace2, <- app_assoc.
    + rewrite store_calls_app. f_equal. by apply store_calls_blocks.
    + clear -Hentries.
      induction Hentries as [|k entry ks entries Hentry _ IH]; [done|].
      simpl. by rewrite IH, (entry_for_id _ _ Hentry).
    + done.
Qed.

End EndToEnd.

(** ** The further properties at work on the sample ERP *)

Lemma extraction_follows_reset_witness :
  ∃ s' batch new before,
    refreshOcrDataForInvoices Erp.env [1; 2; 3] (Erp.start Erp.sample)
    = (s', Fulfilled batch)
    ∧ trace s' = new
    ∧ rpc_calls new = (before ++ [reset_call 3]) ++ [extraction_call 3].
Proof.
  destruct (extraction_follows_reset Erp.env [1; 2; 3] (Erp.start Erp.sample))
    as (s' & batch & new & Hrun & Htrace & Hreset).
  assert (Hcalls : ∃ before,
            rpc_calls new = before ++ extraction_call 3 :: []).
  { simpl in Htrace. rewrite <- Htrace.
    vm_compute in Hrun. injection Hrun as <- _.
    eexists [_; _; _; _; _; _; _; _; _]. vm_compute. reflexivity. }
  destruct Hcalls as (before & Hcalls).
  destruct (Hreset before 3 [] Hcalls) as (before' & ->).
  exists s', batch, new, before'. split; [exact Hrun|]. split; [exact Htrace|].
  exact Hcalls.
Defined.

(** Invoice 2 of the sample is not linked and has an attachment; the user
    may not write. *)
Lemma refused_linkage_write_stops_repair_witness :
  let s := Erp.start Erp.sample in
  ∃ stopped,
    ensureInvoiceAttachmentLinkage ErpViews.read_only_env 2 s
    = (stopped, Fulfilled false)
    ∧ rpc_calls (trace stopped)
      = [ReadLinkage 2; FindAttachment 2;
         WriteFields INVOICE_MODEL [2] (linkage_values 20)]
    ∧ refresh_iteration ErpViews.read_only_env 1 0 2 [] s
      = (notified (UpdateProgress (0 + 1) 1) stopped,
         Fulfilled ([] ++ [skipped_entry 2])).
Proof.
  intros s.
  edestruct (refused_linkage_write_stops_repair ErpViews.read_only_env
               1 0 2 [] s) as [Hrun Hiter];
    [vm_compute; reflexivity | reflexivity | vm_compute; reflexivity
    | vm_compute; reflexivity |].
  eexists. split; [exact Hrun|]. split; [reflexivity|exact Hiter].
Defined.

Lemma getInvoice_rejects_only_on_reads_witness :
  let s := Erp.start (Erp.set_outage (Some "Network error") Erp.sample) in
  ∃ s', getInvoice Erp.env ErpViews.views 2 s
        = (s', Rejected (Js.ErrorObj "Network error"))
        ∧ trace s' = trace s.
Proof.
  intros s. eexists. split; [vm_compute; reflexivity|].
  refine (proj1 (getInvoice_rejects_only_on_reads Erp.env ErpViews.views 2 s
                   _ (Js.ErrorObj "Network error") _)).
  vm_compute. reflexivity.
Defined.

(** Invoice 4 of the sample has the amount 12.5. *)
Lemma getInvoice_fixes_nothing_else_witness :
  let s := Erp.start Erp.sample in
  ∃ s' invoice,
    getInvoice Erp.env ErpViews.views 4 s = (s', Fulfilled (Some invoice))
    ∧ detail_has_zero_value invoice = false
    ∧ option_map (map ia_id) (detail_attachments invoice) = Some [40]
    ∧ trace s' = trace s.
Proof.
  intros s.
  destruct (getInvoice Erp.env ErpViews.views 4 s)
    as [s' [[invoice|]|e]] eqn:Hrun;
    [|vm_compute in Hrun; discriminate..].
  destruct (getInvoice_fixes_nothing_else Erp.env ErpViews.views 4 s s'
              (Some invoice) Hrun)
    as (w & row & others & w2 & lined & w3 & atts & _ & _ & _ & _ & _ & _ & _
        & _ & Hquiet).
  assert (Hinv : detail_has_zero_value invoice = false
                 ∧ option_map (map ia_id) (detail_attachments invoice)
                   = Some [40]).
  { vm_compute in Hrun. by injection Hrun as _ <-. }
  destruct Hinv as [Hzero Hfound].
  exists s', invoice. split; [reflexivity|]. split; [exact Hzero|].
  split; [exact Hfound|].
  rewrite (Hquiet (or_introl Hzero)). reflexivity.
Defined.

(** Invoice 2 of the sample has no amount, one attachment and no linkage;
    for a user who may not write, the auto-fix ends at the linkage write,
    and the invoice is answered all the same. *)
Lemma getInvoice_auto_fix_sequence_witness :
  let s := Erp.start Erp.sample in
  ∃ s' invoice,
    getInvoice ErpViews.read_only_env ErpViews.views 2 s
    = (s', Fulfilled (Some invoice))
    ∧ trace s'
      = trace s ++ [Rpc (WriteFields INVOICE_MODEL [2] (linkage_values 20))].
Proof.
  intros s.
  edestruct (getInvoice_auto_fix_sequence ErpViews.read_only_env
               ErpViews.views 2 s)
    as (s' & calls & Hrun & Htrace & Hcalls & _);
    [vm_compute; reflexivity | apply no_lines; by left
    | vm_compute; reflexivity | reflexivity |].
  eexists s', _. split; [exact Hrun|].
  change (Js.truthy _) with false in Hcalls.
  inversion Hcalls as [? ? ? Hlink|? ? ? ? Hlink|? ? ? ?|? ? ? ? ? ?]; subst.
  - exact Htrace.
  - vm_compute in Hlink. discriminate.
Defined.

Lemma tab_listing_keeps_invoices_witness :
  let s := Erp.start Erp.sample in
  ∃ s' result,
    getPendingInvoices ErpViews.views None s = (s', Fulfilled result)
    ∧ map id result = [1; 2; 3; 4]
    ∧ Forall (λ inv, is_Some (attachments inv)) result
    ∧ trace s' = trace s.
Proof.
  intros s.
  edestruct (tab_listing_keeps_invoices ErpViews.views
               (read_pending ErpViews.views)
               (getPendingInvoices ErpViews.views) None s)
    as (w1 & fetched & Hread & Hids & _ & Hsome & _ & Htrace);
    [by left | vm_compute; reflexivity |].
  eexists _, _. split; [vm_compute; reflexivity|].
  split; [reflexivity|]. split; [exact Hsome|exact Htrace].
Defined.

(** A user who may not read the attachments of invoice 2: the listing of
    the four invoices is refused at the second. *)
Lemma tab_listing_stops_at_first_failure_witness :
  let s := Erp.start Erp.sample in
  ∃ w', getPendingInvoices (ErpViews.views_without 2) None s
        = (mkSt w' [], Rejected (Js.ErrorObj "Access denied")).
Proof.
  intros s.
  assert (Hmem : (read_pending (ErpViews.views_without 2),
                  getPendingInvoices (ErpViews.views_without 2))
                 ∈ tab_views (ErpViews.views_without 2)) by by left.
  eexists.
  apply (proj2 (proj1 (tab_listing_stops_at_first_failure
                         (ErpViews.views_without 2) _ _ None s _ Hmem) _)).
  split; [vm_compute; reflexivity|]. right.
  eexists _, [_], _, [_; _], _, _. split; [vm_compute; reflexivity|].
  split; [econstructor; [vm_compute; reflexivity|constructor]|].
  split; [vm_compute; reflexivity|vm_compute; reflexivity].
Defined.

Lemma result_and_error_always_toast_witness :
  let result := Hook.mkLastResult 3 3 0 1500 "2025-01-01T00:00:00.000Z" in
  let newStatus :=
    Hook.mkOcrRefreshStatus false (Some result) (Some "Odoo API down") in
  Hook.pollStatus_toasts newStatus (Some "2025-01-01T00:00:00.000Z") ≠ []
  ∧ Hook.pollStatus_toasts newStatus (Some "Odoo API down") ≠ [].
Proof.
  intros result newStatus.
  split.
  - by apply (result_and_error_always_toast newStatus result "Odoo API down").
  - by apply (result_and_error_always_toast newStatus result "Odoo API down").
Defined.

Lemma listing_read_failure_starts_nothing_witness :
  let s := Erp.start Erp.sample in
  ∃ s', getAllInvoices ErpViews.no_attachments_env None false None None false s
        = (s', Rejected (Js.ErrorObj "Access denied"))
        ∧ store_calls (trace s') = store_calls (trace s).
Proof.
  intros s. eexists. split; [vm_compute; reflexivity|].
  refine (proj1 (listing_read_failure_starts_nothing
                   ErpViews.no_attachments_env None false None
                   None false s _ (Js.ErrorObj "Access denied") _)).
  vm_compute. reflexivity.
Defined.

(** The alias is compared without regard to case. *)
Lemma access_denied_unless_alias_matches_witness :
  ∃ s', validateInvoiceAccess ErpViews.views ErpViews.lower 2
          (Some "ana.LOPEZ") (Erp.start Erp.sample)
        = (s', Fulfilled true).
Proof.
  destruct (access_denied_unless_alias_matches ErpViews.views ErpViews.lower
              2 (Some "ana.LOPEZ") (Erp.start Erp.sample))
    as (s' & granted & Hrun & _ & Hgranted & _).
  exists s'. rewrite Hrun. do 2 f_equal. apply Hgranted.
  eexists _, _, _, _. split; [reflexivity|]. split; [done|].
  split; [vm_compute; reflexivity|reflexivity].
Defined.

Lemma refresh_reported_from_start_to_end_witness :
  let s := Erp.start Erp.sample in
  ∃ s1 listing task finished batch,
    getAllInvoices Erp.env None false None None false s
    = (s1, Fulfilled (listing, Some task))
    ∧ zeroValueInvoiceIds listing = [2; 3]
    ∧ task s1 = (finished, Fulfilled tt)
    ∧ store_calls (trace finished)
      = [StartRefresh [2; 3]; UpdateProgress 1 2; UpdateProgress 2 2;
         CompleteRefresh batch].
Proof.
  intros s.
  destruct (getAllInvoices Erp.env None false None None false s)
    as [s1 [[listing [task|]]|e]] eqn:Hrun;
    [|vm_compute in Hrun; discriminate..].
  destruct (refresh_reported_from_start_to_end Erp.env None false None None
              false s s1 listing task Hrun)
    as (_ & _ & Hstart & Hlater).
  destruct (Hlater s1) as (finished & batch & new & Htask & Htrace & Hcalls & _).
  assert (Hids : zeroValueInvoiceIds listing = [2; 3]).
  { vm_compute in Hrun. by injection Hrun as _ <- _. }
  rewrite Hids in *.
  exists s1, listing, task, finished, batch.
  split; [reflexivity|]. split; [exact Hids|]. split; [exact Htask|].
  by rewrite Htrace, store_calls_app, Hstart, Hcalls.
Defined.

Lemma refresh_started_iff_candidates_witness :
  let run := getAllInvoices Erp.env None false None None false
                            (Erp.start Erp.sample) in
  ∃ listing detached,
    run.2 = Fulfilled (listing, detached)
    ∧ map id (invoices listing) = [1; 2; 3; 4]
    ∧ candidate_ids (invoices listing) = [2; 3]
    ∧ store_calls (trace run.1) = [StartRefresh [2; 3]]
    ∧ detached = Some (background_refresh Erp.env [2; 3])
    ∧ zeroValueInvoiceIds listing = [2; 3].
Proof.
  intros run.
  destruct run as [s' [[listing detached]|e]] eqn:Hrun;
    [|vm_compute in Hrun; discriminate].
  destruct (refresh_started_iff_candidates Erp.env None false None None false
              (Erp.start Erp.sample) s' listing detached Hrun)
    as (w1 & fetched & allAttachments & _ & _ & _ & Hrest).
  cbv zeta in Hrest. destruct Hrest as [_ Hcases].
  assert (Hlisted : map id (invoices listing) = [1; 2; 3; 4]
                    ∧ candidate_ids (invoices listing) = [2; 3]
                    ∧ zeroValueInvoiceIds listing = [2; 3]).
  { vm_compute in Hrun. by injection Hrun as _ <- _. }
  destruct Hlisted as (Hall & Hcand & Hreported).
  rewrite Hcand in Hcases.
  destruct Hcases
    as [(_ & _ & Htrace & Hdetached & _ & Hids & _)
       |(_ & _ & _ & Hids & _)]; [|congruence].
  exists listing, detached. split; [reflexivity|]. split; [exact Hall|].
  split; [exact Hcand|]. split; [|by split].
  simpl. rewrite Htrace, !store_calls_app, store_calls_rpcs. reflexivity.
Defined.
